(** * A shallow embedding of [src/src/index.ts] (class [IP]) of
    bitradius/typescript-ip, with proofs of its specified properties.

    JavaScript strings are modelled as [list ascii], big integers and byte
    values as [Z], a Node [Buffer] as the list of its byte values, and a
    thrown [Error] as the [Throw] branch of [result]. *)

From Stdlib Require Import ZArith List Ascii String Bool Lia.
Import ListNotations.

Open Scope Z_scope.

(** ** JavaScript values and primitives *)
Module Js.

Abbreviation str := (list ascii).

(** string literals *)
Definition lit (s : string) : str := list_ascii_of_string s.

Fixpoint str_eqb (a b : str) : bool :=
  match a, b with
  | [], [] => true
  | x :: a', y :: b' => Ascii.eqb x y && str_eqb a' b'
  | _, _ => false
  end.

(** [s.indexOf(c) !== -1] for a one-character [c] *)
Definition includes (c : ascii) (s : str) : bool := existsb (Ascii.eqb c) s.

(** [s.indexOf(c)] for a one-character [c] that occurs in [s] *)
Fixpoint index_of_char (c : ascii) (s : str) : nat :=
  match s with
  | [] => 0%nat
  | x :: t => if Ascii.eqb x c then 0%nat else S (index_of_char c t)
  end.

Fixpoint starts_with (p s : str) : bool :=
  match p, s with
  | [], _ => true
  | x :: p', y :: s' => Ascii.eqb x y && starts_with p' s'
  | _ :: _, [] => false
  end.

(** [s.indexOf(pat)] for a string pattern; [None] stands for [-1] *)
Fixpoint index_of (pat s : str) : option nat :=
  if starts_with pat s then Some 0%nat
  else match s with
       | [] => None
       | _ :: t => option_map S (index_of pat t)
       end.

(** [s.replace(pat, rep)] with a string pattern: the first occurrence only *)
Definition replace_first (pat rep s : str) : str :=
  match index_of pat s with
  | Some i => firstn i s ++ rep ++ skipn (i + List.length pat) s
  | None => s
  end.

(** [s.replace(/pat/g, rep)] for a literal pattern: non-overlapping, left to right *)
Fixpoint replace_all_aux (fuel : nat) (pat rep s : str) : str :=
  match fuel with
  | O => s
  | S f =>
      match s with
      | [] => []
      | c :: t =>
          if starts_with pat s
          then rep ++ replace_all_aux f pat rep (skipn (List.length pat) s)
          else c :: replace_all_aux f pat rep t
      end
  end.
Definition replace_all (pat rep s : str) : str :=
  replace_all_aux (List.length s) pat rep s.

(** [s.split(sep)] for a one-character separator *)
Fixpoint split (sep : ascii) (s : str) : list str :=
  match s with
  | [] => [[]]
  | c :: t =>
      let r := split sep t in
      if Ascii.eqb c sep then [] :: r
      else match r with
           | [] => [[c]]
           | p :: ps => (c :: p) :: ps
           end
  end.

(** [xs.join(sep)] *)
Fixpoint join (sep : str) (xs : list str) : str :=
  match xs with
  | [] => []
  | [x] => x
  | x :: t => x ++ sep ++ join sep t
  end.

(** [xs.join(sep)] over an array holding [null]s, which render as [''] *)
Definition join_nullable (sep : str) (xs : list (option str)) : str :=
  join sep (map (fun o => match o with Some x => x | None => [] end) xs).

(** [s.padStart(n, c)] for a one-character filler *)
Definition padStart (n : nat) (c : ascii) (s : str) : str :=
  if (n <=? List.length s)%nat then s else repeat c (n - List.length s) ++ s.

(** [s.substring(a, b)] with [a <= b <= s.length] *)
Definition substring (a b : nat) (s : str) : str := firstn (b - a) (skipn a s).

(** A JavaScript number as produced by [parseInt]: an integer or [NaN]. *)
Inductive number := Num (z : Z) | NaN.

(** digit value of a character in a radix (both cases of letters) *)
Definition digit_val (radix : Z) (c : ascii) : option Z :=
  let n := Z.of_nat (nat_of_ascii c) in
  let v := if (48 <=? n) && (n <=? 57) then Some (n - 48)
           else if (97 <=? n) && (n <=? 122) then Some (n - 87)
           else if (65 <=? n) && (n <=? 90) then Some (n - 55)
           else None in
  match v with
  | Some d => if d <? radix then Some d else None
  | None => None
  end.

Definition is_ws (c : ascii) : bool :=
  existsb (Ascii.eqb c) [" "; "009"; "010"; "011"; "012"; "013"]%char.

Fixpoint digits_prefix (radix : Z) (s : str) (acc : Z) (seen : bool) : number :=
  match s with
  | c :: t =>
      match digit_val radix c with
      | Some d => digits_prefix radix t (acc * radix + d) true
      | None => if seen then Num acc else NaN
      end
  | [] => if seen then Num acc else NaN
  end.

Fixpoint drop_ws (s : str) : str :=
  match s with
  | c :: t => if is_ws c then drop_ws t else s
  | [] => []
  end.

(** [parseInt(s, radix)]: leading white space, a sign, for radix 16 an
    optional [0x], then the longest prefix of digits; no digit gives [NaN]. *)
Definition parseInt (s : str) (radix : Z) : number :=
  let s := drop_ws s in
  let '(sign, s) := match s with
                    | c :: t => if Ascii.eqb c "-"%char then (-1, t)
                                else if Ascii.eqb c "+"%char then (1, t)
                                else (1, s)
                    | [] => (1, s)
                    end in
  let s := if radix =? 16
           then match s with
                | c :: x :: t =>
                    if Ascii.eqb c "0"%char && (Ascii.eqb x "x"%char || Ascii.eqb x "X"%char)
                    then t else s
                | _ => s
                end
           else s in
  match digits_prefix radix s 0 false with
  | Num z => Num (sign * z)
  | NaN => NaN
  end.

(** lowercase digit character of a value below 36 *)
Definition digit_char (d : Z) : ascii :=
  if d <? 10 then ascii_of_nat (48 + Z.to_nat d) else ascii_of_nat (87 + Z.to_nat d).

Fixpoint radix_digits (fuel : nat) (b n : Z) (acc : str) : str :=
  match fuel with
  | O => acc
  | S f => if n <? b then digit_char n :: acc
           else radix_digits f b (n / b) (digit_char (n mod b) :: acc)
  end.

(** [n.toString(radix)] of an integer (a [number] or a [BigInteger]) *)
Definition int_to_string (radix n : Z) : str :=
  if n <? 0 then "-"%char :: radix_digits (S (Z.to_nat (Z.log2 (- n)))) radix (- n) []
  else radix_digits (S (Z.to_nat (Z.log2 n))) radix n [].

Definition number_to_string (radix : Z) (x : number) : str :=
  match x with
  | Num z => int_to_string radix z
  | NaN => lit "NaN"
  end.

(** [Number(s)] of a string of decimal digits *)
Definition string_to_number (s : str) : number :=
  if forallb (fun c => match digit_val 10 c with Some _ => true | None => false end) s
  then digits_prefix 10 s 0 false
  else NaN.

(** [BigInteger(s, 16)] of a string of lowercase hex digits *)
Definition BigInteger_of_hex (s : str) : Z :=
  fold_left (fun acc c => acc * 16 + match digit_val 16 c with Some d => d | None => 0 end) s 0.

(** A thrown [Error] with its message, or a returned value. *)
Inductive result (A : Type) := Ok (a : A) | Throw (message : str).
Arguments Ok {A} a.
Arguments Throw {A} message.

End Js.

(** ** Node [Buffer] primitives *)
Module Buf.
Import Js.

(** Node's [unhex]: both cases of letters *)
Definition unhex (c : ascii) : option Z := digit_val 16 c.

(** [Buffer.from(s, 'hex')]: decodes pairs of hex digits and stops at the
    first pair that is not one (or at a lone last digit). *)
Fixpoint from_hex (s : str) : list Z :=
  match s with
  | a :: b :: t =>
      match unhex a, unhex b with
      | Some x, Some y => (x * 16 + y) :: from_hex t
      | _, _ => []
      end
  | _ => []
  end.

(** [buf.toString('hex')] *)
Definition to_hex (bs : list Z) : str :=
  flat_map (fun b => [digit_char (b / 16); digit_char (b mod 16)]) bs.

(** a number stored into a [Uint8Array]: [ToUint8] *)
Definition to_uint8 (x : number) : Z :=
  match x with
  | Num z => z mod 256
  | NaN => 0
  end.

(** [Buffer.from(array)] *)
Definition from_array (xs : list number) : list Z := map to_uint8 xs.

(** [Buffer.alloc(n)] *)
Definition alloc (n : nat) : list Z := repeat 0 n.

(** [src.copy(target, targetStart, sourceStart, sourceEnd)] returns the new target *)
Definition copy (src target : list Z) (targetStart sourceStart sourceEnd : nat) : list Z :=
  let n := Nat.min (Nat.min (sourceEnd - sourceStart) (List.length src - sourceStart))
                   (List.length target - targetStart) in
  firstn targetStart target ++ firstn n (skipn sourceStart src)
    ++ skipn (targetStart + n) target.

(** [a.compare(b) === 0] *)
Fixpoint equals (a b : list Z) : bool :=
  match a, b with
  | [], [] => true
  | x :: a', y :: b' => (x =? y) && equals a' b'
  | _, _ => false
  end.

End Buf.

(** ** The class [IP] *)
Module IP.
Import Js.

Record IP := mkIP { m_bytes : list Z; m_isV4 : bool; m_zone : option str }.

(** [new IP()] *)
Definition new_IP : IP := {| m_bytes := Buf.alloc 16; m_isV4 := false; m_zone := None |}.

Definition mappedV4Prefix : list Z := Buf.from_hex (lit "00000000000000000000ffff").

(** *** The two family tests (unanchored regular expressions) *)

Definition is_digit (c : ascii) : bool :=
  match digit_val 10 c with Some _ => true | None => false end.

(** [[0-9]{1,3}] followed by what [k] accepts, with backtracking *)
Definition digits13 (k : str -> bool) (s : str) : bool :=
  match s with
  | d1 :: s1 =>
      is_digit d1 &&
      (k s1 ||
       match s1 with
       | d2 :: s2 =>
           is_digit d2 &&
           (k s2 || match s2 with d3 :: s3 => is_digit d3 && k s3 | [] => false end)
       | [] => false
       end)
  | [] => false
  end.

(** [\.] followed by what [k] accepts *)
Definition dot (k : str -> bool) (s : str) : bool :=
  match s with c :: t => Ascii.eqb c "."%char && k t | [] => false end.

(** a match of the pattern starting at the head of [s] *)
Definition v4_pattern_at (s : str) : bool :=
  digits13 (dot (digits13 (dot (digits13 (dot (digits13 (fun _ => true))))))) s.

(** [re.test(s)] for an unanchored pattern: a match starts at some position *)
Fixpoint test_somewhere (p : str -> bool) (s : str) : bool :=
  p s || match s with [] => false | _ :: t => test_somewhere p t end.

(** [/[0-9]{1,3}\.[0-9]{1,3}\.[0-9]{1,3}\.[0-9]{1,3}/.test(ip)] *)
Definition isIPv4 (ip : str) : bool := test_somewhere v4_pattern_at ip.

Definition v6_class (c : ascii) : bool :=
  is_digit c || existsb (Ascii.eqb c) (lit "abcdef:%").

(** [/[0-9a-f:%]+/.test(ip)] *)
Definition isIPv6 (ip : str) : bool := existsb v6_class ip.

(** *** Text to bytes *)

Definition v4StringToBuffer (ip : str) : list Z :=
  let bytes := map (fun octet => parseInt octet 10) (split "."%char ip) in
  let ipBuffer := Buf.from_array bytes in
  let buffer := Buf.alloc 16 in
  let buffer := Buf.copy mappedV4Prefix buffer 0 0 (List.length mappedV4Prefix) in
  Buf.copy ipBuffer buffer 12 0 4.

Definition expandV6 (address : str) : str :=
  let octets := split ":"%char address in
  let octets := if starts_with (lit "::") address then tl octets else octets in
  let tmp := flat_map (fun octet =>
                 match octet with
                 | [] => let ins := 8 - Z.of_nat (List.length octets) + 1 in
                         repeat (lit "0000") (Z.to_nat ins)
                 | _ => [padStart 4 "0"%char octet]
                 end) octets in
  join (lit ":") tmp.

Definition v6StringToBuffer (ip : str) : result (list Z * option str) :=
  let zone_split :=
    if includes "%"%char ip then
      let parts := split "%"%char ip in
      if (2 <? List.length parts)%nat then None
      else Some (nth 0 parts [], Some (nth 1 parts []))
    else Some (ip, None) in
  match zone_split with
  | None => Throw (lit "Not a valid IP address")
  | Some (ip, zone) =>
      let ip := expandV6 ip in
      let ip := join [] (split ":"%char ip) in
      Ok (Buf.from_hex ip, zone)
  end.

(** [address[0] === '[' && address[address.length - 1] === ']'] and the substring *)
Definition strip_brackets (address : str) : str :=
  match address with
  | c :: _ =>
      if Ascii.eqb c "["%char && Ascii.eqb (last address c) "]"%char
      then substring 1 (List.length address - 1) address
      else address
  | [] => address
  end.

Definition is_mapped (bytes : list Z) : bool :=
  match bytes with
  | b0 :: _ => (b0 =? 0) && Buf.equals (firstn 12 bytes) mappedV4Prefix
  | [] => false
  end.

Definition parse (address : str) : result IP :=
  let ip := new_IP in
  let address := strip_brackets address in
  if str_eqb address (lit "::") then Ok ip
  else if isIPv4 address then
    Ok {| m_bytes := v4StringToBuffer address; m_isV4 := true; m_zone := m_zone ip |}
  else if isIPv6 address then
    match v6StringToBuffer address with
    | Throw e => Throw e
    | Ok (bytes, zone) =>
        Ok {| m_bytes := bytes; m_isV4 := is_mapped bytes; m_zone := zone |}
    end
  else Throw (lit "Not a valid IP address").

(** *** Decimal values *)

(** [fromDecimal(decimal, forceV6)] for a [BigInteger] (or an integral
    [number], which the code first turns into one) *)
Definition fromDecimal (decimal : Z) (forceV6 : bool) : result IP :=
  let hex := padStart 32 "0"%char (int_to_string 16 decimal) in
  let bytes := Buf.from_hex hex in
  let empty := Buf.alloc 12 in
  if negb forceV6 && Buf.equals (firstn 12 bytes) empty
  then Ok {| m_bytes := Buf.copy mappedV4Prefix bytes 0 0 (List.length mappedV4Prefix);
             m_isV4 := true; m_zone := None |}
  else Ok {| m_bytes := bytes; m_isV4 := false; m_zone := None |}.

(** the [decimal] getter *)
Definition decimal (ip : IP) : Z :=
  if m_isV4 ip then BigInteger_of_hex (Buf.to_hex (skipn 12 (m_bytes ip)))
  else BigInteger_of_hex (Buf.to_hex (m_bytes ip)).

(** *** Bytes to text *)

(** [hex.match(/[0-9a-f]{4}/g)]; the empty list stands for [null] *)
Definition is_lower_hex (c : ascii) : bool :=
  is_digit c || existsb (Ascii.eqb c) (lit "abcdef").

Fixpoint match_hex4 (fuel : nat) (s : str) : list str :=
  match fuel with
  | O => []
  | S f =>
      match s with
      | a :: b :: c :: d :: t =>
          if forallb is_lower_hex [a; b; c; d] then [a; b; c; d] :: match_hex4 f t
          else match_hex4 f (b :: c :: d :: t)
      | _ => []
      end
  end.
Definition match_hex4_global (s : str) : list str := match_hex4 (List.length s) s.

(** the [while] loop of [compressV6], [zeros] holding [n] copies of ['0000'] *)
Fixpoint compress_loop (fuel : nat) (zeros : list str) (address : str) : str :=
  match fuel with
  | O => address
  | S f =>
      if (1 <? List.length zeros)%nat then
        let repl := join (lit ":") zeros in
        match index_of repl address with
        | Some _ => replace_first repl [] address
        | None => compress_loop f (removelast zeros) address
        end
      else address
  end.

Definition compressV6 (address : str) : str :=
  let zeros := repeat (lit "0000") 8 in
  let address := compress_loop 8 zeros address in
  let address := match address with
                 | c :: _ => if Ascii.eqb c ":"%char then ":"%char :: address else address
                 | [] => lit "::"
                 end in
  join_nullable (lit ":")
    (map (fun octet => match octet with
                       | [] => None
                       | _ => Some (number_to_string 16 (parseInt octet 16))
                       end) (split ":"%char address)).

Definition v6ToString (bytes : list Z) (expanded : bool) : result str :=
  let hex := Buf.to_hex bytes in
  match match_hex4_global hex with
  | [] => Throw (lit "Could not encode IP address to string")
  | octets =>
      if negb expanded then Ok (compressV6 (join (lit ":") octets))
      else Ok (replace_all (lit "0000") (lit "0")
                 (join (lit ":") (map (fun octet => number_to_string 16 (parseInt octet 16)) octets)))
  end.

(** [bytes.slice(12).map(byte => byte.toString())] keeps a [Buffer]: each
    string is stored back as a byte; [.join('.')] then prints the bytes. *)
Definition v4ToString (bytes : list Z) (mapped : bool) : result str :=
  if negb mapped then
    let kept := map (fun byte => Buf.to_uint8 (string_to_number (int_to_string 10 byte))) (skipn 12 bytes) in
    Ok (join (lit ".") (map (int_to_string 10) kept))
  else v6ToString bytes mapped.

Inductive encoding := Mapped | Expanded.

Definition is_enc (e : encoding) (o : option encoding) : bool :=
  match e, o with
  | Mapped, Some Mapped | Expanded, Some Expanded => true
  | _, _ => false
  end.

(** [ip.toString(encoding)] *)
Definition toString (ip : IP) (enc : option encoding) : result str :=
  if m_isV4 ip then v4ToString (m_bytes ip) (is_enc Mapped enc)
  else match m_zone ip with
       | None | Some [] => v6ToString (m_bytes ip) (is_enc Expanded enc)
       | Some zone =>
           match v6ToString (m_bytes ip) (is_enc Expanded enc) with
           | Ok s => Ok (s ++ "%"%char :: zone)
           | Throw e => Throw e
           end
       end.

(** *** [splitHostPort] *)
Definition split_error : str := lit "Cannot split IP address and port from host".

Definition splitHostPort (host : str) : result (str * number) :=
  if includes "."%char host then
    let parts := split ":"%char host in
    if (List.length parts =? 2)%nat then Ok (nth 0 parts [], parseInt (nth 1 parts []) 10)
    else Ok (nth 0 parts [], Num 0)
  else if includes "["%char host && includes "]"%char host then
    let i := index_of_char "]"%char host in
    let host_ := substring 0 (i + 1) host in
    let right := skipn (i + 1) host in
    match right with
    | [] => Ok (host_, Num 0)
    | _ =>
        let rightParts := split ":"%char right in
        if (List.length rightParts =? 2)%nat then
          let port := nth 1 rightParts [] in
          Ok (host_, parseInt (match port with [] => lit "0" | _ => port end) 10)
        else Throw split_error
    end
  else Throw split_error.

End IP.

(** ** Notions used to state the properties *)
Module Spec.
Import Js.

(** the four lowercase hex digits of a 16-bit hextet *)
Definition hex4 (h : Z) : str := Buf.to_hex [h / 256; h mod 256].

(** network-order bytes of a list of hextets, and back *)
Definition bytes_of_hextets (hs : list Z) : list Z := flat_map (fun h => [h / 256; h mod 256]) hs.

Fixpoint hextets (bs : list Z) : list Z :=
  match bs with
  | b0 :: b1 :: t => (b0 * 256 + b1) :: hextets t
  | _ => []
  end.

Fixpoint drop_zeros (s : str) : str :=
  match s with
  | c :: t => if Ascii.eqb c "0"%char then drop_zeros t else s
  | [] => []
  end.

(** a hextet in lowercase hex without leading zeros *)
Definition hextet_text (h : Z) : str :=
  match drop_zeros (hex4 h) with [] => lit "0" | s => s end.

(** hextets [i .. i+l-1] exist and are all zero *)
Definition zero_run (hs : list Z) (i l : nat) : Prop := firstn l (skipn i hs) = repeat 0 l.

Definition zero_run_b (hs : list Z) (i l : nat) : bool :=
  (i + l <=? List.length hs)%nat && forallb (Z.eqb 0) (firstn l (skipn i hs)).

(** leftmost start of a zero run of length [l] *)
Fixpoint first_run (l : nat) (hs : list Z) : option nat :=
  if zero_run_b hs 0 l then Some 0%nat
  else match hs with
       | [] => None
       | _ :: t => option_map S (first_run l t)
       end.

(** §4.1: candidate lengths from [k] down to 2, the first (leftmost) run of that length *)
Fixpoint longest_run_from (k : nat) (hs : list Z) : option (nat * nat) :=
  match k with
  | O | S O => None
  | S k' => match first_run k hs with
            | Some i => Some (i, k)
            | None => longest_run_from k' hs
            end
  end.

Definition longest_zero_run (hs : list Z) : option (nat * nat) := longest_run_from 8 hs.

(** a valid compressed IPv6 text of eight hextets: the longest zero run written as [::] *)
Definition compressed_text (hs : list Z) : str :=
  match longest_zero_run hs with
  | None => join (lit ":") (map hextet_text hs)
  | Some (i, l) =>
      join (lit ":") (map hextet_text (firstn i hs)) ++ lit "::"
        ++ join (lit ":") (map hextet_text (skipn (i + l) hs))
  end.

(** the fully expanded 8-hextet form *)
Definition expanded_text (hs : list Z) : str := join (lit ":") (map hextet_text hs).

(** the elided zero run does not end the address, unless the address is [::] *)
Definition run_not_trailing (hs : list Z) : Prop :=
  forall i l, longest_zero_run hs = Some (i, l) -> (i + l < 8)%nat \/ i = 0%nat.

Definition hextet_ok (h : Z) : Prop := 0 <= h < 65536.
Definition byte_ok (b : Z) : Prop := 0 <= b < 256.

(** a group of one to four hex digits of either case, the digits that
    [Buffer.from(.., 'hex')] decodes *)
Definition hex_char (c : ascii) : bool := match Buf.unhex c with Some _ => true | None => false end.

Definition hex_group (g : str) : bool :=
  (1 <=? List.length g)%nat && (List.length g <=? 4)%nat && forallb hex_char g.

(** a well-formed IPv6 text: eight groups joined by [':'], or groups around
    one [::] with at least one group after it and at most seven in all *)
Definition v6_text (a : str) : Prop :=
  (exists gs, List.length gs = 8%nat /\ forallb hex_group gs = true /\ a = join (lit ":") gs) \/
  (exists A B, B <> [] /\ (List.length A + List.length B <= 7)%nat /\
     forallb hex_group (A ++ B) = true /\ a = join (lit ":") A ++ lit "::" ++ join (lit ":") B).

(** *** Finite checks used by the proofs *)

Fixpoint all_from (fuel : nat) (lo : Z) (p : Z -> bool) : bool :=
  match fuel with
  | O => true
  | S f => p lo && all_from f (lo + 1) p
  end.

Definition all_ascii (p : ascii -> bool) : bool :=
  forallb p (map ascii_of_nat (seq 0 256)).

Definition no_0000_window (s : str) : bool :=
  (List.length s <? 4)%nat || negb (str_eqb (firstn 4 s) (lit "0000")).

(** what the proofs need to know about one lowercase hex digit *)
Definition hexchar_facts (c : ascii) : bool :=
  negb (IP.is_lower_hex c)
  || (match digit_val 16 c with
      | Some d => (0 <=? d) && (d <? 16) && Ascii.eqb (digit_char d) c
      | None => false
      end
      && negb (existsb (Ascii.eqb c) (lit ":.%[]xX+- "))
      && negb (is_ws c) && IP.v6_class c).

Definition digit_facts (d : Z) : bool :=
  IP.is_lower_hex (digit_char d)
  && match digit_val 16 (digit_char d) with Some e => e =? d | None => false end
  && Bool.eqb (Ascii.eqb (digit_char d) "0"%char) (d =? 0).

End Spec.

(** ** Lemmas *)
Module Facts.
Import Js IP Spec.

(** *** Finite checks *)

Lemma all_from_spec : forall fuel lo p, all_from fuel lo p = true ->
  forall z, lo <= z < lo + Z.of_nat fuel -> p z = true.
Proof.
  induction fuel as [|fuel IH]; simpl; intros lo p H z Hz; [lia|].
  apply andb_prop in H as [H1 H2].
  destruct (Z.eq_dec z lo) as [->|Hne]; [assumption|].
  apply (IH (lo + 1)); [assumption|lia].
Qed.

Lemma all_ascii_spec : forall p, all_ascii p = true -> forall c, p c = true.
Proof.
  intros p H c. unfold all_ascii in H. rewrite forallb_forall in H.
  rewrite <- (ascii_nat_embedding c). apply H. apply in_map. apply in_seq.
  pose proof (nat_ascii_bounded c). lia.
Qed.

Lemma hexchar_facts_all : forall c, hexchar_facts c = true.
Proof. apply all_ascii_spec. vm_compute. reflexivity. Qed.

Lemma digit_facts_all : forall d, 0 <= d < 16 -> digit_facts d = true.
Proof. intros d Hd. apply (all_from_spec 16 0); [vm_compute; reflexivity | lia]. Qed.

Lemma not_in_eqb : forall (c x : ascii) l,
  existsb (Ascii.eqb c) l = false -> In x l -> Ascii.eqb c x = false.
Proof.
  intros c x l H Hin. destruct (Ascii.eqb c x) eqn:E; [|reflexivity].
  exfalso. assert (existsb (Ascii.eqb c) l = true) by (apply existsb_exists; eauto).
  congruence.
Qed.

Lemma lower_hex_val : forall c, is_lower_hex c = true ->
  exists d, digit_val 16 c = Some d /\ 0 <= d < 16 /\ digit_char d = c.
Proof.
  intros c Hc. pose proof (hexchar_facts_all c) as H. unfold hexchar_facts in H.
  rewrite Hc in H. simpl in H.
  destruct (digit_val 16 c) as [d|]; [|discriminate].
  repeat rewrite Bool.andb_true_iff in H. destruct H as [[[[[H1 H2] H3] H4] H5] H6].
  exists d. apply Z.leb_le in H1. apply Z.ltb_lt in H2. apply Ascii.eqb_eq in H3.
  repeat split; auto; lia.
Qed.

Lemma lower_hex_other : forall c, is_lower_hex c = true ->
  existsb (Ascii.eqb c) (lit ":.%[]xX+- ") = false /\ is_ws c = false /\ v6_class c = true.
Proof.
  intros c Hc. pose proof (hexchar_facts_all c) as H. unfold hexchar_facts in H.
  rewrite Hc in H. simpl in H.
  destruct (digit_val 16 c) as [d|]; [|discriminate].
  repeat rewrite Bool.andb_true_iff in H. destruct H as [[[[[H1 H2] H3] H4] H5] H6].
  apply Bool.negb_true_iff in H4. apply Bool.negb_true_iff in H5. auto.
Qed.

Ltac char_neq c x :=
  let H := fresh in
  assert (H : Ascii.eqb c x = false)
    by (eapply not_in_eqb; [apply (proj1 (lower_hex_other c ltac:(assumption)))|
                              vm_compute; tauto]).

Lemma digit_char_hex : forall d, 0 <= d < 16 -> is_lower_hex (digit_char d) = true.
Proof.
  intros d Hd. pose proof (digit_facts_all d Hd) as H. unfold digit_facts in H.
  repeat rewrite Bool.andb_true_iff in H. tauto.
Qed.

Lemma digit_char_val : forall d, 0 <= d < 16 -> digit_val 16 (digit_char d) = Some d.
Proof.
  intros d Hd. pose proof (digit_facts_all d Hd) as H. unfold digit_facts in H.
  repeat rewrite Bool.andb_true_iff in H. destruct H as [[_ H] _].
  destruct (digit_val 16 (digit_char d)); [apply Z.eqb_eq in H; congruence|discriminate].
Qed.

Lemma digit_char_zero : forall d, 0 <= d < 16 -> Ascii.eqb (digit_char d) "0"%char = (d =? 0).
Proof.
  intros d Hd. pose proof (digit_facts_all d Hd) as H. unfold digit_facts in H.
  repeat rewrite Bool.andb_true_iff in H. destruct H as [_ H].
  apply Bool.eqb_prop in H. exact H.
Qed.

(** *** Lists and strings *)

Lemma str_eqb_eq : forall a b, str_eqb a b = true <-> a = b.
Proof.
  induction a as [|x a IH]; destruct b as [|y b]; simpl; split; intros H;
    try congruence; try reflexivity.
  - apply andb_prop in H as [H1 H2]. apply Ascii.eqb_eq in H1. apply IH in H2. congruence.
  - injection H as -> ->. rewrite Ascii.eqb_refl. simpl. apply IH. reflexivity.
Qed.

Lemma split_no_sep : forall c s, ~ In c s -> split c s = [s].
Proof.
  intros c. induction s as [|a s IH]; simpl; intros H; [reflexivity|].
  rewrite IH by tauto. destruct (Ascii.eqb a c) eqn:E; [|reflexivity].
  apply Ascii.eqb_eq in E. subst. tauto.
Qed.

Lemma split_app_sep : forall c x r, ~ In c x -> split c (x ++ c :: r) = x :: split c r.
Proof.
  intros c. induction x as [|a x IH]; simpl; intros r H.
  - rewrite Ascii.eqb_refl. reflexivity.
  - rewrite IH by tauto. destruct (Ascii.eqb a c) eqn:E; [|reflexivity].
    apply Ascii.eqb_eq in E. subst. tauto.
Qed.

Lemma join_cons2 : forall sep x y ys, join sep (x :: y :: ys) = x ++ sep ++ join sep (y :: ys).
Proof. reflexivity. Qed.

Lemma split_join : forall c xs, xs <> [] -> Forall (fun x => ~ In c x) xs ->
  split c (join [c] xs) = xs.
Proof.
  intros c. induction xs as [|x xs IH]; intros Hne Hall; [congruence|].
  inversion Hall as [|? ? Hx Hxs]; subst.
  destruct xs as [|y ys].
  - simpl. apply split_no_sep. exact Hx.
  - rewrite join_cons2. cbn [app]. rewrite split_app_sep by exact Hx.
    f_equal. apply IH; [congruence|exact Hxs].
Qed.

Lemma join_nil_concat : forall xs, join [] xs = List.concat xs.
Proof.
  induction xs as [|x xs IH]; [reflexivity|].
  destruct xs as [|y ys]; simpl.
  - rewrite app_nil_r. reflexivity.
  - simpl in IH. rewrite IH. reflexivity.
Qed.

Lemma join_app : forall sep xs ys, xs <> [] -> ys <> [] ->
  join sep (xs ++ ys) = join sep xs ++ sep ++ join sep ys.
Proof.
  intros sep. induction xs as [|x xs IH]; intros ys Hx Hy; [congruence|].
  destruct xs as [|x' xs].
  - simpl. destruct ys as [|y ys]; [congruence|]. reflexivity.
  - cbn [app]. rewrite join_cons2.
    change (x' :: xs ++ ys) with ((x' :: xs) ++ ys).
    rewrite IH by (congruence || assumption).
    rewrite join_cons2, <- !app_assoc. reflexivity.
Qed.

Lemma join_length : forall sep xs n, xs <> [] -> Forall (fun x => List.length x = n) xs ->
  List.length (join sep xs) = (List.length xs * n + (List.length xs - 1) * List.length sep)%nat.
Proof.
  intros sep. induction xs as [|x xs IH]; intros n Hne Hall; [congruence|].
  inversion Hall; subst. destruct xs as [|y ys].
  - simpl. lia.
  - rewrite join_cons2, !length_app, (IH (List.length x)) by (congruence || assumption). simpl. lia.
Qed.

Lemma join_in : forall sep xs c, In c (join sep xs) ->
  (exists x, In x xs /\ In c x) \/ In c sep.
Proof.
  intros sep. induction xs as [|x xs IH]; intros c H; [simpl in H; tauto|].
  destruct xs as [|y ys].
  - left. exists x. simpl in *. auto.
  - rewrite join_cons2 in H. apply in_app_or in H. destruct H as [H|H].
    + left. exists x. split; [left; reflexivity|exact H].
    + apply in_app_or in H. destruct H as [H|H]; [right; exact H|].
      destruct (IH c H) as [[z [Hz Hc]]|Hc].
      * left. exists z. split; [right; exact Hz|exact Hc].
      * right. exact Hc.
Qed.

End Facts.

(** *** Hex digits, bytes and hextets *)
Module HexFacts.
Import Js IP Spec Facts.

Arguments digit_char : simpl never.
Arguments digit_val : simpl never.

Lemma div_mod_eq : forall a b q r, 0 <= r < b -> a = b * q + r -> a / b = q /\ a mod b = r.
Proof.
  intros a b q r Hr Ha. split.
  - symmetry. apply (Z.div_unique_pos a b q r); lia.
  - symmetry. apply (Z.mod_unique_pos a b q r); lia.
Qed.

Lemma byte_split : forall b, byte_ok b ->
  0 <= b / 16 < 16 /\ 0 <= b mod 16 < 16 /\ b = 16 * (b / 16) + b mod 16.
Proof.
  intros b Hb. unfold byte_ok in Hb.
  pose proof (Z.div_mod b 16 ltac:(lia)). pose proof (Z.mod_pos_bound b 16 ltac:(lia)).
  assert (0 <= b / 16) by (apply Z.div_pos; lia).
  assert (b / 16 < 16) by (apply Z.div_lt_upper_bound; lia).
  lia.
Qed.

Lemma to_hex_app : forall a b, Buf.to_hex (a ++ b) = Buf.to_hex a ++ Buf.to_hex b.
Proof. intros a b. unfold Buf.to_hex. apply flat_map_app. Qed.

Lemma to_hex_cons : forall b bs,
  Buf.to_hex (b :: bs) = digit_char (b / 16) :: digit_char (b mod 16) :: Buf.to_hex bs.
Proof. reflexivity. Qed.

Lemma to_hex_length : forall bs, List.length (Buf.to_hex bs) = (2 * List.length bs)%nat.
Proof. induction bs as [|b bs IH]; [reflexivity|]. rewrite to_hex_cons. simpl. lia. Qed.

Lemma from_hex_cons2 : forall a b t,
  Buf.from_hex (a :: b :: t) =
  match Buf.unhex a, Buf.unhex b with
  | Some x, Some y => (x * 16 + y) :: Buf.from_hex t
  | _, _ => []
  end.
Proof. reflexivity. Qed.

Lemma from_hex_to_hex : forall bs, Forall byte_ok bs -> Buf.from_hex (Buf.to_hex bs) = bs.
Proof.
  induction bs as [|b bs IH]; intros H; [reflexivity|].
  inversion H as [|? ? Hb Hbs]; subst.
  destruct (byte_split b Hb) as [H1 [H2 H3]].
  rewrite to_hex_cons, from_hex_cons2. unfold Buf.unhex.
  rewrite !digit_char_val by assumption. rewrite IH by assumption.
  f_equal. lia.
Qed.

Lemma to_hex_lower : forall bs, Forall byte_ok bs -> forallb is_lower_hex (Buf.to_hex bs) = true.
Proof.
  induction bs as [|b bs IH]; intros H; [reflexivity|].
  inversion H as [|? ? Hb Hbs]; subst.
  destruct (byte_split b Hb) as [H1 [H2 H3]].
  rewrite to_hex_cons. simpl. rewrite !digit_char_hex, IH by assumption. reflexivity.
Qed.

Lemma to_hex_from_hex : forall n s, List.length s = (2 * n)%nat ->
  forallb is_lower_hex s = true -> Buf.to_hex (Buf.from_hex s) = s.
Proof.
  induction n as [|n IH]; intros s Hlen Hs.
  - destruct s; [reflexivity|simpl in Hlen; lia].
  - destruct s as [|a [|b t]]; simpl in Hlen; try lia.
    simpl in Hs. apply andb_prop in Hs as [Ha Hs]. apply andb_prop in Hs as [Hb Ht].
    destruct (lower_hex_val a Ha) as [x [Hx [Hxr Hxc]]].
    destruct (lower_hex_val b Hb) as [y [Hy [Hyr Hyc]]].
    rewrite from_hex_cons2. unfold Buf.unhex. rewrite Hx, Hy.
    rewrite to_hex_cons. destruct (div_mod_eq (x * 16 + y) 16 x y) as [-> ->]; [lia|lia|].
    rewrite Hxc, Hyc, IH; [reflexivity|lia|exact Ht].
Qed.

Lemma from_hex_length : forall n s, List.length s = (2 * n)%nat ->
  forallb is_lower_hex s = true -> List.length (Buf.from_hex s) = n.
Proof.
  induction n as [|n IH]; intros s Hlen Hs.
  - destruct s; [reflexivity|simpl in Hlen; lia].
  - destruct s as [|a [|b t]]; simpl in Hlen; try lia.
    simpl in Hs. apply andb_prop in Hs as [Ha Hs]. apply andb_prop in Hs as [Hb Ht].
    destruct (lower_hex_val a Ha) as [x [Hx [Hxr Hxc]]].
    destruct (lower_hex_val b Hb) as [y [Hy [Hyr Hyc]]].
    rewrite from_hex_cons2. unfold Buf.unhex. rewrite Hx, Hy. simpl.
    rewrite IH; [reflexivity|lia|exact Ht].
Qed.

(** hextets and their bytes *)

Lemma hextet_bytes : forall h, hextet_ok h ->
  byte_ok (h / 256) /\ byte_ok (h mod 256) /\ h = 256 * (h / 256) + h mod 256.
Proof.
  intros h Hh. unfold hextet_ok, byte_ok in *.
  pose proof (Z.div_mod h 256 ltac:(lia)). pose proof (Z.mod_pos_bound h 256 ltac:(lia)).
  assert (0 <= h / 256) by (apply Z.div_pos; lia).
  assert (h / 256 < 256) by (apply Z.div_lt_upper_bound; lia).
  lia.
Qed.

Lemma bytes_of_hextets_ok : forall hs, Forall hextet_ok hs -> Forall byte_ok (bytes_of_hextets hs).
Proof.
  induction hs as [|h hs IH]; intros H; simpl; [constructor|].
  inversion H as [|? ? Hh Hhs]; subst. destruct (hextet_bytes h Hh) as [H1 [H2 _]].
  constructor; [exact H1|constructor; [exact H2|apply IH; exact Hhs]].
Qed.

Lemma bytes_of_hextets_length : forall hs,
  List.length (bytes_of_hextets hs) = (2 * List.length hs)%nat.
Proof. induction hs as [|h hs IH]; simpl; [reflexivity|]. lia. Qed.

Lemma to_hex_hextets : forall hs,
  Buf.to_hex (bytes_of_hextets hs) = List.concat (map hex4 hs).
Proof.
  induction hs as [|h hs IH]; [reflexivity|].
  change (bytes_of_hextets (h :: hs)) with ([h / 256; h mod 256] ++ bytes_of_hextets hs).
  rewrite to_hex_app, IH. reflexivity.
Qed.

Lemma hextets_of_bytes : forall hs, Forall hextet_ok hs -> hextets (bytes_of_hextets hs) = hs.
Proof.
  induction hs as [|h hs IH]; intros H; [reflexivity|].
  inversion H as [|? ? Hh Hhs]; subst. destruct (hextet_bytes h Hh) as [_ [_ E]].
  simpl. rewrite IH by assumption. f_equal. lia.
Qed.

Lemma bytes_of_hextets_of_bytes : forall n bs, List.length bs = (2 * n)%nat ->
  Forall byte_ok bs -> bytes_of_hextets (hextets bs) = bs /\ Forall hextet_ok (hextets bs)
  /\ List.length (hextets bs) = n.
Proof.
  induction n as [|n IH]; intros bs Hlen Hok.
  - destruct bs; [repeat constructor|simpl in Hlen; lia].
  - destruct bs as [|b0 [|b1 t]]; simpl in Hlen; try lia.
    inversion Hok as [|? ? H0 Hok']; subst. inversion Hok' as [|? ? H1 Ht]; subst.
    destruct (IH t ltac:(lia) Ht) as [E1 [E2 E3]].
    unfold byte_ok in *. simpl. rewrite E3.
    destruct (div_mod_eq (b0 * 256 + b1) 256 b0 b1) as [-> ->]; [lia|lia|].
    rewrite E1. repeat split; auto. constructor; auto. unfold hextet_ok. lia.
Qed.

(** the four hex digits of a hextet *)

Lemma hextet_digits : forall h, hextet_ok h -> exists a b c d,
  0 <= a < 16 /\ 0 <= b < 16 /\ 0 <= c < 16 /\ 0 <= d < 16 /\
  h = 4096 * a + 256 * b + 16 * c + d.
Proof.
  intros h Hh. unfold hextet_ok in Hh.
  exists (h / 16 / 16 / 16), (h / 16 / 16 mod 16), (h / 16 mod 16), (h mod 16).
  pose proof (Z.div_mod h 16 ltac:(lia)). pose proof (Z.mod_pos_bound h 16 ltac:(lia)).
  pose proof (Z.div_mod (h / 16) 16 ltac:(lia)). pose proof (Z.mod_pos_bound (h / 16) 16 ltac:(lia)).
  pose proof (Z.div_mod (h / 16 / 16) 16 ltac:(lia)).
  pose proof (Z.mod_pos_bound (h / 16 / 16) 16 ltac:(lia)).
  assert (0 <= h / 16) by (apply Z.div_pos; lia).
  assert (0 <= h / 16 / 16) by (apply Z.div_pos; lia).
  assert (0 <= h / 16 / 16 / 16) by (apply Z.div_pos; lia).
  lia.
Qed.

Lemma hex4_digits : forall a b c d,
  0 <= a < 16 -> 0 <= b < 16 -> 0 <= c < 16 -> 0 <= d < 16 ->
  hex4 (4096 * a + 256 * b + 16 * c + d) = [digit_char a; digit_char b; digit_char c; digit_char d].
Proof.
  intros a b c d Ha Hb Hc Hd. unfold hex4.
  destruct (div_mod_eq (4096 * a + 256 * b + 16 * c + d) 256 (16 * a + b) (16 * c + d))
    as [-> ->]; [lia|lia|].
  rewrite !to_hex_cons.
  destruct (div_mod_eq (16 * a + b) 16 a b) as [-> ->]; [lia|lia|].
  destruct (div_mod_eq (16 * c + d) 16 c d) as [-> ->]; [lia|lia|].
  reflexivity.
Qed.

End HexFacts.

(** *** [toString(16)], [parseInt] and the text of a hextet *)
Module RadixFacts.
Import Js IP Spec Facts HexFacts.

Lemma radix_base : forall f n acc, 0 <= n < 16 ->
  radix_digits (S f) 16 n acc = digit_char n :: acc.
Proof.
  intros f n acc Hn. cbn [radix_digits]. destruct (n <? 16) eqn:E; [reflexivity|].
  apply Z.ltb_ge in E. lia.
Qed.

Lemma radix_step : forall f q r acc, 1 <= q -> 0 <= r < 16 ->
  radix_digits (S f) 16 (16 * q + r) acc = radix_digits f 16 q (digit_char r :: acc).
Proof.
  intros f q r acc Hq Hr. cbn [radix_digits]. destruct (16 * q + r <? 16) eqn:E.
  - apply Z.ltb_lt in E. lia.
  - destruct (div_mod_eq (16 * q + r) 16 q r) as [-> ->]; [lia|lia|reflexivity].
Qed.

Lemma int_to_string_nonneg : forall n, 0 <= n ->
  int_to_string 16 n = radix_digits (S (Z.to_nat (Z.log2 n))) 16 n [].
Proof.
  intros n Hn. unfold int_to_string. destruct (n <? 0) eqn:E; [|reflexivity].
  apply Z.ltb_lt in E. lia.
Qed.

Lemma log2_at_least : forall n k, 0 <= k -> 2 ^ k <= n -> k <= Z.log2 n.
Proof. intros n k Hk Hn. apply Z.log2_le_pow2; [|exact Hn]. pose proof (Z.pow_pos_nonneg 2 k). lia. Qed.

Lemma digit_char_0 : digit_char 0 = "0"%char.
Proof. reflexivity. Qed.

Lemma str_eqb_digits4 : forall a b c d, 0 <= a < 16 -> a <> 0 ->
  str_eqb [digit_char a; b; c; d] (lit "0000") = false.
Proof.
  intros a b c d Ha Ha0. cbn [lit list_ascii_of_string str_eqb].
  rewrite digit_char_zero by assumption. destruct (Z.eqb_spec a 0); [lia|reflexivity].
Qed.

Ltac hex_ok := cbn [forallb]; repeat (rewrite digit_char_hex by lia); reflexivity.

(** the text of a hextet: [toString(16)] gives it, [padStart(4, '0')] restores its four digits *)
Lemma hextet_text_facts : forall h, hextet_ok h ->
  int_to_string 16 h = hextet_text h /\
  padStart 4 "0"%char (hextet_text h) = hex4 h /\
  hextet_text h <> [] /\
  forallb is_lower_hex (hextet_text h) = true /\
  (List.length (hextet_text h) <= 4)%nat /\
  no_0000_window (hextet_text h) = true.
Proof.
  intros h Hh. destruct (hextet_digits h Hh) as [a [b [c [d [Ha [Hb [Hc [Hd ->]]]]]]]].
  unfold hextet_text. rewrite hex4_digits by assumption.
  rewrite int_to_string_nonneg by lia.
  cbn [drop_zeros]. rewrite !digit_char_zero by assumption.
  destruct (Z.eqb_spec a 0) as [->|Ha0]; [destruct (Z.eqb_spec b 0) as [->|Hb0]|].
  1: destruct (Z.eqb_spec c 0) as [->|Hc0].
  1: destruct (Z.eqb_spec d 0) as [->|Hd0].
  - (* the zero hextet *)
    vm_compute. repeat split; try discriminate; try reflexivity; lia.
  - (* one digit *)
    replace (4096 * 0 + 256 * 0 + 16 * 0 + d) with d by ring.
    rewrite radix_base by assumption. rewrite digit_char_0.
    repeat split; try discriminate; try reflexivity; try hex_ok; simpl; lia.
  - (* two digits *)
    replace (4096 * 0 + 256 * 0 + 16 * c + d) with (16 * c + d) by ring.
    assert (Hf : (1 <= Z.to_nat (Z.log2 (16 * c + d)))%nat)
      by (assert (4 <= Z.log2 (16 * c + d)) by (apply log2_at_least; lia); lia).
    destruct (Z.to_nat (Z.log2 (16 * c + d))) as [|f]; [lia|].
    rewrite radix_step, radix_base by lia. rewrite digit_char_0.
    repeat split; try discriminate; try reflexivity; try hex_ok; simpl; lia.
  - (* three digits *)
    replace (4096 * 0 + 256 * b + 16 * c + d) with (16 * (16 * b + c) + d) by ring.
    assert (Hf : (2 <= Z.to_nat (Z.log2 (16 * (16 * b + c) + d)))%nat)
      by (assert (8 <= Z.log2 (16 * (16 * b + c) + d)) by (apply log2_at_least; lia); lia).
    destruct (Z.to_nat (Z.log2 (16 * (16 * b + c) + d))) as [|[|f]]; [lia|lia|].
    rewrite radix_step by lia. rewrite radix_step, radix_base by lia. rewrite digit_char_0.
    repeat split; try discriminate; try reflexivity; try hex_ok; simpl; lia.
  - (* four digits *)
    replace (4096 * a + 256 * b + 16 * c + d) with (16 * (16 * (16 * a + b) + c) + d) by ring.
    assert (Hf : (3 <= Z.to_nat (Z.log2 (16 * (16 * (16 * a + b) + c) + d)))%nat)
      by (assert (12 <= Z.log2 (16 * (16 * (16 * a + b) + c) + d))
            by (apply log2_at_least; lia); lia).
    destruct (Z.to_nat (Z.log2 (16 * (16 * (16 * a + b) + c) + d))) as [|[|[|f]]]; [lia|lia|lia|].
    rewrite radix_step by lia. rewrite radix_step by lia. rewrite radix_step, radix_base by lia.
    repeat split; try discriminate; try reflexivity; try hex_ok; try (simpl; lia).
    unfold no_0000_window. cbn [firstn]. rewrite str_eqb_digits4 by assumption. reflexivity.
Qed.

Lemma hex4_zero : hex4 0 = lit "0000".
Proof. reflexivity. Qed.

Lemma hex4_facts : forall h, hextet_ok h ->
  forallb is_lower_hex (hex4 h) = true /\ List.length (hex4 h) = 4%nat /\
  (hex4 h = lit "0000" <-> h = 0).
Proof.
  intros h Hh. destruct (hextet_digits h Hh) as [a [b [c [d [Ha [Hb [Hc [Hd ->]]]]]]]].
  rewrite hex4_digits by assumption. split; [hex_ok|split; [reflexivity|]].
  split.
  - intros E. injection E as Ea Eb Ec Ed.
    rewrite <- digit_char_0 in Ea, Eb, Ec, Ed.
    assert (forall x, 0 <= x < 16 -> digit_char x = digit_char 0 -> x = 0) as Hinj.
    { intros x Hx Ex. pose proof (digit_char_zero x Hx) as Z0.
      rewrite Ex, digit_char_0, Ascii.eqb_refl in Z0. symmetry in Z0. apply Z.eqb_eq in Z0. exact Z0. }
    rewrite (Hinj a), (Hinj b), (Hinj c), (Hinj d) by assumption. reflexivity.
  - intros E. assert (a = 0 /\ b = 0 /\ c = 0 /\ d = 0) as [-> [-> [-> ->]]] by lia. reflexivity.
Qed.

(** [parseInt] of a string of lowercase hex digits reads all of them *)
Lemma digits_prefix_hex : forall s acc seen, forallb is_lower_hex s = true ->
  (s <> [] \/ seen = true) -> digits_prefix 16 s acc seen =
  Num (fold_left (fun acc c => acc * 16 + match digit_val 16 c with Some d => d | None => 0 end) s acc).
Proof.
  induction s as [|c s IH]; intros acc seen Hs Hne.
  - destruct Hne as [Hne | ->]; [congruence|reflexivity].
  - simpl in Hs. apply andb_prop in Hs as [Hc Hs].
    destruct (lower_hex_val c Hc) as [d [Hd [Hdr _]]].
    simpl. rewrite Hd. rewrite IH by auto. reflexivity.
Qed.

Lemma parseInt_hex : forall s, s <> [] -> forallb is_lower_hex s = true ->
  parseInt s 16 = Num (BigInteger_of_hex s).
Proof.
  intros s Hne Hs. destruct s as [|c t]; [congruence|].
  pose proof Hs as Hs'. simpl in Hs'. apply andb_prop in Hs' as [Hc Ht].
  destruct (lower_hex_other c Hc) as [Ec [Wc _]].
  char_neq c "-"%char. char_neq c "+"%char.
  unfold parseInt. cbn [drop_ws]. rewrite Wc.
  rewrite H, H0. cbn [Z.eqb Pos.eqb].
  assert (Hx : match c :: t with
               | c0 :: x :: t0 =>
                   if Ascii.eqb c0 "0"%char && (Ascii.eqb x "x"%char || Ascii.eqb x "X"%char)
                   then t0 else c :: t
               | _ => c :: t
               end = c :: t).
  { destruct t as [|x t']; [reflexivity|].
    simpl in Ht. apply andb_prop in Ht as [Hx _].
    char_neq x "x"%char. char_neq x "X"%char. rewrite H1, H2.
    rewrite Bool.andb_false_r. reflexivity. }
  rewrite Hx. rewrite digits_prefix_hex by (auto || (left; discriminate)).
  unfold BigInteger_of_hex. f_equal. ring.
Qed.

Lemma BigInteger_of_hex_app : forall s t,
  BigInteger_of_hex (s ++ t) = BigInteger_of_hex s * 16 ^ Z.of_nat (List.length t) + BigInteger_of_hex t.
Proof.
  intros s t. unfold BigInteger_of_hex. rewrite fold_left_app.
  generalize (fold_left (fun acc c => acc * 16 + match digit_val 16 c with Some d => d | None => 0 end) s 0).
  induction t as [|c t IH] using rev_ind; intros z.
  - simpl. lia.
  - rewrite !fold_left_app. cbn [fold_left]. rewrite IH. rewrite length_app. cbn [List.length].
    rewrite Nat2Z.inj_add, Z.pow_add_r by lia. change (Z.of_nat 1) with 1. rewrite Z.pow_1_r. ring.
Qed.

Lemma parseInt_hex4 : forall h, hextet_ok h -> parseInt (hex4 h) 16 = Num h.
Proof.
  intros h Hh. destruct (hex4_facts h Hh) as [Hl [Hlen _]].
  rewrite parseInt_hex; [|intros E; rewrite E in Hlen; discriminate|exact Hl].
  f_equal. destruct (hextet_digits h Hh) as [a [b [c [d [Ha [Hb [Hc [Hd ->]]]]]]]].
  rewrite hex4_digits by assumption. unfold BigInteger_of_hex. cbn [fold_left].
  rewrite !digit_char_val by assumption. ring.
Qed.

End RadixFacts.
Module DecFacts.
Import Js IP Spec Facts HexFacts RadixFacts.

Lemma radix_app : forall f n acc,
  radix_digits f 16 n acc = radix_digits f 16 n [] ++ acc.
Proof.
  induction f as [|f IH]; intros n acc; [reflexivity|].
  cbn [radix_digits]. destruct (n <? 16); [reflexivity|].
  rewrite IH, (IH (n / 16) [digit_char (n mod 16)]), <- app_assoc. reflexivity.
Qed.

(** the digits of [n.toString(16)] with enough fuel *)
Lemma radix_spec : forall f n, 0 <= n < 16 ^ Z.of_nat (S f) ->
  let D := radix_digits (S f) 16 n [] in
  D <> [] /\ forallb is_lower_hex D = true /\ BigInteger_of_hex D = n /\
  n < 16 ^ Z.of_nat (List.length D) /\
  (List.length D = 1%nat \/ 16 ^ Z.of_nat (List.length D - 1) <= n) /\
  (1 <= n -> exists d t, D = digit_char d :: t /\ 1 <= d < 16).
Proof.
  induction f as [|f IH]; intros n Hn D.
  - assert (n < 16) by (rewrite Nat2Z.inj_succ, Z.pow_succ_r, Z.pow_0_r in Hn; lia).
    subst D. rewrite radix_base by lia.
    repeat split; try discriminate.
    + cbn [forallb]. rewrite digit_char_hex by lia. reflexivity.
    + unfold BigInteger_of_hex. cbn [fold_left]. rewrite digit_char_val by lia. ring.
    + cbn [List.length]. lia.
    + left. reflexivity.
    + intros H1. exists n, []. split; [reflexivity|lia].
  - subst D. destruct (Z.lt_ge_cases n 16) as [Hs|Hs].
    + rewrite radix_base by lia. repeat split; try discriminate.
      * cbn [forallb]. rewrite digit_char_hex by lia. reflexivity.
      * unfold BigInteger_of_hex. cbn [fold_left]. rewrite digit_char_val by lia. ring.
      * cbn [List.length]. lia.
      * left. reflexivity.
      * intros H1. exists n, []. split; [reflexivity|lia].
    + pose proof (Z.div_mod n 16 ltac:(lia)) as Hdm. pose proof (Z.mod_pos_bound n 16 ltac:(lia)).
      assert (Hq : 1 <= n / 16) by (apply Z.div_le_lower_bound; lia).
      assert (Hq' : n / 16 < 16 ^ Z.of_nat (S f)).
      { apply Z.div_lt_upper_bound; [lia|].
        rewrite (Nat2Z.inj_succ (S f)), Z.pow_succ_r in Hn by lia. lia. }
      assert (E : radix_digits (S (S f)) 16 n [] =
                  radix_digits (S f) 16 (n / 16) [] ++ [digit_char (n mod 16)]).
      { rewrite Hdm at 1. rewrite radix_step by lia. apply radix_app. }
      rewrite E.
      destruct (IH (n / 16) ltac:(lia)) as [Hne [Hlo [Hv [Hlt [Hge Hhd]]]]].
      set (D' := radix_digits (S f) 16 (n / 16) []) in *.
      rewrite length_app. cbn [List.length].
      repeat split.
      * destruct D'; discriminate.
      * rewrite forallb_app, Hlo. cbn [forallb]. rewrite digit_char_hex by lia. reflexivity.
      * rewrite BigInteger_of_hex_app. cbn [List.length]. rewrite Hv.
        unfold BigInteger_of_hex at 1. cbn [fold_left]. rewrite digit_char_val by lia. lia.
      * rewrite Nat2Z.inj_add, Z.pow_add_r by lia. cbn [Z.of_nat Pos.of_succ_nat]. lia.
      * right. replace (List.length D' + 1 - 1)%nat with (List.length D') by lia.
        destruct Hge as [E1|E1].
        -- rewrite E1. cbn [Z.of_nat Pos.of_succ_nat]. lia.
        -- replace (List.length D') with (S (List.length D' - 1)) by (destruct D'; [congruence|simpl; lia]).
           rewrite Nat2Z.inj_succ, Z.pow_succ_r by lia. lia.
      * intros _. destruct (Hhd Hq) as [d [t [Et Hd]]]. rewrite Et.
        exists d, (t ++ [digit_char (n mod 16)]). split; [reflexivity|exact Hd].
Qed.

Lemma int_to_string_hex : forall n, 0 <= n ->
  let D := int_to_string 16 n in
  D <> [] /\ forallb is_lower_hex D = true /\ BigInteger_of_hex D = n /\
  n < 16 ^ Z.of_nat (List.length D) /\
  (List.length D = 1%nat \/ 16 ^ Z.of_nat (List.length D - 1) <= n) /\
  (1 <= n -> exists d t, D = digit_char d :: t /\ 1 <= d < 16).
Proof.
  intros n Hn D. subst D. rewrite int_to_string_nonneg by exact Hn.
  apply radix_spec. split; [exact Hn|].
  destruct (Z.eq_dec n 0) as [->|Hn0]; [apply Z.pow_pos_nonneg; lia|].
  destruct (Z.log2_spec n ltac:(lia)) as [_ Hlt].
  pose proof (Z.log2_nonneg n).
  rewrite Nat2Z.inj_succ, Z2Nat.id by lia.
  replace 16 with (2 ^ 4) by reflexivity. rewrite <- Z.pow_mul_r by lia.
  eapply Z.lt_le_trans; [exact Hlt|]. apply Z.pow_le_mono_r; lia.
Qed.

Lemma int_to_string_length_le : forall n k, 0 <= n -> n < 16 ^ Z.of_nat k -> (1 <= k)%nat ->
  (List.length (int_to_string 16 n) <= k)%nat.
Proof.
  intros n k Hn Hk Hk1. destruct (int_to_string_hex n Hn) as [Hne [_ [_ [_ [Hge _]]]]].
  destruct Hge as [E|E]; [lia|].
  assert (Z.of_nat (List.length (int_to_string 16 n) - 1) < Z.of_nat k).
  { apply (Z.pow_lt_mono_r_iff 16); lia. }
  destruct (int_to_string 16 n); [congruence|]. simpl in *. lia.
Qed.

Lemma int_to_string_length_gt : forall n k, 16 ^ Z.of_nat k <= n ->
  (k < List.length (int_to_string 16 n))%nat.
Proof.
  intros n k Hk. assert (0 <= n) by (pose proof (Z.pow_nonneg 16 (Z.of_nat k)); lia).
  destruct (int_to_string_hex n H) as [_ [_ [_ [Hlt _]]]].
  assert (Z.of_nat k < Z.of_nat (List.length (int_to_string 16 n))).
  { apply (Z.pow_lt_mono_r_iff 16); lia. }
  lia.
Qed.

Lemma BigInteger_of_hex_zeros : forall k, BigInteger_of_hex (repeat "0"%char k) = 0.
Proof.
  unfold BigInteger_of_hex. induction k as [|k IH]; [reflexivity|].
  cbn [repeat fold_left]. exact IH.
Qed.

Lemma padStart_le : forall n c s, (List.length s <= n)%nat ->
  padStart n c s = repeat c (n - List.length s) ++ s.
Proof.
  intros n c s H. unfold padStart. destruct (Nat.leb_spec n (List.length s)); [|reflexivity].
  replace (n - List.length s)%nat with 0%nat by lia. reflexivity.
Qed.

Lemma padStart_ge : forall n c s, (n <= List.length s)%nat -> padStart n c s = s.
Proof.
  intros n c s H. unfold padStart. destruct (Nat.leb_spec n (List.length s)); [reflexivity|lia].
Qed.

Lemma from_hex_app : forall n a b, List.length a = (2 * n)%nat ->
  forallb is_lower_hex a = true -> Buf.from_hex (a ++ b) = Buf.from_hex a ++ Buf.from_hex b.
Proof.
  induction n as [|n IH]; intros a b Hlen Ha.
  - destruct a; [reflexivity|simpl in Hlen; lia].
  - destruct a as [|x [|y t]]; simpl in Hlen; try lia.
    simpl in Ha. apply andb_prop in Ha as [Hx Ha]. apply andb_prop in Ha as [Hy Ht].
    destruct (lower_hex_val x Hx) as [dx [Ex _]]. destruct (lower_hex_val y Hy) as [dy [Ey _]].
    cbn [app]. rewrite !from_hex_cons2. unfold Buf.unhex. rewrite Ex, Ey.
    rewrite IH by (lia || exact Ht). reflexivity.
Qed.

Lemma equals_spec : forall a b, Buf.equals a b = true <-> a = b.
Proof.
  induction a as [|x a IH]; destruct b as [|y b]; simpl; split; intros H;
    try congruence; try reflexivity.
  - apply andb_prop in H as [H1 H2]. apply Z.eqb_eq in H1. apply IH in H2. congruence.
  - injection H as -> ->. rewrite Z.eqb_refl. simpl. apply IH. reflexivity.
Qed.

Lemma copy_prefix : forall src tgt, (List.length src <= List.length tgt)%nat ->
  Buf.copy src tgt 0 0 (List.length src) = src ++ skipn (List.length src) tgt.
Proof.
  intros src tgt H. unfold Buf.copy. rewrite !Nat.sub_0_r.
  rewrite Nat.min_id, Nat.min_l by exact H. cbn [firstn skipn app Nat.add].
  rewrite firstn_all. reflexivity.
Qed.

Lemma copy_length : forall src tgt ts ss se, (ts <= List.length tgt)%nat ->
  List.length (Buf.copy src tgt ts ss se) = List.length tgt.
Proof.
  intros src tgt ts ss se H. unfold Buf.copy. rewrite !length_app, !length_firstn, length_skipn, length_skipn.
  lia.
Qed.

Lemma mappedV4Prefix_eq : mappedV4Prefix = repeat 0 10 ++ [255; 255].
Proof. reflexivity. Qed.

Lemma mappedV4Prefix_length : List.length mappedV4Prefix = 12%nat.
Proof. reflexivity. Qed.

Lemma to_hex_zeros : forall k, Buf.to_hex (repeat 0 k) = repeat "0"%char (2 * k).
Proof.
  induction k as [|k IH]; [reflexivity|].
  replace (2 * S k)%nat with (S (S (2 * k))) by lia.
  cbn [repeat]. rewrite to_hex_cons, IH. reflexivity.
Qed.

Lemma from_hex_zeros : forall k, Buf.from_hex (repeat "0"%char (2 * k)) = repeat 0 k.
Proof.
  induction k as [|k IH]; [reflexivity|].
  replace (2 * S k)%nat with (S (S (2 * k))) by lia.
  cbn [repeat]. rewrite from_hex_cons2, IH. reflexivity.
Qed.

Lemma zeros_lower : forall k, forallb is_lower_hex (repeat "0"%char k) = true.
Proof. induction k as [|k IH]; [reflexivity|]. cbn [repeat forallb]. rewrite IH. reflexivity. Qed.

(** [fromDecimal] of a value that fits in 128 bits *)
Lemma fromDecimal_small : forall n fv, 0 <= n < 2 ^ 128 ->
  let bytes := Buf.from_hex (padStart 32 "0"%char (int_to_string 16 n)) in
  List.length bytes = 16%nat /\ BigInteger_of_hex (Buf.to_hex bytes) = n /\
  (n < 2 ^ 32 -> firstn 12 bytes = repeat 0 12) /\
  fromDecimal n fv =
    if negb fv && Buf.equals (firstn 12 bytes) (Buf.alloc 12)
    then Ok {| m_bytes := mappedV4Prefix ++ skipn 12 bytes; m_isV4 := true; m_zone := None |}
    else Ok {| m_bytes := bytes; m_isV4 := false; m_zone := None |}.
Proof.
  intros n fv Hn bytes.
  destruct (int_to_string_hex n ltac:(lia)) as [Hne [Hlo [Hv _]]].
  set (D := int_to_string 16 n) in *.
  assert (HD : (List.length D <= 32)%nat)
    by (apply int_to_string_length_le; [lia|exact (proj2 Hn)|lia]).
  assert (Hhex : padStart 32 "0"%char D = repeat "0"%char (32 - List.length D) ++ D)
    by (apply padStart_le; exact HD).
  assert (Hlen : List.length (padStart 32 "0"%char D) = (2 * 16)%nat)
    by (rewrite Hhex, length_app, repeat_length; lia).
  assert (Hlow : forallb is_lower_hex (padStart 32 "0"%char D) = true)
    by (rewrite Hhex, forallb_app, zeros_lower, Hlo; reflexivity).
  assert (Hb : List.length bytes = 16%nat) by (apply from_hex_length; assumption).
  assert (Ht : Buf.to_hex bytes = padStart 32 "0"%char D)
    by (apply (to_hex_from_hex 16); assumption).
  split; [exact Hb|]. split; [|split].
  - rewrite Ht, Hhex, BigInteger_of_hex_app, BigInteger_of_hex_zeros. lia.
  - intros Hsmall.
    assert (H8 : (List.length D <= 8)%nat)
      by (apply int_to_string_length_le; [lia|exact Hsmall|lia]).
    subst bytes. rewrite Hhex.
    replace (32 - List.length D)%nat with (2 * 12 + (8 - List.length D))%nat by lia.
    rewrite repeat_app, <- app_assoc, (from_hex_app 12) by (apply repeat_length || apply zeros_lower).
    rewrite from_hex_zeros. rewrite firstn_app, repeat_length, Nat.sub_diag, firstn_O, app_nil_r.
    apply firstn_all2. rewrite repeat_length. lia.
  - unfold fromDecimal. fold D. fold bytes.
    rewrite copy_prefix by (rewrite mappedV4Prefix_length; lia).
    rewrite mappedV4Prefix_length. reflexivity.
Qed.

(** [fromDecimal] of a value that does not fit in 128 bits *)
Lemma fromDecimal_large : forall n fv, 2 ^ 128 <= n ->
  fromDecimal n fv =
  Ok {| m_bytes := Buf.from_hex (int_to_string 16 n); m_isV4 := false; m_zone := None |}.
Proof.
  intros n fv Hn.
  assert (HL : (32 < List.length (int_to_string 16 n))%nat)
    by (apply int_to_string_length_gt; exact Hn).
  destruct (int_to_string_hex n ltac:(lia)) as [_ [Hlo [_ [_ [_ Hhd]]]]].
  destruct (Hhd ltac:(lia)) as [d [t [Et Hd]]].
  unfold fromDecimal. rewrite padStart_ge by lia.
  rewrite Et in *. destruct t as [|y t]; [simpl in HL; lia|].
  cbn [forallb] in Hlo. apply andb_prop in Hlo as [_ Hlo]. apply andb_prop in Hlo as [Hy _].
  destruct (lower_hex_val y Hy) as [e [Ey [He _]]].
  rewrite from_hex_cons2. unfold Buf.unhex. rewrite digit_char_val, Ey by lia.
  replace (negb fv && Buf.equals (firstn 12 ((d * 16 + e) :: Buf.from_hex t)) (Buf.alloc 12))
    with false; [reflexivity|].
  cbn [firstn Buf.alloc repeat Buf.equals].
  destruct (Z.eqb_spec (d * 16 + e) 0); [lia|]. rewrite andb_false_r. reflexivity.
Qed.

End DecFacts.

Module LoopFacts.
Import Js IP Spec Facts HexFacts RadixFacts DecFacts.

Lemma str_eqb_sym : forall a b, str_eqb a b = str_eqb b a.
Proof.
  induction a as [|x a IH]; destruct b as [|y b]; try reflexivity.
  simpl. rewrite IH, Ascii.eqb_sym. reflexivity.
Qed.

Lemma starts_with_app : forall a b c d, List.length a = List.length c ->
  starts_with (a ++ b) (c ++ d) = str_eqb a c && starts_with b d.
Proof.
  induction a as [|x a IH]; intros b c d H; destruct c as [|y c]; simpl in *; try lia;
    [reflexivity|].
  rewrite IH by lia. apply andb_assoc.
Qed.

Lemma starts_with_short : forall p s, (List.length s < List.length p)%nat -> starts_with p s = false.
Proof.
  induction p as [|x p IH]; intros s H; destruct s as [|y s]; simpl in *; try lia;
    try reflexivity.
  rewrite IH by lia. apply andb_false_r.
Qed.

Lemma index_of_short : forall p s, (List.length s < List.length p)%nat -> index_of p s = None.
Proof.
  intros p. induction s as [|y s IH]; intros H; simpl.
  - rewrite starts_with_short by (simpl in *; lia). reflexivity.
  - rewrite starts_with_short by (simpl in *; lia). rewrite IH by (simpl in H; lia). reflexivity.
Qed.

Lemma index_of_cons : forall p c s,
  index_of p (c :: s) = if starts_with p (c :: s) then Some 0%nat else option_map S (index_of p s).
Proof. reflexivity. Qed.

(** a pattern [0000:...] cannot start inside a block of four characters followed by [:] *)
Lemma index_of_block : forall p a b c d rest,
  index_of (lit "0000:" ++ p) (a :: b :: c :: d :: ":"%char :: rest) =
  if starts_with (lit "0000:" ++ p) (a :: b :: c :: d :: ":"%char :: rest) then Some 0%nat
  else option_map (Nat.add 5) (index_of (lit "0000:" ++ p) rest).
Proof.
  intros p a b c d rest. rewrite !index_of_cons.
  destruct (starts_with _ (a :: _)); [reflexivity|].
  assert (E1 : starts_with (lit "0000:" ++ p) (b :: c :: d :: ":"%char :: rest) = false)
    by (cbn [lit list_ascii_of_string app starts_with]; destruct (Ascii.eqb "0" b), (Ascii.eqb "0" c), (Ascii.eqb "0" d); reflexivity).
  assert (E2 : starts_with (lit "0000:" ++ p) (c :: d :: ":"%char :: rest) = false)
    by (cbn [lit list_ascii_of_string app starts_with]; destruct (Ascii.eqb "0" c), (Ascii.eqb "0" d); reflexivity).
  assert (E3 : starts_with (lit "0000:" ++ p) (d :: ":"%char :: rest) = false)
    by (cbn [lit list_ascii_of_string app starts_with]; destruct (Ascii.eqb "0" d); reflexivity).
  assert (E4 : starts_with (lit "0000:" ++ p) (":"%char :: rest) = false) by reflexivity.
  rewrite E1, E2, E3, E4.
  destruct (index_of _ rest); reflexivity.
Qed.

Lemma zeros_join : forall k,
  join (lit ":") (repeat (lit "0000") (S (S k))) = lit "0000:" ++ join (lit ":") (repeat (lit "0000") (S k)).
Proof. intros k. cbn [repeat]. rewrite join_cons2. reflexivity. Qed.

Lemma zeros_join_length : forall k,
  List.length (join (lit ":") (repeat (lit "0000") (S k))) = (5 * S k - 1)%nat.
Proof.
  intros k. rewrite (join_length _ _ 4); [rewrite repeat_length; simpl; lia|discriminate|].
  apply Forall_forall. intros x Hx. apply repeat_spec in Hx. subst. reflexivity.
Qed.

Lemma first_run_cons : forall l h t,
  first_run l (h :: t) = if zero_run_b (h :: t) 0 l then Some 0%nat else option_map S (first_run l t).
Proof. reflexivity. Qed.

Lemma zero_run_b_cons : forall h t j l, zero_run_b (h :: t) (S j) l = zero_run_b t j l.
Proof. reflexivity. Qed.

Lemma zero_run_b_head : forall h t l,
  zero_run_b (h :: t) 0 (S l) = (0 =? h) && zero_run_b t 0 l.
Proof.
  intros h t l. unfold zero_run_b. cbn [skipn firstn forallb List.length Nat.add Nat.leb].
  destruct (0 =? h); [reflexivity|]. rewrite andb_false_r. reflexivity.
Qed.

Lemma hex4_zero_eqb : forall h, hextet_ok h -> str_eqb (hex4 h) (lit "0000") = (0 =? h).
Proof.
  intros h Hh. destruct (hex4_facts h Hh) as [_ [_ E]].
  destruct (str_eqb (hex4 h) (lit "0000")) eqn:S1.
  - apply str_eqb_eq, E in S1. subst. reflexivity.
  - destruct (Z.eqb_spec 0 h) as [<-|]; [|reflexivity].
    rewrite hex4_zero in S1. discriminate.
Qed.

Lemma starts_zeros : forall k hs, Forall hextet_ok hs ->
  starts_with (join (lit ":") (repeat (lit "0000") (S k))) (join (lit ":") (map hex4 hs)) =
  zero_run_b hs 0 (S k).
Proof.
  induction k as [|k IH]; intros hs Hok.
  - destruct hs as [|h [|h' t]]; [reflexivity| |].
    + inversion Hok; subst. cbn [repeat map join]. rewrite <- (app_nil_r (lit "0000")).
      rewrite <- (app_nil_r (hex4 h)) at 1.
      rewrite starts_with_app by (apply (proj1 (proj2 (hex4_facts h ltac:(assumption))))).
      rewrite str_eqb_sym, hex4_zero_eqb by assumption. unfold zero_run_b. cbn.
      destruct (0 =? h); reflexivity.
    + inversion Hok; subst. cbn [repeat map]. rewrite join_cons2.
      change (join (lit ":") [lit "0000"]) with (lit "0000" ++ []).
      rewrite starts_with_app by (symmetry; apply (proj1 (proj2 (hex4_facts h ltac:(assumption))))).
      rewrite str_eqb_sym, hex4_zero_eqb by assumption. unfold zero_run_b. cbn.
      destruct (0 =? h); reflexivity.
  - destruct hs as [|h [|h' t]].
    + reflexivity.
    + inversion Hok; subst. apply starts_with_short.
      rewrite zeros_join_length. cbn [map join]. rewrite (proj1 (proj2 (hex4_facts h ltac:(assumption)))). lia.
    + inversion Hok; subst. rewrite zeros_join. cbn [map]. rewrite join_cons2.
      change (lit "0000:") with (lit "0000" ++ lit ":").
      rewrite <- !app_assoc.
      rewrite starts_with_app by (symmetry; apply (proj1 (proj2 (hex4_facts h ltac:(assumption))))).
      rewrite str_eqb_sym, hex4_zero_eqb by assumption. cbn [lit list_ascii_of_string app starts_with].
      rewrite Ascii.eqb_refl. cbn [andb].
      pose proof (IH (h' :: t) ltac:(assumption)) as IH'.
      cbn [lit list_ascii_of_string map] in IH'. rewrite IH', (zero_run_b_head h (h' :: t) (S k)). reflexivity.
Qed.

Lemma hex4_shape : forall h, hextet_ok h -> exists a b c d, hex4 h = [a; b; c; d].
Proof.
  intros h Hh. destruct (hextet_digits h Hh) as [a [b [c [d [Ha [Hb [Hc [Hd ->]]]]]]]].
  rewrite hex4_digits by assumption. eauto.
Qed.

(** [indexOf] of [k] zero hextets (k >= 2) in the hextets text: five times the leftmost run *)
Lemma index_zeros : forall k hs, Forall hextet_ok hs -> hs <> [] ->
  index_of (join (lit ":") (repeat (lit "0000") (S (S k)))) (join (lit ":") (map hex4 hs)) =
  option_map (Nat.mul 5) (first_run (S (S k)) hs).
Proof.
  intros k. induction hs as [|h hs IH]; intros Hok Hne; [congruence|].
  inversion Hok as [|? ? Hh Hhs]; subst.
  destruct hs as [|h' t].
  - rewrite index_of_short.
    + reflexivity.
    + rewrite zeros_join_length. cbn [map join].
      rewrite (proj1 (proj2 (hex4_facts h Hh))). lia.
  - cbn [map]. rewrite join_cons2.
    destruct (hex4_shape h Hh) as [a [b [c [d Eh]]]].
    pose proof (starts_zeros (S k) (h :: h' :: t) Hok) as Hs.
    cbn [map] in Hs. rewrite join_cons2 in Hs.
    pose proof (index_of_block (join (lit ":") (repeat (lit "0000") (S k))) a b c d
                  (join (lit ":") (map hex4 (h' :: t)))) as HB.
    rewrite Eh in *. rewrite zeros_join in *. cbn [app lit list_ascii_of_string map] in *.
    rewrite HB, Hs.
    pose proof (IH Hhs ltac:(discriminate)) as IH'.
    rewrite IH'.
    rewrite (first_run_cons _ h (h' :: t)).
    destruct (zero_run_b (h :: h' :: t) 0 (S (S k))); [reflexivity|].
    destruct (first_run (S (S k)) (h' :: t)); cbn [option_map]; [f_equal; lia|reflexivity].
Qed.

Lemma removelast_repeat : forall (x : str) k, removelast (repeat x (S k)) = repeat x k.
Proof.
  intros x. induction k as [|k IH]; [reflexivity|].
  cbn [repeat removelast] in *. rewrite IH. reflexivity.
Qed.

(** the [while] loop of [compressV6] over the hextets text *)
Lemma loop_spec : forall f k hs, Forall hextet_ok hs -> hs <> [] -> (k <= S f)%nat ->
  compress_loop f (repeat (lit "0000") k) (join (lit ":") (map hex4 hs)) =
  match longest_run_from k hs with
  | None => join (lit ":") (map hex4 hs)
  | Some (i, l) => replace_first (join (lit ":") (repeat (lit "0000") l)) [] (join (lit ":") (map hex4 hs))
  end.
Proof.
  induction f as [|f IH]; intros k hs Hok Hne Hk.
  - destruct k as [|[|k]]; [reflexivity|reflexivity|lia].
  - cbn [compress_loop]. rewrite repeat_length.
    destruct k as [|[|k]]; [reflexivity|reflexivity|].
    cbn [Nat.ltb Nat.leb]. rewrite index_zeros by assumption.
    cbn [longest_run_from]. destruct (first_run (S (S k)) hs); [reflexivity|].
    cbn [option_map]. rewrite removelast_repeat. apply IH; [assumption|assumption|lia].
Qed.

Lemma replace_mid : forall X pat Y, index_of pat (X ++ pat ++ Y) = Some (List.length X) ->
  replace_first pat [] (X ++ pat ++ Y) = X ++ Y.
Proof.
  intros X pat Y H. unfold replace_first. rewrite H.
  rewrite firstn_app, firstn_all, Nat.sub_diag, firstn_O, app_nil_r. cbn [app].
  rewrite app_assoc, skipn_app, skipn_all2 by (rewrite length_app; lia).
  rewrite length_app. replace (List.length X + List.length pat - (List.length X + List.length pat))%nat
    with 0%nat by lia. reflexivity.
Qed.

Lemma forallb_zero : forall xs, forallb (Z.eqb 0) xs = true <-> xs = repeat 0 (List.length xs).
Proof.
  induction xs as [|x xs IH]; [simpl; tauto|]. cbn [forallb List.length repeat].
  rewrite andb_true_iff, IH. split.
  - intros [H1 H2]. apply Z.eqb_eq in H1. subst. rewrite <- H2. reflexivity.
  - intros H. injection H as H1 H2. subst. split; [reflexivity|exact H2].
Qed.

Lemma zero_run_b_spec : forall hs i l, (1 <= l)%nat ->
  zero_run_b hs i l = true <-> zero_run hs i l.
Proof.
  intros hs i l Hl. unfold zero_run_b, zero_run. rewrite andb_true_iff, forallb_zero, Nat.leb_le.
  rewrite length_firstn, length_skipn. split.
  - intros [H1 H2]. rewrite H2. f_equal. lia.
  - intros H. split.
    + destruct l as [|l]; [lia|].
      assert (E : List.length (firstn (S l) (skipn i hs)) = S l) by (rewrite H; apply repeat_length).
      rewrite length_firstn, length_skipn in E. lia.
    + rewrite H at 1. f_equal. pose proof (f_equal (@List.length Z) H) as E.
      rewrite length_firstn, length_skipn, repeat_length in E. exact (eq_sym E).
Qed.

Lemma first_run_some : forall l hs i, first_run l hs = Some i ->
  zero_run_b hs i l = true /\ forall j, (j < i)%nat -> zero_run_b hs j l = false.
Proof.
  intros l. induction hs as [|h t IH]; intros i H.
  - cbn [first_run] in H. destruct (zero_run_b [] 0 l) eqn:E; [|discriminate].
    injection H as <-. split; [exact E|intros; lia].
  - rewrite first_run_cons in H. destruct (zero_run_b (h :: t) 0 l) eqn:E.
    + injection H as <-. split; [exact E|intros; lia].
    + destruct (first_run l t) as [i'|] eqn:E'; [|discriminate]. injection H as <-.
      destruct (IH i' eq_refl) as [H1 H2]. split; [exact H1|].
      intros [|j] Hj; [exact E|]. rewrite zero_run_b_cons. apply H2. lia.
Qed.

Lemma first_run_none : forall l hs, first_run l hs = None -> forall j, zero_run_b hs j l = false.
Proof.
  intros l. induction hs as [|h t IH]; intros H j.
  - cbn [first_run] in H. destruct (zero_run_b [] 0 l) eqn:E; [discriminate|].
    destruct j; [exact E|reflexivity].
  - rewrite first_run_cons in H. destruct (zero_run_b (h :: t) 0 l) eqn:E; [discriminate|].
    destruct (first_run l t) eqn:E'; [discriminate|].
    destruct j; [exact E|]. rewrite zero_run_b_cons. apply IH. reflexivity.
Qed.

Lemma zero_run_split : forall hs i l, zero_run hs i l -> (1 <= l)%nat ->
  (i + l <= List.length hs)%nat /\ hs = firstn i hs ++ repeat 0 l ++ skipn (i + l) hs.
Proof.
  intros hs i l H Hl. split.
  - apply zero_run_b_spec in H; [|exact Hl]. unfold zero_run_b in H. apply andb_prop in H as [H _].
    apply Nat.leb_le in H. exact H.
  - unfold zero_run in H. rewrite <- H. rewrite <- (firstn_skipn i hs) at 1. f_equal.
    rewrite <- (firstn_skipn l (skipn i hs)) at 1. f_equal.
    rewrite skipn_skipn. f_equal. lia.
Qed.

Lemma hex4_lengths : forall hs, Forall hextet_ok hs ->
  Forall (fun x => List.length x = 4%nat) (map hex4 hs).
Proof.
  intros hs H. apply Forall_map. eapply Forall_impl; [|exact H].
  intros h Hh. exact (proj1 (proj2 (hex4_facts h Hh))).
Qed.

Lemma join_hex4_length : forall hs, Forall hextet_ok hs -> hs <> [] ->
  List.length (join (lit ":") (map hex4 hs)) = (5 * List.length hs - 1)%nat.
Proof.
  intros hs H Hne. rewrite (join_length _ _ 4).
  - rewrite length_map. simpl. lia.
  - destruct hs; [congruence|discriminate].
  - apply hex4_lengths. exact H.
Qed.

Lemma join_nil_cons : forall sep y ys, join sep ([] :: y :: ys) = sep ++ join sep (y :: ys).
Proof. reflexivity. Qed.

(** the first [indexOf] match of the run is replaced by the empty string *)
Lemma replace_run : forall hs i l, Forall hextet_ok hs -> zero_run hs i l -> (2 <= l)%nat ->
  index_of (join (lit ":") (repeat (lit "0000") l)) (join (lit ":") (map hex4 hs)) = Some (5 * i)%nat ->
  replace_first (join (lit ":") (repeat (lit "0000") l)) [] (join (lit ":") (map hex4 hs)) =
  join (lit ":") (map hex4 (firstn i hs) ++ [[]] ++ map hex4 (skipn (i + l) hs)).
Proof.
  intros hs i l Hok Hz Hl Hidx.
  destruct (zero_run_split hs i l Hz ltac:(lia)) as [Hle Hsplit].
  assert (Htext : map hex4 hs =
                  map hex4 (firstn i hs) ++ repeat (lit "0000") l ++ map hex4 (skipn (i + l) hs)).
  { rewrite Hsplit at 1. rewrite !map_app, map_repeat, hex4_zero. reflexivity. }
  assert (HokA : Forall hextet_ok (firstn i hs))
    by (rewrite Hsplit in Hok; apply Forall_app in Hok; tauto).
  assert (HlenA : List.length (firstn i hs) = i) by (rewrite length_firstn; lia).
  rewrite Htext in *.
  set (M := repeat (lit "0000") l) in *.
  assert (HM : M <> []) by (subst M; destruct l as [|l]; [lia|discriminate]).
  set (jM := join (lit ":") M) in *.
  destruct (map hex4 (skipn (i + l) hs)) as [|b B] eqn:EB.
  - rewrite app_nil_r in *. destruct i as [|i].
    + cbn [firstn map app] in *.
      pose proof (replace_mid [] jM []) as R.
      cbn [app] in R. rewrite app_nil_r in R. change (join (lit ":") M) with jM; change (join (lit ":") M) with jM in Hidx. rewrite R; [reflexivity|].
      rewrite Hidx. reflexivity.
    + set (A := map hex4 (firstn (S i) hs)) in *.
      assert (HA : A <> [])
        by (intros E; apply (f_equal (@List.length str)) in E; subst A; rewrite length_map, HlenA in E; discriminate).
      assert (ET : join (lit ":") (A ++ M) = (join (lit ":") A ++ lit ":") ++ jM ++ [])
        by (rewrite join_app, app_nil_r, <- app_assoc by assumption; reflexivity).
      rewrite ET in *. rewrite replace_mid.
      * rewrite join_app by (assumption || discriminate). rewrite app_nil_r. reflexivity.
      * rewrite Hidx. f_equal. subst A.
        rewrite length_app, join_hex4_length by (assumption || (intros E; rewrite E in HlenA; discriminate)).
        rewrite length_firstn. cbn [List.length lit list_ascii_of_string]. lia.
  - destruct i as [|i].
    + cbn [firstn map app] in *.
      assert (ET : join (lit ":") (M ++ b :: B) = [] ++ jM ++ (lit ":" ++ join (lit ":") (b :: B)))
        by (rewrite join_app by (assumption || discriminate); reflexivity).
      rewrite ET in *. rewrite replace_mid by exact Hidx. reflexivity.
    + set (A := map hex4 (firstn (S i) hs)) in *.
      assert (HA : A <> [])
        by (intros E; apply (f_equal (@List.length str)) in E; subst A; rewrite length_map, HlenA in E; discriminate).
      assert (ET : join (lit ":") (A ++ M ++ b :: B) =
                   (join (lit ":") A ++ lit ":") ++ jM ++ (lit ":" ++ join (lit ":") (b :: B)))
        by (rewrite !join_app by (assumption || discriminate ||
              (intros E; apply app_eq_nil in E; destruct E; congruence));
            rewrite <- app_assoc; reflexivity).
      rewrite ET in *. rewrite replace_mid.
      * rewrite join_app by (assumption || discriminate). cbn [app]. rewrite join_nil_cons.
        rewrite <- app_assoc. reflexivity.
      * rewrite Hidx. f_equal. subst A.
        rewrite length_app, join_hex4_length by (assumption || (intros E; rewrite E in HlenA; discriminate)).
        rewrite length_firstn. cbn [List.length lit list_ascii_of_string]. lia.
Qed.

Lemma longest_run_some : forall k hs i l, longest_run_from k hs = Some (i, l) ->
  (2 <= l <= k)%nat /\ first_run l hs = Some i /\
  forall l', (l < l' <= k)%nat -> first_run l' hs = None.
Proof.
  induction k as [|k IH]; intros hs i l H; [discriminate|].
  destruct k as [|k]; [discriminate|].
  cbn [longest_run_from] in H. destruct (first_run (S (S k)) hs) as [i'|] eqn:E.
  - injection H as <- <-. split; [lia|]. split; [exact E|]. intros; lia.
  - destruct (IH hs i l H) as [H1 [H2 H3]]. split; [lia|]. split; [exact H2|].
    intros l' Hl'. destruct (Nat.eq_dec l' (S (S k))) as [->|Hne]; [exact E|]. apply H3. lia.
Qed.

Lemma longest_run_none : forall k hs, longest_run_from k hs = None ->
  forall l', (2 <= l' <= k)%nat -> first_run l' hs = None.
Proof.
  induction k as [|k IH]; intros hs H l' Hl'; [lia|].
  destruct k as [|k]; [lia|].
  cbn [longest_run_from] in H. destruct (first_run (S (S k)) hs) as [i'|] eqn:E; [discriminate|].
  destruct (Nat.eq_dec l' (S (S k))) as [->|Hne]; [exact E|]. apply IH; [exact H|lia].
Qed.

(** §4.1 read as a property: the run found is a longest zero run, and the leftmost of its length *)
Lemma longest_zero_run_spec : forall hs, List.length hs = 8%nat ->
  (forall i l, longest_zero_run hs = Some (i, l) ->
     (2 <= l)%nat /\ zero_run hs i l /\
     (forall j l', zero_run hs j l' -> (l' <= l)%nat) /\
     (forall j, zero_run hs j l -> (i <= j)%nat)) /\
  (longest_zero_run hs = None -> forall j l', zero_run hs j l' -> (l' < 2)%nat).
Proof.
  intros hs Hlen. split.
  - intros i l H. destruct (longest_run_some 8 hs i l H) as [Hl [Hf Hmax]].
    destruct (first_run_some l hs i Hf) as [Hz Hleft].
    split; [lia|]. split; [apply zero_run_b_spec; [lia|exact Hz]|]. split.
    + intros j l' Hz'. destruct (Nat.le_gt_cases l' l) as [|Hgt]; [assumption|exfalso].
      destruct (zero_run_split hs j l' Hz' ltac:(lia)) as [Hle _].
      pose proof (first_run_none l' hs (Hmax l' ltac:(lia)) j) as F.
      apply zero_run_b_spec in Hz'; [congruence|lia].
    + intros j Hz'. destruct (Nat.le_gt_cases i j) as [|Hgt]; [assumption|exfalso].
      apply zero_run_b_spec in Hz'; [|lia]. rewrite Hleft in Hz' by exact Hgt. discriminate.
  - intros H j l' Hz'. destruct (Nat.lt_ge_cases l' 2) as [|Hge]; [assumption|exfalso].
    destruct (zero_run_split hs j l' Hz' ltac:(lia)) as [Hle _].
    pose proof (first_run_none l' hs (longest_run_none 8 hs H l' ltac:(lia)) j) as F.
    apply zero_run_b_spec in Hz'; [congruence|lia].
Qed.

(** the loop of [compressV6] replaces the run [longest_zero_run] finds by the empty string *)
Lemma compress_loop_hextets : forall hs, Forall hextet_ok hs -> hs <> [] ->
  compress_loop 8 (repeat (lit "0000") 8) (join (lit ":") (map hex4 hs)) =
  match longest_zero_run hs with
  | None => join (lit ":") (map hex4 hs)
  | Some (i, l) => join (lit ":") (map hex4 (firstn i hs) ++ [[]] ++ map hex4 (skipn (i + l) hs))
  end.
Proof.
  intros hs Hok Hne. rewrite loop_spec by (assumption || lia). unfold longest_zero_run.
  destruct (longest_run_from 8 hs) as [[i l]|] eqn:E; [|reflexivity].
  destruct (longest_run_some 8 hs i l E) as [Hl [Hf _]].
  destruct (first_run_some l hs i Hf) as [Hz _].
  apply zero_run_b_spec in Hz; [|lia].
  destruct l as [|[|l']]; [lia|lia|].
  apply replace_run; [exact Hok|exact Hz|lia|].
  rewrite index_zeros by assumption. rewrite Hf. reflexivity.
Qed.

Lemma match_hex4_hextets : forall hs f, Forall hextet_ok hs -> (List.length hs <= f)%nat ->
  match_hex4 f (List.concat (map hex4 hs)) = map hex4 hs.
Proof.
  induction hs as [|h t IH]; intros f Hok Hf.
  - destruct f; reflexivity.
  - inversion Hok as [|? ? Hh Ht]; subst. destruct f as [|f]; [simpl in Hf; lia|].
    destruct (hex4_facts h Hh) as [Hlo _].
    destruct (hex4_shape h Hh) as [a [b [c [d Eh]]]].
    cbn [map List.concat]. rewrite Eh in *. cbn [app match_hex4]. rewrite Hlo.
    rewrite IH by (assumption || (simpl in Hf; lia)). reflexivity.
Qed.

(** [v6ToString] of the bytes of a list of hextets *)
Lemma v6ToString_hextets : forall hs e, Forall hextet_ok hs -> hs <> [] ->
  v6ToString (bytes_of_hextets hs) e =
  if negb e then Ok (compressV6 (join (lit ":") (map hex4 hs)))
  else Ok (replace_all (lit "0000") (lit "0")
             (join (lit ":") (map (fun octet => number_to_string 16 (parseInt octet 16)) (map hex4 hs)))).
Proof.
  intros hs e Hok Hne. unfold v6ToString, match_hex4_global. rewrite to_hex_hextets.
  rewrite match_hex4_hextets.
  - destruct hs as [|h t]; [congruence|]. reflexivity.
  - exact Hok.
  - clear Hne. induction hs as [|h t IH]; [simpl; lia|].
    inversion Hok as [|? ? Hh Ht]; subst. cbn [map List.concat]. rewrite length_app.
    rewrite (proj1 (proj2 (hex4_facts h Hh))). cbn [List.length]. specialize (IH Ht). lia.
Qed.

End LoopFacts.

Module TextFacts.
Import Js IP Spec Facts HexFacts RadixFacts DecFacts LoopFacts.

Lemma lower_not_colon : forall x, forallb is_lower_hex x = true -> ~ In ":"%char x.
Proof.
  intros x Hx Hin. rewrite forallb_forall in Hx. specialize (Hx _ Hin). discriminate.
Qed.

Lemma lower_not_in : forall c x, is_lower_hex c = false -> forallb is_lower_hex x = true -> ~ In c x.
Proof.
  intros c x Hc Hx Hin. rewrite forallb_forall in Hx. specialize (Hx _ Hin). congruence.
Qed.

Lemma texts_no_colon : forall hs, Forall hextet_ok hs ->
  Forall (fun x => ~ In ":"%char x) (map hextet_text hs).
Proof.
  intros hs H. apply Forall_map. eapply Forall_impl; [|exact H].
  intros h Hh. apply lower_not_colon. apply (hextet_text_facts h Hh).
Qed.

Lemma hex4s_no_colon : forall hs, Forall hextet_ok hs ->
  Forall (fun x => ~ In ":"%char x) (map hex4 hs).
Proof.
  intros hs H. apply Forall_map. eapply Forall_impl; [|exact H].
  intros h Hh. apply lower_not_colon. apply (hex4_facts h Hh).
Qed.

Lemma Forall_app3 : forall (P : str -> Prop) a b c,
  Forall P a -> Forall P b -> Forall P c -> Forall P (a ++ b ++ c).
Proof. intros P a b c Ha Hb Hc. apply Forall_app; split; [|apply Forall_app; split]; assumption. Qed.

Lemma nil_no_colon : Forall (fun x => ~ In ":"%char x) [[]].
Proof. constructor; [simpl; tauto|constructor]. Qed.

(** [number_to_string 16 (parseInt octet 16)] of the four digits of a hextet *)
Lemma reformat_hex4 : forall h, hextet_ok h ->
  number_to_string 16 (parseInt (hex4 h) 16) = hextet_text h.
Proof.
  intros h Hh. rewrite parseInt_hex4 by exact Hh. apply (hextet_text_facts h Hh).
Qed.

Lemma hex4_cons : forall h, hextet_ok h -> exists c t, hex4 h = c :: t /\ is_lower_hex c = true.
Proof.
  intros h Hh. destruct (hex4_shape h Hh) as [a [b [c [d E]]]]. exists a, [b; c; d].
  split; [exact E|]. destruct (hex4_facts h Hh) as [Hl _]. rewrite E in Hl. simpl in Hl.
  destruct (is_lower_hex a); [reflexivity|discriminate].
Qed.

Lemma text_cons : forall h, hextet_ok h -> exists c t, hextet_text h = c :: t /\ is_lower_hex c = true.
Proof.
  intros h Hh. destruct (hextet_text_facts h Hh) as [_ [_ [Hne [Hl _]]]].
  destruct (hextet_text h) as [|c t]; [congruence|]. exists c, t. split; [reflexivity|].
  simpl in Hl. destruct (is_lower_hex c); [reflexivity|discriminate].
Qed.

(** the first character of a join is the first character of its first piece *)
Lemma join_head : forall sep x xs c t, x = c :: t -> exists r, join sep (x :: xs) = c :: r.
Proof.
  intros sep x xs c t ->. destruct xs; [eexists; reflexivity|]. rewrite join_cons2. eexists. reflexivity.
Qed.

Lemma reformat_hex4s : forall X, Forall hextet_ok X ->
  map (fun o => match o with Some x => x | None => [] end)
    (map (fun octet => match octet with
                       | [] => None
                       | _ => Some (number_to_string 16 (parseInt octet 16))
                       end) (map hex4 X)) =
  map hextet_text X.
Proof.
  induction X as [|h X IH]; intros H; [reflexivity|]. inversion H as [|? ? Hh HX]; subst.
  cbn [map]. rewrite IH by exact HX. f_equal.
  destruct (hex4_cons h Hh) as [c [t [E _]]]. rewrite E, <- E.
  apply reformat_hex4. exact Hh.
Qed.

Lemma reformat_app : forall A B : list str,
  map (fun o => match o with Some x => x | None => [] end)
    (map (fun octet => match octet with
                       | [] => None
                       | _ => Some (number_to_string 16 (parseInt octet 16))
                       end) (A ++ [] :: B)) =
  map (fun o => match o with Some x => x | None => [] end)
    (map (fun octet => match octet with
                       | [] => None
                       | _ => Some (number_to_string 16 (parseInt octet 16))
                       end) A) ++ [] ::
  map (fun o => match o with Some x => x | None => [] end)
    (map (fun octet => match octet with
                       | [] => None
                       | _ => Some (number_to_string 16 (parseInt octet 16))
                       end) B).
Proof. intros A B. rewrite !map_app. reflexivity. Qed.

Lemma reformat_nil_cons : forall X : list str,
  map (fun o => match o with Some x => x | None => [] end)
    (map (fun octet => match octet with
                       | [] => None
                       | _ => Some (number_to_string 16 (parseInt octet 16))
                       end) ([] :: X)) =
  [] :: map (fun o => match o with Some x => x | None => [] end)
    (map (fun octet => match octet with
                       | [] => None
                       | _ => Some (number_to_string 16 (parseInt octet 16))
                       end) X).
Proof. reflexivity. Qed.

Lemma compressV6_hextets : forall hs, List.length hs = 8%nat -> Forall hextet_ok hs ->
  run_not_trailing hs -> compressV6 (join (lit ":") (map hex4 hs)) = compressed_text hs.
Proof.
  intros hs Hlen Hok Hnt.
  assert (Hne : hs <> []) by (intros E; rewrite E in Hlen; discriminate).
  unfold compressV6. rewrite compress_loop_hextets by assumption.
  unfold compressed_text, join_nullable.
  destruct (longest_zero_run hs) as [[i l]|] eqn:E.
  - destruct (proj1 (longest_zero_run_spec hs Hlen) i l E) as [Hl [Hz _]].
    destruct (zero_run_split hs i l Hz ltac:(lia)) as [Hle _].
    assert (HokA : Forall hextet_ok (firstn i hs))
      by (rewrite <- (firstn_skipn i hs) in Hok; apply Forall_app in Hok; tauto).
    assert (HokB : Forall hextet_ok (skipn (i + l) hs))
      by (rewrite <- (firstn_skipn (i + l) hs) in Hok; apply Forall_app in Hok; tauto).
    destruct i as [|i'].
    + destruct (Nat.eq_dec l 8) as [->|Hl8].
      * rewrite skipn_all2 by lia. reflexivity.
      * cbn [firstn map app Nat.add] in *.
        destruct (skipn l hs) as [|h' t'] eqn:Eb.
        { apply (f_equal (@List.length Z)) in Eb. rewrite length_skipn, Hlen in Eb.
        cbn [List.length] in Eb. lia. }
        change (map hex4 (h' :: t')) with (hex4 h' :: map hex4 t').
        rewrite join_nil_cons. cbn [lit list_ascii_of_string app]. cbv beta iota.
        rewrite Ascii.eqb_refl.
        change (":"%char :: ":"%char :: join [":"%char] (hex4 h' :: map hex4 t'))
          with (join (lit ":") ([] :: [] :: map hex4 (h' :: t'))).
        rewrite split_join by (discriminate || (constructor; [simpl; tauto|constructor;
          [simpl; tauto|apply hex4s_no_colon; assumption]])).
        rewrite !reformat_nil_cons, reformat_hex4s by assumption. reflexivity.
    + destruct (Hnt (S i') l E) as [Hlt|Hi0]; [|discriminate].
      destruct (firstn (S i') hs) as [|a0 A'] eqn:Ea.
      { apply (f_equal (@List.length Z)) in Ea. rewrite length_firstn, Hlen in Ea.
        cbn [List.length] in Ea. lia. }
      destruct (skipn (S i' + l) hs) as [|b0 B'] eqn:Eb.
      { apply (f_equal (@List.length Z)) in Eb. rewrite length_skipn, Hlen in Eb.
        cbn [List.length] in Eb. lia. }
      inversion HokA as [|? ? Ha0 HA']; subst.
      destruct (hex4_cons a0 Ha0) as [c [r [Ec Hc]]].
      change (map hex4 (a0 :: A') ++ [[]] ++ map hex4 (b0 :: B'))
        with (hex4 a0 :: (map hex4 A' ++ [[]] ++ map hex4 (b0 :: B'))).
      destruct (join_head (lit ":") (hex4 a0) (map hex4 A' ++ [[]] ++ map hex4 (b0 :: B')) c r Ec)
        as [r' Ej].
      rewrite Ej. cbv beta iota. char_neq c ":"%char. rewrite H. rewrite <- Ej.
      change (hex4 a0 :: (map hex4 A' ++ [[]] ++ map hex4 (b0 :: B')))
        with (map hex4 (a0 :: A') ++ [[]] ++ map hex4 (b0 :: B')).
      rewrite split_join by (destruct A'; discriminate ||
        (apply Forall_app3; [apply hex4s_no_colon; assumption|exact nil_no_colon|
                             apply hex4s_no_colon; assumption])).
      cbn [app]. rewrite reformat_app, !reformat_hex4s by assumption.
      rewrite join_app by (discriminate || (destruct A'; discriminate)).
      change (map hextet_text (b0 :: B')) with (hextet_text b0 :: map hextet_text B').
      rewrite join_nil_cons. reflexivity.
  - destruct hs as [|h0 t]; [congruence|]. inversion Hok as [|? ? Hh0 Ht]; subst.
    destruct (hex4_cons h0 Hh0) as [c [r [Ec Hc]]].
    destruct (join_head (lit ":") (hex4 h0) (map hex4 t) c r Ec) as [r' Ej].
    change (map hex4 (h0 :: t)) with (hex4 h0 :: map hex4 t).
    rewrite Ej. cbv beta iota. char_neq c ":"%char. rewrite H. rewrite <- Ej.
    change (hex4 h0 :: map hex4 t) with (map hex4 (h0 :: t)).
    rewrite split_join by (discriminate || apply hex4s_no_colon; assumption).
    rewrite reformat_hex4s by assumption. reflexivity.
Qed.

Lemma expand_texts : forall (n : Z) X, Forall hextet_ok X ->
  flat_map (fun octet => match octet with
                         | [] => repeat (lit "0000") (Z.to_nat n)
                         | _ => [padStart 4 "0"%char octet]
                         end) (map hextet_text X) = map hex4 X.
Proof.
  intros n. induction X as [|h X IH]; intros H; [reflexivity|].
  inversion H as [|? ? Hh HX]; subst. cbn [map flat_map]. rewrite IH by exact HX.
  destruct (text_cons h Hh) as [c [t [E _]]]. rewrite E, <- E.
  rewrite (proj1 (proj2 (hextet_text_facts h Hh))). reflexivity.
Qed.

Lemma expand_gap : forall (n : Z) A B, Forall hextet_ok A -> Forall hextet_ok B ->
  flat_map (fun octet => match octet with
                         | [] => repeat (lit "0000") (Z.to_nat n)
                         | _ => [padStart 4 "0"%char octet]
                         end) (map hextet_text A ++ [] :: map hextet_text B) =
  map hex4 A ++ repeat (lit "0000") (Z.to_nat n) ++ map hex4 B.
Proof.
  intros n A B HA HB. rewrite flat_map_app, expand_texts by assumption.
  cbn [flat_map]. rewrite expand_texts by assumption. reflexivity.
Qed.

Lemma starts_with_colons : forall c r, is_lower_hex c = true -> starts_with (lit "::") (c :: r) = false.
Proof.
  intros c r Hc. char_neq c ":"%char. cbn [lit list_ascii_of_string starts_with].
  rewrite Ascii.eqb_sym, H. reflexivity.
Qed.

(** [expandV6] of the compressed text restores the eight four-digit groups *)
Lemma expandV6_compressed : forall hs, List.length hs = 8%nat -> Forall hextet_ok hs ->
  run_not_trailing hs -> longest_zero_run hs <> Some (0%nat, 8%nat) ->
  expandV6 (compressed_text hs) = join (lit ":") (map hex4 hs).
Proof.
  intros hs Hlen Hok Hnt Hall.
  assert (Hne : hs <> []) by (intros E; rewrite E in Hlen; discriminate).
  unfold expandV6, compressed_text. cbv zeta.
  destruct (longest_zero_run hs) as [[i l]|] eqn:E.
  - destruct (proj1 (longest_zero_run_spec hs Hlen) i l E) as [Hl [Hz _]].
    destruct (zero_run_split hs i l Hz ltac:(lia)) as [Hle Hsplit].
    assert (HokA : Forall hextet_ok (firstn i hs))
      by (rewrite <- (firstn_skipn i hs) in Hok; apply Forall_app in Hok; tauto).
    assert (HokB : Forall hextet_ok (skipn (i + l) hs))
      by (rewrite <- (firstn_skipn (i + l) hs) in Hok; apply Forall_app in Hok; tauto).
    assert (Htext : map hex4 hs =
                    map hex4 (firstn i hs) ++ repeat (lit "0000") l ++ map hex4 (skipn (i + l) hs)).
    { rewrite Hsplit at 1. rewrite !map_app, map_repeat, hex4_zero. reflexivity. }
    destruct (skipn (i + l) hs) as [|b0 B'] eqn:Eb.
    { destruct (Hnt i l E) as [Hlt|Hi0].
      - apply (f_equal (@List.length Z)) in Eb. rewrite length_skipn, Hlen in Eb.
        cbn [List.length] in Eb. lia.
      - subst i. exfalso. apply Hall. f_equal. f_equal.
        apply (f_equal (@List.length Z)) in Eb. rewrite length_skipn, Hlen in Eb.
        cbn [List.length] in Eb. lia. }
    assert (HLB : List.length (b0 :: B') = (8 - (i + l))%nat)
      by (rewrite <- Eb, length_skipn, Hlen; reflexivity).
    rewrite Htext.
    destruct i as [|i'].
    + assert (Ea : join (lit ":") (map hextet_text (firstn 0 hs)) ++ lit "::" ++
                   join (lit ":") (map hextet_text (b0 :: B')) =
                   join (lit ":") ([] :: [] :: map hextet_text (b0 :: B'))) by reflexivity.
      rewrite Ea.
      assert (Hsw : starts_with (lit "::") (join (lit ":") ([] :: [] :: map hextet_text (b0 :: B')))
                    = true) by reflexivity.
      rewrite Hsw. cbv beta iota.
      rewrite split_join by (discriminate || (constructor; [simpl; tauto|constructor;
          [simpl; tauto|apply texts_no_colon; assumption]])).
      cbn [tl].
      rewrite (expand_gap _ [] (b0 :: B')) by (assumption || constructor).
      f_equal. f_equal. f_equal. cbn [List.length]. rewrite length_map, HLB. f_equal. rewrite Hlen in Hle. lia.
    + destruct (Hnt (S i') l E) as [Hlt|Hi0]; [|discriminate].
      destruct (firstn (S i') hs) as [|a0 A'] eqn:Ea.
      { apply (f_equal (@List.length Z)) in Ea. rewrite length_firstn, Hlen in Ea.
        cbn [List.length] in Ea. lia. }
      assert (HLA : List.length (a0 :: A') = S i')
        by (rewrite <- Ea, length_firstn, Hlen; lia).
      idtac.
      assert (Ea2 : join (lit ":") (map hextet_text (a0 :: A')) ++ lit "::" ++
                    join (lit ":") (map hextet_text (b0 :: B')) =
                    join (lit ":") (map hextet_text (a0 :: A') ++ [] :: map hextet_text (b0 :: B'))).
      { rewrite join_app by discriminate. reflexivity. }
      rewrite Ea2.
      inversion HokA as [|? ? Ha0 HA']; subst.
      destruct (text_cons a0 Ha0) as [c [r [Ec Hc]]].
      destruct (join_head (lit ":") (hextet_text a0) (map hextet_text A' ++ [] :: map hextet_text (b0 :: B')) c r Ec)
        as [r' Ej].
      change (map hextet_text (a0 :: A') ++ [] :: map hextet_text (b0 :: B'))
        with (hextet_text a0 :: (map hextet_text A' ++ [] :: map hextet_text (b0 :: B'))).
      rewrite Ej, starts_with_colons by exact Hc. rewrite <- Ej. cbv beta iota.
      change (hextet_text a0 :: (map hextet_text A' ++ [] :: map hextet_text (b0 :: B')))
        with (map hextet_text (a0 :: A') ++ [] :: map hextet_text (b0 :: B')).
      rewrite split_join by (destruct A'; discriminate ||
        (apply Forall_app; split; [apply texts_no_colon; assumption|
           constructor; [simpl; tauto|apply texts_no_colon; assumption]])).
      rewrite expand_gap by assumption.
      f_equal. f_equal. f_equal. rewrite length_app, !length_map. cbn [List.length].
      rewrite length_map in *. f_equal. cbn [List.length] in HLA, HLB |- *. lia.
  - destruct hs as [|h0 t]; [congruence|]. inversion Hok as [|? ? Hh0 Ht]; subst.
    destruct (text_cons h0 Hh0) as [c [r [Ec Hc]]].
    destruct (join_head (lit ":") (hextet_text h0) (map hextet_text t) c r Ec) as [r' Ej].
    change (map hextet_text (h0 :: t)) with (hextet_text h0 :: map hextet_text t).
    rewrite Ej, starts_with_colons by exact Hc. rewrite <- Ej. cbv beta iota.
    change (hextet_text h0 :: map hextet_text t) with (map hextet_text (h0 :: t)).
    rewrite split_join by (discriminate || (apply texts_no_colon; assumption)).
    rewrite expand_texts by assumption. reflexivity.
Qed.


(** *** The characters of a compressed text *)

Lemma join_Forall : forall (P : ascii -> Prop) sep xs, Forall P sep -> Forall (Forall P) xs ->
  Forall P (join sep xs).
Proof.
  intros P sep. induction xs as [|x xs IH]; intros Hs H; [constructor|].
  inversion H as [|? ? Hx Hxs]; subst. destruct xs as [|y ys]; [exact Hx|].
  rewrite join_cons2. apply Forall_app; split; [exact Hx|].
  apply Forall_app; split; [exact Hs|]. apply IH; assumption.
Qed.

Lemma In_join : forall sep xs x c, In x xs -> In c x -> In c (join sep xs).
Proof.
  intros sep. induction xs as [|y xs IH]; intros x c Hx Hc; [destruct Hx|].
  destruct xs as [|z zs].
  - destruct Hx as [->|[]]. exact Hc.
  - rewrite join_cons2. destruct Hx as [->|Hx].
    + apply in_or_app. left. exact Hc.
    + apply in_or_app. right. apply in_or_app. right. apply (IH x); assumption.
Qed.

Lemma texts_chars : forall hs, Forall hextet_ok hs ->
  Forall (Forall (fun c => is_lower_hex c = true \/ c = ":"%char)) (map hextet_text hs).
Proof.
  intros hs H. apply Forall_map. eapply Forall_impl; [|exact H].
  intros h Hh. destruct (hextet_text_facts h Hh) as [_ [_ [_ [Hl _]]]].
  apply Forall_forall. intros c Hc. left. rewrite forallb_forall in Hl. auto.
Qed.

Lemma colon_chars : forall s, Forall (fun c => c = ":"%char) s ->
  Forall (fun c => is_lower_hex c = true \/ c = ":"%char) s.
Proof. intros s H. eapply Forall_impl; [|exact H]. intros c Hc. right. exact Hc. Qed.

Lemma compressed_chars : forall hs, Forall hextet_ok hs ->
  Forall (fun c => is_lower_hex c = true \/ c = ":"%char) (compressed_text hs).
Proof.
  intros hs H. unfold compressed_text.
  assert (Hsep : Forall (fun c => is_lower_hex c = true \/ c = ":"%char) (lit ":"))
    by (apply colon_chars; repeat constructor).
  destruct (longest_zero_run hs) as [[i l]|].
  - assert (HA : Forall hextet_ok (firstn i hs))
      by (rewrite <- (firstn_skipn i hs) in H; apply Forall_app in H; tauto).
    assert (HB : Forall hextet_ok (skipn (i + l) hs))
      by (rewrite <- (firstn_skipn (i + l) hs) in H; apply Forall_app in H; tauto).
    apply Forall_app; split; [apply join_Forall; [exact Hsep|apply texts_chars; exact HA]|].
    apply Forall_app; split; [apply colon_chars; repeat constructor|].
    apply join_Forall; [exact Hsep|apply texts_chars; exact HB].
  - apply join_Forall; [exact Hsep|apply texts_chars; exact H].
Qed.

Lemma text_in_compressed : forall hs, List.length hs = 8%nat -> Forall hextet_ok hs ->
  longest_zero_run hs <> Some (0%nat, 8%nat) ->
  exists c, In c (compressed_text hs) /\ is_lower_hex c = true.
Proof.
  intros hs Hlen H Hall. unfold compressed_text.
  destruct (longest_zero_run hs) as [[i l]|] eqn:E.
  - destruct (proj1 (longest_zero_run_spec hs Hlen) i l E) as [Hl [Hz _]].
    destruct (zero_run_split hs i l Hz ltac:(lia)) as [Hle _].
    destruct (firstn i hs) as [|a A] eqn:Ea.
    + destruct (skipn (i + l) hs) as [|b B] eqn:Eb.
      * exfalso. apply (f_equal (@List.length Z)) in Ea, Eb.
        rewrite length_firstn in Ea. rewrite length_skipn in Eb. cbn [List.length] in Ea, Eb.
        apply Hall. f_equal. f_equal; lia.
      * assert (Hb : hextet_ok b).
        { rewrite <- (firstn_skipn (i + l) hs), Eb in H. apply Forall_app in H.
          destruct H as [_ H]. inversion H. assumption. }
        destruct (text_cons b Hb) as [c [t [Et Hc]]]. exists c. split; [|exact Hc].
        apply in_or_app. right. apply in_or_app. right.
        apply (In_join _ _ (hextet_text b)); [left; reflexivity|rewrite Et; left; reflexivity].
    + assert (Ha : hextet_ok a).
      { rewrite <- (firstn_skipn i hs), Ea in H. inversion H. assumption. }
      destruct (text_cons a Ha) as [c [t [Et Hc]]]. exists c. split; [|exact Hc].
      apply in_or_app. left.
      apply (In_join _ _ (hextet_text a)); [left; reflexivity|rewrite Et; left; reflexivity].
  - destruct hs as [|a A]; [discriminate|]. inversion H as [|? ? Ha _]; subst.
    destruct (text_cons a Ha) as [c [t [Et Hc]]]. exists c. split; [|exact Hc].
    apply (In_join _ _ (hextet_text a)); [left; reflexivity|rewrite Et; left; reflexivity].
Qed.

(** *** The family tests on such a text *)

Lemma hexcolon_neq : forall c x, is_lower_hex c = true \/ c = ":"%char ->
  In x (lit ".%[") -> Ascii.eqb c x = false.
Proof.
  intros c x [Hc| ->] Hx.
  - eapply not_in_eqb; [apply (proj1 (lower_hex_other c Hc))|].
    vm_compute in Hx. vm_compute. tauto.
  - vm_compute in Hx. destruct Hx as [<-|[<-|[<-|[]]]]; reflexivity.
Qed.

Lemma strip_id : forall s, Forall (fun c => is_lower_hex c = true \/ c = ":"%char) s ->
  strip_brackets s = s.
Proof.
  intros [|c t] H; [reflexivity|]. inversion H as [|? ? Hc _]; subst.
  unfold strip_brackets. rewrite (hexcolon_neq c "["%char Hc) by (vm_compute; tauto).
  reflexivity.
Qed.

Lemma includes_pct : forall s, Forall (fun c => is_lower_hex c = true \/ c = ":"%char) s ->
  includes "%"%char s = false.
Proof.
  intros s H. unfold includes. apply Bool.not_true_iff_false. intros E.
  apply existsb_exists in E as [x [Hx Ex]]. rewrite Forall_forall in H.
  rewrite Ascii.eqb_sym, (hexcolon_neq x "%"%char (H x Hx)) in Ex by (vm_compute; tauto).
  discriminate.
Qed.

Lemma dot_in : forall k u, dot k u = true -> In "."%char u.
Proof.
  intros k [|c t] H; [discriminate|]. unfold dot in H. apply andb_prop in H as [H _].
  apply Ascii.eqb_eq in H. subst. left. reflexivity.
Qed.

Lemma digits13_in : forall k u, (forall v, k v = true -> In "."%char v) ->
  digits13 k u = true -> In "."%char u.
Proof.
  intros k u Hk H. unfold digits13 in H.
  destruct u as [|d1 s1]; [discriminate|]. apply andb_prop in H as [_ H].
  apply orb_prop in H as [H|H]; [right; apply Hk; exact H|].
  destruct s1 as [|d2 s2]; [discriminate|]. apply andb_prop in H as [_ H].
  apply orb_prop in H as [H|H]; [right; right; apply Hk; exact H|].
  destruct s2 as [|d3 s3]; [discriminate|]. apply andb_prop in H as [_ H].
  right; right; right. apply Hk. exact H.
Qed.

Lemma v4_pattern_dot : forall u, v4_pattern_at u = true -> In "."%char u.
Proof. intros u. apply digits13_in. intros v. apply dot_in. Qed.

Lemma isIPv4_dot : forall s, isIPv4 s = true -> In "."%char s.
Proof.
  unfold isIPv4. induction s as [|c t IH]; intros H; cbn [test_somewhere] in H.
  - apply v4_pattern_dot. rewrite orb_false_r in H. exact H.
  - apply orb_prop in H as [H|H]; [apply v4_pattern_dot; exact H|right; apply IH; exact H].
Qed.

Lemma isIPv4_hexcolon : forall s, Forall (fun c => is_lower_hex c = true \/ c = ":"%char) s ->
  isIPv4 s = false.
Proof.
  intros s H. apply Bool.not_true_iff_false. intros E. apply isIPv4_dot in E.
  rewrite Forall_forall in H.
  pose proof (hexcolon_neq "."%char "."%char (H _ E) ltac:(vm_compute; tauto)) as F.
  rewrite Ascii.eqb_refl in F. discriminate.
Qed.

Lemma isIPv6_hex : forall s c, In c s -> is_lower_hex c = true -> isIPv6 s = true.
Proof.
  intros s c Hin Hc. unfold isIPv6. apply existsb_exists. exists c.
  split; [exact Hin|apply (lower_hex_other c Hc)].
Qed.

Lemma str_eqb_hex : forall s c, In c s -> is_lower_hex c = true -> str_eqb s (lit "::") = false.
Proof.
  intros s c Hin Hc. apply Bool.not_true_iff_false. intros E. apply str_eqb_eq in E. subst s.
  vm_compute in Hin. destruct Hin as [<-|[<-|[]]]; discriminate.
Qed.

(** [parse] of a compressed text gives the bytes of its hextets and no zone *)
Lemma parse_compressed : forall hs, List.length hs = 8%nat -> Forall hextet_ok hs ->
  run_not_trailing hs ->
  parse (compressed_text hs) =
  Ok {| m_bytes := bytes_of_hextets hs; m_isV4 := is_mapped (bytes_of_hextets hs); m_zone := None |}.
Proof.
  intros hs Hlen Hok Hnt.
  assert (Hd : forall o1 o2 : option (nat * nat), {o1 = o2} + {o1 <> o2})
    by (repeat decide equality).
  destruct (Hd (longest_zero_run hs) (Some (0%nat, 8%nat))) as [Hall|Hall].
  - destruct (proj1 (longest_zero_run_spec hs Hlen) _ _ Hall) as [_ [Hz _]].
    unfold zero_run in Hz. rewrite skipn_O, firstn_all2 in Hz by lia. subst hs.
    vm_compute. reflexivity.
  - pose proof (compressed_chars hs Hok) as Hch.
    destruct (text_in_compressed hs Hlen Hok Hall) as [c [Hin Hc]].
    unfold parse. rewrite strip_id by exact Hch.
    rewrite (str_eqb_hex _ c Hin Hc), isIPv4_hexcolon, (isIPv6_hex _ c Hin Hc) by exact Hch.
    unfold v6StringToBuffer. rewrite includes_pct by exact Hch. cbv beta iota zeta.
    rewrite expandV6_compressed by assumption.
    assert (Hne : map hex4 hs <> []) by (destruct hs; discriminate).
    rewrite split_join by (exact Hne || apply hex4s_no_colon; exact Hok).
    rewrite join_nil_concat, <- to_hex_hextets, from_hex_to_hex
      by (apply bytes_of_hextets_ok; exact Hok).
    reflexivity.
Qed.

(** the mapped-prefix test on the bytes of eight hextets *)
Lemma is_mapped_hextets : forall hs, Forall hextet_ok hs ->
  is_mapped (bytes_of_hextets hs) = true -> firstn 6 hs = [0; 0; 0; 0; 0; 65535].
Proof.
  intros hs Hok H. unfold is_mapped in H.
  destruct (bytes_of_hextets hs) as [|b0 bt] eqn:E; [discriminate|].
  apply andb_prop in H as [_ H]. apply equals_spec in H. rewrite <- E in H.
  assert (F : forall n xs, firstn (2 * n) (bytes_of_hextets xs) = bytes_of_hextets (firstn n xs)).
  { induction n as [|n IH]; intros [|x xs]; try reflexivity.
    replace (2 * S n)%nat with (S (S (2 * n))) by lia. cbn [firstn bytes_of_hextets flat_map app].
    rewrite <- IH. reflexivity. }
  rewrite (F 6%nat hs : firstn 12 (bytes_of_hextets hs) = _) in H. apply (f_equal hextets) in H.
  rewrite hextets_of_bytes in H.
  - rewrite H. vm_compute. reflexivity.
  - rewrite <- (firstn_skipn 6 hs) in Hok. apply Forall_app in Hok. tauto.
Qed.

(** *** No ['0000'] in the expanded text *)

Lemma sw_app_sep : forall p u c r, ~ In c p -> starts_with p (u ++ c :: r) = true ->
  starts_with p u = true.
Proof.
  induction p as [|x p IH]; intros u c r Hc H; [reflexivity|].
  destruct u as [|y u].
  - cbn [app starts_with] in H. apply andb_prop in H as [H _]. apply Ascii.eqb_eq in H.
    subst. exfalso. apply Hc. left. reflexivity.
  - cbn [app starts_with] in *. apply andb_prop in H as [H1 H2]. rewrite H1.
    apply (IH u c r); [intros Hin; apply Hc; right; exact Hin|exact H2].
Qed.

Lemma window_first : forall x, no_0000_window x = true -> starts_with (lit "0000") x = false.
Proof.
  intros x H. destruct (Nat.ltb_spec (List.length x) 4) as [Hs|Hs].
  - apply starts_with_short. exact Hs.
  - unfold no_0000_window in H. apply orb_prop in H as [H|H].
    + apply Nat.ltb_lt in H. lia.
    + rewrite <- (firstn_skipn 4 x). change (lit "0000") with (lit "0000" ++ []).
      rewrite starts_with_app.
      * rewrite str_eqb_sym. apply negb_true_iff in H. rewrite H. reflexivity.
      * rewrite length_firstn, Nat.min_l by lia. reflexivity.
Qed.

Lemma text_no_window : forall h k, hextet_ok h ->
  starts_with (lit "0000") (skipn k (hextet_text h)) = false.
Proof.
  intros h k Hh. destruct (hextet_text_facts h Hh) as [_ [_ [_ [_ [Hlen Hw]]]]].
  destruct k as [|k].
  - apply window_first. exact Hw.
  - apply starts_with_short. rewrite length_skipn. cbn. lia.
Qed.

Lemma join_no_window : forall xs, xs <> [] ->
  Forall (fun x => forall k, starts_with (lit "0000") (skipn k x) = false) xs ->
  forall k, starts_with (lit "0000") (skipn k (join (lit ":") xs)) = false.
Proof.
  induction xs as [|x xs IH]; intros Hne H k; [congruence|].
  inversion H as [|? ? Hx Hxs]; subst.
  destruct xs as [|y ys]; [apply Hx|].
  rewrite join_cons2. change (lit ":" ++ join (lit ":") (y :: ys)) with (":"%char :: join (lit ":") (y :: ys)).
  rewrite skipn_app. destruct (Nat.leb_spec k (List.length x)) as [Hk|Hk].
  - replace (k - List.length x)%nat with 0%nat by lia. rewrite skipn_O.
    apply Bool.not_true_iff_false. intros E. apply sw_app_sep in E.
    + rewrite Hx in E. discriminate.
    + vm_compute. intros [F|[F|[F|[F|[]]]]]; discriminate.
  - rewrite skipn_all2 by lia. cbn [app].
    replace (k - List.length x)%nat with (S (k - List.length x - 1)) by lia.
    cbn [skipn]. apply IH; [discriminate|exact Hxs].
Qed.

Lemma replace_all_aux_id : forall pat rep f s,
  (forall k, starts_with pat (skipn k s) = false) -> replace_all_aux f pat rep s = s.
Proof.
  intros pat rep. induction f as [|f IH]; intros s H; [reflexivity|].
  destruct s as [|c t]; [reflexivity|]. cbn [replace_all_aux].
  rewrite (H 0%nat : starts_with pat (c :: t) = false). f_equal. apply IH. intros k. apply (H (S k)).
Qed.

(** the expanded form is left alone by [replace(/0000/g, '0')] *)
Lemma replace_all_texts : forall hs, Forall hextet_ok hs -> hs <> [] ->
  replace_all (lit "0000") (lit "0") (join (lit ":") (map hextet_text hs)) =
  join (lit ":") (map hextet_text hs).
Proof.
  intros hs H Hne. unfold replace_all. apply replace_all_aux_id. apply join_no_window.
  - destruct hs; [congruence|discriminate].
  - apply Forall_map. eapply Forall_impl; [|exact H]. intros h Hh k. apply text_no_window. exact Hh.
Qed.

Lemma reformat_map : forall hs, Forall hextet_ok hs ->
  map (fun octet => number_to_string 16 (parseInt octet 16)) (map hex4 hs) = map hextet_text hs.
Proof.
  intros hs H. rewrite map_map. apply map_ext_in. intros h Hin.
  apply reformat_hex4. rewrite Forall_forall in H. auto.
Qed.

End TextFacts.

(** *** Splitting, bracket stripping and the IPv6 character class *)
Module ParseFacts.
Import Js IP Spec Facts HexFacts RadixFacts DecFacts LoopFacts TextFacts.

Lemma split_nonempty : forall sep s, split sep s <> [].
Proof.
  intros sep [|c t]; [discriminate|]. cbn [split].
  destruct (Ascii.eqb c sep); [discriminate|]. destruct (split sep t); discriminate.
Qed.

Lemma split_cons_length : forall sep x s,
  List.length (split sep (x :: s)) =
  (if Ascii.eqb x sep then S (List.length (split sep s)) else List.length (split sep s)).
Proof.
  intros sep x s. cbn [split]. destruct (Ascii.eqb x sep); [reflexivity|].
  destruct (split sep s) eqn:E; [exfalso; exact (split_nonempty sep s E)|reflexivity].
Qed.

Lemma split_snoc_length : forall sep c s, Ascii.eqb c sep = false ->
  List.length (split sep (s ++ [c])) = List.length (split sep s).
Proof.
  intros sep c s Hc. induction s as [|x s IH].
  - cbn [app]. rewrite split_cons_length, Hc. reflexivity.
  - cbn [app]. rewrite !split_cons_length, IH. reflexivity.
Qed.

Lemma strip_cases : forall s,
  strip_brackets s = s \/ exists m, s = "["%char :: m ++ ["]"%char] /\ strip_brackets s = m.
Proof.
  intros [|c t]; [left; reflexivity|]. unfold strip_brackets.
  destruct (Ascii.eqb c "["%char) eqn:Ec; [|left; reflexivity].
  destruct (Ascii.eqb (last (c :: t) c) "]"%char) eqn:El; [|left; reflexivity].
  right. apply Ascii.eqb_eq in Ec. subst c.
  destruct t as [|y t]; [discriminate|].
  apply Ascii.eqb_eq in El. change (last (y :: t) "["%char = "]"%char) in El.
  exists (removelast (y :: t)). split.
  - f_equal. rewrite <- El. apply app_removelast_last. discriminate.
  - unfold substring. cbn [skipn]. rewrite removelast_firstn_len. cbn [andb]. f_equal.
    cbn [List.length]. lia.
Qed.

(** stripping the brackets keeps the number of ['%'] pieces *)
Lemma split_pct_strip : forall s,
  List.length (split "%"%char (strip_brackets s)) = List.length (split "%"%char s).
Proof.
  intros s. destruct (strip_cases s) as [->|[m [Es ->]]]; [reflexivity|].
  rewrite Es. rewrite split_cons_length. cbn [Ascii.eqb].
  rewrite split_snoc_length by reflexivity. reflexivity.
Qed.

Lemma v6_class_eq : forall c, v6_class c = existsb (Ascii.eqb c) (lit "0123456789abcdef:%").
Proof.
  intros c. apply Bool.eqb_prop.
  apply (all_ascii_spec (fun c => Bool.eqb (v6_class c) (existsb (Ascii.eqb c) (lit "0123456789abcdef:%")))).
  vm_compute. reflexivity.
Qed.

Lemma isIPv6_class : forall a,
  isIPv6 a = negb (forallb (fun c => negb (existsb (Ascii.eqb c) (lit "0123456789abcdef:%"))) a).
Proof.
  induction a as [|c a IH]; [reflexivity|]. unfold isIPv6 in *. cbn [existsb forallb].
  rewrite IH, v6_class_eq. destruct (existsb (Ascii.eqb c) (lit "0123456789abcdef:%")); reflexivity.
Qed.

(** the IPv4 path of [parse] gives sixteen bytes *)
Lemma parse_v4_length : forall s ip, isIPv4 (strip_brackets s) = true -> parse s = Ok ip ->
  List.length (m_bytes ip) = 16%nat.
Proof.
  intros s ip H4 Hp. unfold parse in Hp.
  destruct (str_eqb (strip_brackets s) (lit "::")).
  - injection Hp as <-. reflexivity.
  - rewrite H4 in Hp. injection Hp as <-. cbn [m_bytes]. unfold v4StringToBuffer.
    rewrite !copy_length; [reflexivity| |]; rewrite ?copy_length; cbn; lia.
Qed.

(** [decimal] of what [fromDecimal] builds from a value of at most 128 bits *)
Lemma zeros_prefix_value : forall bs, firstn 12 bs = repeat 0 12 ->
  BigInteger_of_hex (Buf.to_hex (skipn 12 bs)) = BigInteger_of_hex (Buf.to_hex bs).
Proof.
  intros bs H. rewrite <- (firstn_skipn 12 bs) at 2. rewrite H, to_hex_app, to_hex_zeros.
  rewrite BigInteger_of_hex_app, BigInteger_of_hex_zeros. lia.
Qed.

End ParseFacts.

(** *** Well-formed IPv6 texts *)
Module GroupFacts.
Import Js IP Spec Facts HexFacts RadixFacts DecFacts LoopFacts TextFacts ParseFacts.

Lemma hex_char_other : forall c, hex_char c = true ->
  c <> ":"%char /\ c <> "%"%char /\ c <> "."%char.
Proof.
  intros c H.
  pose proof (all_ascii_spec (fun c => negb (hex_char c) ||
     (negb (Ascii.eqb c ":"%char) && negb (Ascii.eqb c "%"%char) && negb (Ascii.eqb c "."%char)))
     ltac:(vm_compute; reflexivity) c) as P.
  cbv beta in P. rewrite H in P. cbn [negb orb] in P.
  repeat rewrite Bool.andb_true_iff in P. destruct P as [[P1 P2] P3].
  rewrite Bool.negb_true_iff in P1, P2, P3.
  repeat split; intros E; subst; [rewrite Ascii.eqb_refl in P1|rewrite Ascii.eqb_refl in P2|
    rewrite Ascii.eqb_refl in P3]; discriminate.
Qed.

Lemma group_facts : forall g, hex_group g = true ->
  g <> [] /\ (List.length g <= 4)%nat /\ Forall (fun c => hex_char c = true) g.
Proof.
  intros g H. unfold hex_group in H. repeat rewrite Bool.andb_true_iff in H.
  destruct H as [[H1 H2] H3]. apply Nat.leb_le in H1, H2.
  split; [intros E; subst; cbn in H1; lia|split; [exact H2|]].
  apply Forall_forall. rewrite forallb_forall in H3. exact H3.
Qed.

Lemma groups_facts : forall gs, forallb hex_group gs = true ->
  Forall (fun g => g <> [] /\ (List.length g <= 4)%nat /\ Forall (fun c => hex_char c = true) g) gs.
Proof.
  intros gs H. apply Forall_forall. rewrite forallb_forall in H. intros g Hg.
  apply group_facts. apply H. exact Hg.
Qed.

Lemma repeat_hex0 : forall n, Forall (fun c => hex_char c = true) (repeat "0"%char n).
Proof. induction n as [|n IH]; constructor; [reflexivity|exact IH]. Qed.

Lemma pad_group : forall g, (List.length g <= 4)%nat -> Forall (fun c => hex_char c = true) g ->
  List.length (padStart 4 "0"%char g) = 4%nat /\ Forall (fun c => hex_char c = true) (padStart 4 "0"%char g).
Proof.
  intros g Hl Hg. rewrite padStart_le by exact Hl. split.
  - rewrite length_app, repeat_length. lia.
  - apply Forall_app. split; [apply repeat_hex0|exact Hg].
Qed.

Lemma from_hex_hex : forall n s, List.length s = (2 * n)%nat ->
  Forall (fun c => hex_char c = true) s -> List.length (Buf.from_hex s) = n.
Proof.
  induction n as [|n IH]; intros s Hlen Hs.
  - destruct s; [reflexivity|simpl in Hlen; lia].
  - destruct s as [|a [|b t]]; simpl in Hlen; try lia.
    inversion Hs as [|? ? Ha Hs']; subst. inversion Hs' as [|? ? Hb Ht]; subst.
    unfold hex_char in Ha, Hb. rewrite from_hex_cons2.
    destruct (Buf.unhex a); [|discriminate]. destruct (Buf.unhex b); [|discriminate].
    cbn [List.length]. rewrite (IH t); [reflexivity|lia|exact Ht].
Qed.

Lemma flat_groups : forall (n : Z) gs, Forall (fun g => g <> []) gs ->
  flat_map (fun octet => match octet with
                         | [] => repeat (lit "0000") (Z.to_nat n)
                         | _ => [padStart 4 "0"%char octet]
                         end) gs = map (padStart 4 "0"%char) gs.
Proof.
  intros n. induction gs as [|g gs IH]; intros H; [reflexivity|].
  inversion H as [|? ? Hg Hgs]; subst. destruct g as [|c g']; [congruence|].
  cbn [flat_map map app]. rewrite IH by exact Hgs. reflexivity.
Qed.

Lemma sw_group : forall g gs, g <> [] -> Forall (fun c => hex_char c = true) g ->
  starts_with (lit "::") (join (lit ":") (g :: gs)) = false.
Proof.
  intros [|c g'] gs Hne Hg; [congruence|].
  inversion Hg as [|? ? Hc _]; subst. destruct (hex_char_other c Hc) as [Hcol _].
  destruct (join_head (lit ":") (c :: g') gs c g' eq_refl) as [r Ej]. rewrite Ej.
  cbn [lit list_ascii_of_string starts_with].
  destruct (Ascii.eqb_spec ":"%char c) as [E|E]; [congruence|reflexivity].
Qed.

Lemma groups_no_colon : forall gs,
  Forall (fun g => g <> [] /\ (List.length g <= 4)%nat /\ Forall (fun c => hex_char c = true) g) gs ->
  Forall (fun x => ~ In ":"%char x) gs.
Proof.
  intros gs H. eapply Forall_impl; [|exact H]. intros g [_ [_ Hg]] Hin.
  rewrite Forall_forall in Hg. destruct (hex_char_other _ (Hg _ Hin)) as [E _]. congruence.
Qed.

(** [expandV6] turns a well-formed IPv6 text into eight groups of four hex digits *)
Lemma expand_v6_text : forall a, v6_text a ->
  exists P, expandV6 a = join (lit ":") P /\ List.length P = 8%nat /\
    Forall (fun p => List.length p = 4%nat /\ Forall (fun c => hex_char c = true) p) P.
Proof.
  assert (Hzs : forall k, Forall (fun p => List.length p = 4%nat /\ Forall (fun c => hex_char c = true) p)
                 (repeat (lit "0000") k)).
  { intros k. apply Forall_forall. intros x Hx. apply repeat_spec in Hx. subst.
    split; [reflexivity|repeat constructor]. }
  assert (Hpad : forall gs, Forall (fun g => g <> [] /\ (List.length g <= 4)%nat /\
                                         Forall (fun c => hex_char c = true) g) gs ->
                 Forall (fun p => List.length p = 4%nat /\ Forall (fun c => hex_char c = true) p)
                   (map (padStart 4 "0"%char) gs)).
  { intros gs H. apply Forall_map. eapply Forall_impl; [|exact H].
    intros g [_ [Hl Hg]]. apply pad_group; assumption. }
  assert (Hne : forall gs, Forall (fun g => g <> [] /\ (List.length g <= 4)%nat /\
                                        Forall (fun c => hex_char c = true) g) gs ->
                Forall (fun g => g <> []) gs)
    by (intros gs H; eapply Forall_impl; [|exact H]; intros g [E _]; exact E).
  intros a [[gs [Hl [Hg ->]]]|[A [B [HB [Hl [Hg ->]]]]]]; unfold expandV6; cbv zeta.
  - apply groups_facts in Hg.
    destruct gs as [|g gs']; [discriminate|].
    inversion Hg as [|? ? [Hg0 [_ Hc0]] _]; subst.
    rewrite sw_group by assumption.
    rewrite split_join by (discriminate || apply groups_no_colon; exact Hg).
    rewrite flat_groups by (apply Hne; exact Hg).
    eexists. split; [reflexivity|]. split; [rewrite length_map; exact Hl|apply Hpad; exact Hg].
  - apply groups_facts in Hg. apply Forall_app in Hg as [HA HBf].
    destruct B as [|b B']; [congruence|].
    destruct A as [|g A'].
    + change (join (lit ":") [] ++ lit "::" ++ join (lit ":") (b :: B'))
        with (join (lit ":") ([] :: [] :: b :: B')).
      replace (starts_with (lit "::") (join (lit ":") ([] :: [] :: b :: B'))) with true by reflexivity.
      rewrite split_join.
      2: discriminate.
      2: { constructor; [intros []|constructor; [intros []|apply groups_no_colon; exact HBf]]. }
      cbn [tl]. change ([] :: b :: B') with ([[]] ++ b :: B'). rewrite flat_map_app.
      rewrite (flat_groups _ (b :: B')) by (apply Hne; exact HBf). cbn [flat_map app]. rewrite app_nil_r.
      eexists. split; [reflexivity|]. split.
      * rewrite length_app, repeat_length, length_map. cbn [List.length] in Hl |- *. lia.
      * apply Forall_app. split; [apply Hzs|apply Hpad; exact HBf].
    + inversion HA as [|? ? [Hg0 [_ Hc0]] _]; subst.
      assert (Ej : join (lit ":") (g :: A') ++ lit "::" ++ join (lit ":") (b :: B') =
                   join (lit ":") (g :: (A' ++ [] :: b :: B'))).
      { change (g :: (A' ++ [] :: b :: B')) with ((g :: A') ++ [] :: b :: B').
        rewrite join_app by discriminate. reflexivity. }
      rewrite Ej, sw_group by assumption. cbv beta iota.
      change (g :: (A' ++ [] :: b :: B')) with ((g :: A') ++ [] :: b :: B').
      rewrite split_join.
      2: { destruct A'; discriminate. }
      2: { apply Forall_app. split; [apply groups_no_colon; exact HA|].
           constructor; [intros []|apply groups_no_colon; exact HBf]. }
      change ([] :: b :: B') with ([[]] ++ b :: B'). rewrite !flat_map_app.
      rewrite (flat_groups _ (g :: A')) by (apply Hne; exact HA).
      rewrite (flat_groups _ (b :: B')) by (apply Hne; exact HBf). cbn [flat_map app]. rewrite app_nil_r.
      eexists. split; [reflexivity|]. split.
      * rewrite !length_app, repeat_length, !length_map. cbn [List.length] in Hl |- *.
        rewrite length_app. cbn [List.length]. lia.
      * apply Forall_app. split; [apply Hpad; exact HA|].
        apply Forall_app. split; [apply Hzs|apply Hpad; exact HBf].
Qed.

Lemma v6_text_no_pct : forall a, v6_text a -> ~ In "%"%char a.
Proof.
  assert (Hsep : Forall (fun c => c <> "%"%char) (lit ":")) by (repeat constructor; discriminate).
  assert (Hgs : forall gs, forallb hex_group gs = true -> Forall (Forall (fun c => c <> "%"%char)) gs).
  { intros gs H. apply groups_facts in H. eapply Forall_impl; [|exact H].
    intros g [_ [_ Hg]]. eapply Forall_impl; [|exact Hg]. intros c Hc. apply hex_char_other. exact Hc. }
  intros a Ha Hin.
  assert (Hall : Forall (fun c => c <> "%"%char) a).
  { destruct Ha as [[gs [_ [Hg ->]]]|[A [B [_ [_ [Hg ->]]]]]].
    - apply join_Forall; [exact Hsep|apply Hgs; exact Hg].
    - rewrite forallb_app in Hg. apply andb_prop in Hg as [HA HB].
      apply Forall_app. split; [apply join_Forall; [exact Hsep|apply Hgs; exact HA]|].
      apply Forall_app. split; [repeat constructor; discriminate|].
      apply join_Forall; [exact Hsep|apply Hgs; exact HB]. }
  rewrite Forall_forall in Hall. exact (Hall _ Hin eq_refl).
Qed.

Lemma concat_length4 : forall (P : list str), Forall (fun p => List.length p = 4%nat) P ->
  List.length (List.concat P) = (4 * List.length P)%nat.
Proof.
  induction P as [|p P IH]; intros H; [reflexivity|].
  inversion H as [|? ? Hp HP]; subst. cbn [List.concat List.length]. rewrite length_app, Hp, IH by exact HP.
  lia.
Qed.

(** eight groups of four hex digits decode to sixteen bytes *)
Lemma bytes16 : forall P, List.length P = 8%nat ->
  Forall (fun p => List.length p = 4%nat /\ Forall (fun c => hex_char c = true) p) P ->
  List.length (Buf.from_hex (join [] (split ":"%char (join (lit ":") P)))) = 16%nat.
Proof.
  intros P Hl H. rewrite split_join.
  - rewrite join_nil_concat. apply from_hex_hex.
    + rewrite concat_length4, Hl; [reflexivity|]. eapply Forall_impl; [|exact H]. intros p [Hp _]. exact Hp.
    + apply Forall_forall. intros c Hc. apply in_concat in Hc as [p [Hp Hc]].
      rewrite Forall_forall in H. destruct (H p Hp) as [_ Hp']. rewrite Forall_forall in Hp'. auto.
  - intros E. rewrite E in Hl. discriminate.
  - eapply Forall_impl; [|exact H]. intros p [_ Hp] Hin. rewrite Forall_forall in Hp.
    destruct (hex_char_other _ (Hp _ Hin)) as [E _]. congruence.
Qed.

(** [parse] of [::], or of a well-formed IPv6 text with or without a zone,
    possibly in brackets, gives sixteen bytes *)
Lemma parse_v6_text_length : forall s ip,
  (strip_brackets s = lit "::" \/
   exists a, v6_text a /\ (strip_brackets s = a \/ exists z, strip_brackets s = a ++ "%"%char :: z)) ->
  parse s = Ok ip -> List.length (m_bytes ip) = 16%nat.
Proof.
  intros s ip Hs Hp.
  destruct (isIPv4 (strip_brackets s)) eqn:H4; [exact (parse_v4_length s ip H4 Hp)|].
  unfold parse in Hp. cbv zeta in Hp. set (t := strip_brackets s) in *.
  destruct (str_eqb t (lit "::")) eqn:He; [injection Hp as <-; reflexivity|].
  destruct Hs as [Ht|[a [Ha Ht]]]; [rewrite Ht in He; discriminate|].
  rewrite H4 in Hp. destruct (isIPv6 t); [|discriminate].
  destruct (expand_v6_text a Ha) as [P [EP [LP FP]]].
  pose proof (v6_text_no_pct a Ha) as Hpa.
  unfold v6StringToBuffer in Hp. destruct Ht as [Ht|[z Ht]]; rewrite Ht in Hp.
  - replace (includes "%"%char a) with false in Hp.
    2:{ symmetry. apply Bool.not_true_iff_false. intros E. apply existsb_exists in E as [x [Hx Ex]].
        apply Ascii.eqb_eq in Ex. subst. exact (Hpa Hx). }
    cbv beta iota zeta in Hp. rewrite EP in Hp. injection Hp as <-. cbn [m_bytes].
    apply bytes16; assumption.
  - replace (includes "%"%char (a ++ "%"%char :: z)) with true in Hp.
    2:{ symmetry. apply existsb_exists. exists "%"%char. split; [|apply Ascii.eqb_refl].
        apply in_or_app. right. left. reflexivity. }
    rewrite split_app_sep in Hp by exact Hpa. cbv beta iota zeta in Hp.
    destruct (2 <? List.length (a :: split "%"%char z))%nat; [discriminate|].
    cbn [nth] in Hp. rewrite EP in Hp. injection Hp as <-. cbn [m_bytes].
    apply bytes16; assumption.
Qed.

End GroupFacts.

(** ** The claims *)
Module Claims.
Import Js IP Spec Facts HexFacts RadixFacts DecFacts LoopFacts TextFacts ParseFacts GroupFacts.

(** C1 (corrected): a canonical compressed IPv6 text of eight hextets, whose
    elided zero run does not end the address (unless the address is [::]) and
    which does not carry the IPv4-mapped prefix [0:0:0:0:0:ffff], parses to an
    address whose default text is the input and whose expanded text is the
    eight hextets in lowercase hex without leading zeros. *)
Theorem C1_compressed_roundtrip : forall hs, List.length hs = 8%nat -> Forall hextet_ok hs ->
  run_not_trailing hs -> firstn 6 hs <> [0; 0; 0; 0; 0; 65535] ->
  exists ip, parse (compressed_text hs) = Ok ip /\
             toString ip None = Ok (compressed_text hs) /\
             toString ip (Some Expanded) = Ok (expanded_text hs).
Proof.
  intros hs Hlen Hok Hnt Hm.
  assert (Hne : hs <> []) by (intros E; rewrite E in Hlen; discriminate).
  assert (Hf : is_mapped (bytes_of_hextets hs) = false).
  { apply Bool.not_true_iff_false. intros E. apply Hm. apply is_mapped_hextets; assumption. }
  exists {| m_bytes := bytes_of_hextets hs; m_isV4 := false; m_zone := None |}.
  split; [rewrite parse_compressed, Hf by assumption; reflexivity|].
  unfold toString. cbn [m_isV4 m_zone m_bytes is_enc].
  rewrite !v6ToString_hextets by assumption. cbn [negb]. split.
  - rewrite compressV6_hextets by assumption. reflexivity.
  - rewrite reformat_map, replace_all_texts by assumption. reflexivity.
Qed.

Lemma C1_witness :
  exists ip, parse (compressed_text [9735; 63664; 16393; 2053; 0; 0; 0; 8206]) = Ok ip /\
    toString ip None = Ok (compressed_text [9735; 63664; 16393; 2053; 0; 0; 0; 8206]) /\
    toString ip (Some Expanded) = Ok (expanded_text [9735; 63664; 16393; 2053; 0; 0; 0; 8206]).
Proof.
  apply C1_compressed_roundtrip.
  - reflexivity.
  - repeat constructor; unfold hextet_ok; lia.
  - intros i l E. vm_compute in E. injection E as <- <-. lia.
  - discriminate.
Defined.

(** C1: an IPv4-mapped text prints in dotted form, and a text whose zero run
    ends the address parses to twenty bytes and prints without its last colon. *)
Lemma C1_counterexample :
  compressed_text [0; 0; 0; 0; 0; 65535; 49320; 513] = lit "::ffff:c0a8:201" /\
  parse (lit "::ffff:c0a8:201") =
    Ok {| m_bytes := repeat 0 10 ++ [255; 255; 192; 168; 2; 1]; m_isV4 := true; m_zone := None |} /\
  toString {| m_bytes := repeat 0 10 ++ [255; 255; 192; 168; 2; 1]; m_isV4 := true; m_zone := None |} None
    = Ok (lit "192.168.2.1") /\
  compressed_text [9735; 63664; 16393; 2053; 0; 0; 0; 0] = lit "2607:f8b0:4009:805::" /\
  parse (lit "2607:f8b0:4009:805::") =
    Ok {| m_bytes := [38; 7; 248; 176; 64; 9; 8; 5] ++ repeat 0 12; m_isV4 := false; m_zone := None |} /\
  toString {| m_bytes := [38; 7; 248; 176; 64; 9; 8; 5] ++ repeat 0 12; m_isV4 := false; m_zone := None |} None
    = Ok (lit "2607:f8b0:4009:805:").
Proof. vm_compute. repeat split. Qed.

(** C2 (corrected): sixteen bytes for the [::] value, for every text that
    takes the IPv4 path of [parse], for [fromDecimal] of every value in
    [0, 2^128), and for [parse] of every text that is [::] or a well-formed
    IPv6 text (eight hex groups, or hex groups around one [::] with a group
    after it), with or without a zone, with or without enclosing brackets. *)
Theorem C2_sixteen_bytes :
  List.length (m_bytes new_IP) = 16%nat /\
  (forall s ip, isIPv4 (strip_brackets s) = true -> parse s = Ok ip -> List.length (m_bytes ip) = 16%nat) /\
  (forall n fv ip, 0 <= n < 2 ^ 128 -> fromDecimal n fv = Ok ip -> List.length (m_bytes ip) = 16%nat) /\
  (forall s ip,
     (strip_brackets s = lit "::" \/
      exists a, v6_text a /\ (strip_brackets s = a \/ exists z, strip_brackets s = a ++ "%"%char :: z)) ->
     parse s = Ok ip -> List.length (m_bytes ip) = 16%nat).
Proof.
  split; [reflexivity|]. split; [exact parse_v4_length|]. split.
  - intros n fv ip Hn Hf. destruct (fromDecimal_small n fv Hn) as [Hb [_ [_ E]]].
    rewrite E in Hf. clear E.
    destruct (negb fv && _); injection Hf as <-; [|exact Hb].
    change (List.length (mappedV4Prefix ++ skipn 12 (Buf.from_hex (padStart 32 "0"%char (int_to_string 16 n)))) = 16%nat).
    rewrite length_app, length_skipn, Hb, mappedV4Prefix_length. reflexivity.
  - exact parse_v6_text_length.
Qed.

Lemma C2_witness :
  List.length (m_bytes {| m_bytes := repeat 0 10 ++ [255; 255; 192; 168; 2; 1];
                           m_isV4 := true; m_zone := None |}) = 16%nat /\
  List.length (m_bytes {| m_bytes := [254; 128] ++ repeat 0 13 ++ [1];
                           m_isV4 := false; m_zone := Some (lit "eth0") |}) = 16%nat.
Proof.
  split.
  - apply (proj1 (proj2 C2_sixteen_bytes) (lit "192.168.2.1")); vm_compute; reflexivity.
  - apply (proj2 (proj2 (proj2 C2_sixteen_bytes)) (lit "[fe80::1%eth0]")).
    + right. exists (lit "fe80::1"). split.
      * right. exists [lit "fe80"], [lit "1"].
        split; [discriminate|split; [cbn; lia|split; [vm_compute; reflexivity|reflexivity]]].
      * right. exists (lit "eth0"). vm_compute. reflexivity.
    + vm_compute. reflexivity.
Defined.

(** C2: [parse "1"] gives two bytes, [fromDecimal] of [2^132] seventeen,
    [parse "1::"] twenty-six and [parse "::%eth0"] twenty-eight. *)
Lemma C2_counterexample :
  parse (lit "1") = Ok {| m_bytes := [0; 1]; m_isV4 := false; m_zone := None |} /\
  fromDecimal (2 ^ 132) false = Ok {| m_bytes := 16 :: repeat 0 16; m_isV4 := false; m_zone := None |} /\
  parse (lit "1::") = Ok {| m_bytes := [0; 1] ++ repeat 0 24; m_isV4 := false; m_zone := None |} /\
  parse (lit "::%eth0") = Ok {| m_bytes := repeat 0 28; m_isV4 := false; m_zone := Some (lit "eth0") |}.
Proof. vm_compute. repeat split; reflexivity. Qed.

(** C3 (corrected): [fromDecimal] never fails; a value of 2^128 or more is
    not rejected but decoded from all of its hex digits, with [isV4] false. *)
Theorem C3_fromDecimal_never_fails :
  (forall n fv, exists ip, fromDecimal n fv = Ok ip) /\
  (forall n fv, 2 ^ 128 <= n ->
     fromDecimal n fv =
     Ok {| m_bytes := Buf.from_hex (int_to_string 16 n); m_isV4 := false; m_zone := None |}).
Proof.
  split.
  - intros n fv. unfold fromDecimal. destruct (negb fv && _); eexists; reflexivity.
  - exact fromDecimal_large.
Qed.

Lemma C3_witness :
  fromDecimal (2 ^ 128) true =
  Ok {| m_bytes := Buf.from_hex (int_to_string 16 (2 ^ 128)); m_isV4 := false; m_zone := None |}.
Proof. apply (proj2 C3_fromDecimal_never_fails). lia. Defined.

(** C3: [fromDecimal 2^128] returns an address instead of a [RangeError]. *)
Lemma C3_counterexample :
  fromDecimal (2 ^ 128) false = Ok {| m_bytes := 16 :: repeat 0 15; m_isV4 := false; m_zone := None |}.
Proof. vm_compute. reflexivity. Qed.

(** C4 (confirmed): for every [n] in [0, 2^128), [fromDecimal n] succeeds and
    its [decimal] is [n]; below 2^32 the address is IPv4, its first twelve
    bytes being the mapped prefix. *)
Theorem C4_decimal_roundtrip : forall n, 0 <= n < 2 ^ 128 ->
  exists ip, fromDecimal n false = Ok ip /\ decimal ip = n /\
             (n < 2 ^ 32 -> m_isV4 ip = true /\ firstn 12 (m_bytes ip) = mappedV4Prefix).
Proof.
  intros n Hn. destruct (fromDecimal_small n false Hn) as [Hb [Hv [Hsm E]]].
  rewrite E. clear E. cbn [negb andb].
  set (bytes := Buf.from_hex (padStart 32 "0"%char (int_to_string 16 n))) in *.
  destruct (Buf.equals (firstn 12 bytes) (Buf.alloc 12)) eqn:Eq.
  - eexists. split; [reflexivity|]. apply equals_spec in Eq. unfold decimal. cbn [m_isV4 m_bytes].
    rewrite skipn_app, mappedV4Prefix_length, Nat.sub_diag, skipn_all2, skipn_O
      by (rewrite mappedV4Prefix_length; lia).
    rewrite app_nil_l. split; [rewrite zeros_prefix_value; assumption|].
    intros _. split; [reflexivity|].
    rewrite firstn_app, mappedV4Prefix_length, Nat.sub_diag, firstn_O, app_nil_r.
    apply firstn_all2. rewrite mappedV4Prefix_length. lia.
  - eexists. split; [reflexivity|]. split; [exact Hv|].
    intros Hs. specialize (Hsm Hs). unfold Buf.alloc in Eq.
    rewrite Hsm in Eq. rewrite (proj2 (equals_spec _ _) eq_refl) in Eq. discriminate.
Qed.

Lemma C4_witness :
  exists ip, fromDecimal 3232236033 false = Ok ip /\ decimal ip = 3232236033 /\
             (3232236033 < 2 ^ 32 -> m_isV4 ip = true /\ firstn 12 (m_bytes ip) = mappedV4Prefix).
Proof. apply C4_decimal_roundtrip. lia. Defined.

(** C5 (corrected): [fromDecimal] never sets a zone; [parse] sets one only
    on its IPv6 path for a text holding ['%'], taking the piece after the
    ['%'], and there [isV4] is the mapped-prefix test of the bytes, so that
    an IPv4-mapped text with a zone gives [isV4] together with a zone. *)
Theorem C5_zone_origin :
  (forall n fv ip, fromDecimal n fv = Ok ip -> m_zone ip = None) /\
  (forall s ip, parse s = Ok ip -> m_zone ip <> None ->
     str_eqb (strip_brackets s) (lit "::") = false /\ isIPv4 (strip_brackets s) = false /\
     includes "%"%char (strip_brackets s) = true /\
     m_zone ip = Some (nth 1 (split "%"%char (strip_brackets s)) []) /\
     m_isV4 ip = is_mapped (m_bytes ip)).
Proof.
  split.
  - intros n fv ip H. unfold fromDecimal in H. destruct (negb fv && _); injection H as <-; reflexivity.
  - intros s ip Hp Hz. unfold parse in Hp. set (a := strip_brackets s) in *.
    destruct (str_eqb a (lit "::")).
    { injection Hp as <-. exfalso. apply Hz. reflexivity. }
    destruct (isIPv4 a).
    { injection Hp as <-. exfalso. apply Hz. reflexivity. }
    destruct (isIPv6 a); [|discriminate].
    unfold v6StringToBuffer in Hp. destruct (includes "%"%char a).
    + destruct (2 <? List.length (split "%"%char a))%nat; [discriminate|].
      injection Hp as <-. repeat split; reflexivity.
    + injection Hp as <-. exfalso. apply Hz. reflexivity.
Qed.

Lemma C5_witness :
  str_eqb (strip_brackets (lit "fe80::1%eth0")) (lit "::") = false /\
  isIPv4 (strip_brackets (lit "fe80::1%eth0")) = false /\
  includes "%"%char (strip_brackets (lit "fe80::1%eth0")) = true /\
  Some (lit "eth0") = Some (nth 1 (split "%"%char (strip_brackets (lit "fe80::1%eth0"))) []) /\
  false = is_mapped [254; 128; 0; 0; 0; 0; 0; 0; 0; 0; 0; 0; 0; 0; 0; 1].
Proof.
  apply (proj2 C5_zone_origin (lit "fe80::1%eth0")
           {| m_bytes := [254; 128; 0; 0; 0; 0; 0; 0; 0; 0; 0; 0; 0; 0; 0; 1];
              m_isV4 := false; m_zone := Some (lit "eth0") |}).
  - vm_compute. reflexivity.
  - discriminate.
Defined.

(** C5: the mapped text [::ffff:c0a8:201%eth0] gives [isV4] with a zone. *)
Lemma C5_counterexample :
  parse (lit "::ffff:c0a8:201%eth0") =
  Ok {| m_bytes := repeat 0 10 ++ [255; 255; 192; 168; 2; 1]; m_isV4 := true;
        m_zone := Some (lit "eth0") |}.
Proof. vm_compute. reflexivity. Qed.

(** C6 (confirmed): [parse "0:0:0:0:0:ffff:c0a8:201"] is an IPv4 address
    whose default text is [192.168.2.1]. *)
Theorem C6_mapped_dotted :
  exists ip, parse (lit "0:0:0:0:0:ffff:c0a8:201") = Ok ip /\ m_isV4 ip = true /\
             toString ip None = Ok (lit "192.168.2.1").
Proof.
  exists {| m_bytes := repeat 0 10 ++ [255; 255; 192; 168; 2; 1]; m_isV4 := true; m_zone := None |}.
  vm_compute. repeat split.
Qed.

(** C7 (confirmed): in the default style the loop of [compressV6] elides the
    longest run of zero hextets of length 2 to 8, the leftmost among runs of
    that length, and no run when there is none; and the text
    [2607:f8b0:4009:805:0:0:0:200e] prints as [2607:f8b0:4009:805::200e]. *)
Theorem C7_longest_leftmost_run :
  (forall bs, List.length bs = 16%nat -> Forall byte_ok bs ->
   let hs := hextets bs in
   v6ToString bs false = Ok (compressV6 (join (lit ":") (map hex4 hs))) /\
   compress_loop 8 (repeat (lit "0000") 8) (join (lit ":") (map hex4 hs)) =
     match longest_zero_run hs with
     | None => join (lit ":") (map hex4 hs)
     | Some (i, l) => join (lit ":") (map hex4 (firstn i hs) ++ [[]] ++ map hex4 (skipn (i + l) hs))
     end /\
   (forall i l, longest_zero_run hs = Some (i, l) ->
      (2 <= l)%nat /\ zero_run hs i l /\ (forall j l', zero_run hs j l' -> (l' <= l)%nat) /\
      (forall j, zero_run hs j l -> (i <= j)%nat)) /\
   (longest_zero_run hs = None -> forall j l', zero_run hs j l' -> (l' < 2)%nat)) /\
  (exists ip, parse (lit "2607:f8b0:4009:805:0:0:0:200e") = Ok ip /\
              toString ip None = Ok (lit "2607:f8b0:4009:805::200e")).
Proof.
  split.
  - intros bs Hlen Hok hs.
    destruct (bytes_of_hextets_of_bytes 8 bs Hlen Hok) as [Hbs [Hhok Hhlen]]. fold hs in Hbs, Hhok, Hhlen.
    assert (Hne : hs <> []) by (intros E; rewrite E in Hhlen; discriminate).
    split; [|split].
    + assert (E : v6ToString bs false = v6ToString (bytes_of_hextets hs) false) by (rewrite Hbs; reflexivity).
      rewrite E, v6ToString_hextets by assumption. reflexivity.
    + apply compress_loop_hextets; assumption.
    + exact (longest_zero_run_spec hs Hhlen).
  - exists {| m_bytes := [38; 7; 248; 176; 64; 9; 8; 5; 0; 0; 0; 0; 0; 0; 32; 14];
              m_isV4 := false; m_zone := None |}.
    vm_compute. split; reflexivity.
Qed.

Lemma C7_witness :
  v6ToString [38; 7; 248; 176; 64; 9; 8; 5; 0; 0; 0; 0; 0; 0; 32; 14] false =
  Ok (compressV6 (join (lit ":") (map hex4 (hextets [38; 7; 248; 176; 64; 9; 8; 5; 0; 0; 0; 0; 0; 0; 32; 14])))).
Proof.
  apply (proj1 (proj1 C7_longest_leftmost_run [38; 7; 248; 176; 64; 9; 8; 5; 0; 0; 0; 0; 0; 0; 32; 14]
                 eq_refl ltac:(repeat constructor; unfold byte_ok; lia))).
Defined.

(** C8 (code bug): [parse "192.168.2."] does not fail: the text misses the
    IPv4 pattern, passes the IPv6 character test, and decodes to one byte. *)
Theorem C8_trailing_dot_parses :
  parse (lit "192.168.2.") = Ok {| m_bytes := [25]; m_isV4 := false; m_zone := None |}.
Proof. vm_compute. reflexivity. Qed.

(** C9 (corrected): a host holding ['.'] that splits on [':'] into other
    than two pieces is not rejected: its first piece is returned with port 0;
    a host without ['.'] that lacks ['['] or [']'] fails with the split error,
    and so does a bracketed host whose nonempty rest after the first [']']
    splits on [':'] into other than two pieces; in particular the unbracketed
    text [2607:f8b0:4009:805::200e:9999] fails. *)
Theorem C9_split_failures :
  (forall host, includes "."%char host = true ->
     (List.length (split ":"%char host) <> 2)%nat ->
     splitHostPort host = Ok (nth 0 (split ":"%char host) [], Num 0)) /\
  (forall host, includes "."%char host = false ->
     includes "["%char host && includes "]"%char host = false ->
     splitHostPort host = Throw split_error) /\
  (forall host, includes "."%char host = false ->
     includes "["%char host = true -> includes "]"%char host = true ->
     skipn (index_of_char "]"%char host + 1) host <> [] ->
     (List.length (split ":"%char (skipn (index_of_char "]"%char host + 1) host)) <> 2)%nat ->
     splitHostPort host = Throw split_error) /\
  splitHostPort (lit "2607:f8b0:4009:805::200e:9999") = Throw split_error.
Proof.
  split; [|split; [|split]].
  - intros host Hd H2. unfold splitHostPort. rewrite Hd.
    destruct (Nat.eqb_spec (List.length (split ":"%char host)) 2); [contradiction|reflexivity].
  - intros host Hd Hb. unfold splitHostPort. rewrite Hd, Hb. reflexivity.
  - intros host Hd Hl Hr Hne H2. unfold splitHostPort. rewrite Hd, Hl, Hr. cbv beta iota zeta.
    destruct (skipn (index_of_char "]"%char host + 1) host) as [|c t]; [congruence|].
    destruct (Nat.eqb_spec (List.length (split ":"%char (c :: t))) 2); [contradiction|reflexivity].
  - vm_compute. reflexivity.
Qed.

Lemma C9_witness :
  splitHostPort (lit "1.2.3.4:5:6") = Ok (nth 0 (split ":"%char (lit "1.2.3.4:5:6")) [], Num 0) /\
  splitHostPort (lit "[::1]:1:2") = Throw split_error.
Proof.
  destruct C9_split_failures as [H1 [_ [H4 _]]]. split.
  - apply H1; vm_compute; [reflexivity|discriminate].
  - apply H4; vm_compute; [reflexivity|reflexivity|reflexivity|discriminate|discriminate].
Defined.

(** C9: a dotted host with three pieces and a bracketed host with a
    non-numeric port both return a pair. *)
Lemma C9_counterexample :
  splitHostPort (lit "1.2.3.4:5:6") = Ok (lit "1.2.3.4", Num 0) /\
  splitHostPort (lit "[2607:f8b0:4009:805::200e]:dead") = Ok (lit "[2607:f8b0:4009:805::200e]", NaN).
Proof. vm_compute. split; reflexivity. Qed.

(** C10 (confirmed): [parse] throws only when the text splits on ['%'] into
    more than two pieces, or when the text without its brackets is not [::],
    misses the IPv4 pattern and holds no character of [[0-9a-f:%]]; every
    other text, such as [hello], gives an address. *)
Theorem C10_parse_errors :
  (forall s,
   (forall e, parse s = Throw e ->
      (2 < List.length (split "%"%char s))%nat \/
      (str_eqb (strip_brackets s) (lit "::") = false /\ isIPv4 (strip_brackets s) = false /\
       forallb (fun c => negb (existsb (Ascii.eqb c) (lit "0123456789abcdef:%"))) (strip_brackets s) = true)) /\
   (~ (2 < List.length (split "%"%char s))%nat ->
    ~ (str_eqb (strip_brackets s) (lit "::") = false /\ isIPv4 (strip_brackets s) = false /\
       forallb (fun c => negb (existsb (Ascii.eqb c) (lit "0123456789abcdef:%"))) (strip_brackets s) = true) ->
    exists ip, parse s = Ok ip)) /\
  (exists ip, parse (lit "hello") = Ok ip).
Proof.
  split; [|eexists; vm_compute; reflexivity].
  intros s. rewrite <- (split_pct_strip s). unfold parse. cbv zeta.
  set (a := strip_brackets s).
  destruct (str_eqb a (lit "::")) eqn:E1.
  { split; [intros e H; discriminate H|intros _ _; eexists; reflexivity]. }
  destruct (isIPv4 a) eqn:E2.
  { split; [intros e H; discriminate H|intros _ _; eexists; reflexivity]. }
  rewrite isIPv6_class.
  destruct (forallb (fun c => negb (existsb (Ascii.eqb c) (lit "0123456789abcdef:%"))) a) eqn:E3;
    cbn [negb].
  { split; [intros; right; auto|intros _ HB; exfalso; apply HB; auto]. }
  unfold v6StringToBuffer. destruct (includes "%"%char a).
  - destruct (2 <? List.length (split "%"%char a))%nat eqn:E4.
    + apply Nat.ltb_lt in E4.
      split; [intros; left; exact E4|intros HA; contradiction].
    + split; [intros e H; discriminate H|intros _ _; eexists; reflexivity].
  - split; [intros e H; discriminate H|intros _ _; eexists; reflexivity].
Qed.

Lemma C10_witness : exists ip, parse (lit "hello") = Ok ip.
Proof.
  apply (proj2 (proj1 C10_parse_errors (lit "hello"))); vm_compute; [lia|].
  intros [_ [_ F]]. discriminate F.
Defined.

End Claims.

(** *** Decimal texts of small numbers *)
Module V4Facts.
Import Js IP Spec Facts HexFacts RadixFacts DecFacts LoopFacts TextFacts ParseFacts.

Lemma dec_text_facts : forall n, 0 <= n < 1000 ->
  (1 <= List.length (int_to_string 10 n) <= 3)%nat /\
  forallb is_digit (int_to_string 10 n) = true /\
  parseInt (int_to_string 10 n) 10 = Num n /\
  string_to_number (int_to_string 10 n) = Num n.
Proof.
  intros n Hn.
  pose proof (all_from_spec 1000 0 (fun n => (1 <=? List.length (int_to_string 10 n))%nat &&
                        (List.length (int_to_string 10 n) <=? 3)%nat &&
                        forallb is_digit (int_to_string 10 n) &&
                        match parseInt (int_to_string 10 n) 10 with Num m => m =? n | NaN => false end &&
                        match string_to_number (int_to_string 10 n) with Num m => m =? n | NaN => false end)
                ltac:(vm_compute; reflexivity) n ltac:(lia)) as H.
  cbv beta in H. repeat rewrite Bool.andb_true_iff in H.
  destruct H as [[[[H1 H2] H3] H4] H5].
  apply Nat.leb_le in H1. apply Nat.leb_le in H2.
  destruct (parseInt (int_to_string 10 n) 10) as [m|]; [|discriminate].
  destruct (string_to_number (int_to_string 10 n)) as [m'|]; [|discriminate].
  apply Z.eqb_eq in H4. apply Z.eqb_eq in H5. subst. auto.
Qed.

Lemma digit_other : forall c, is_digit c = true ->
  Ascii.eqb c "["%char = false /\ Ascii.eqb c "."%char = false /\ Ascii.eqb c ":"%char = false /\
  Ascii.eqb c "]"%char = false /\ Ascii.eqb c "%"%char = false.
Proof.
  intros c Hc.
  pose proof (all_ascii_spec (fun c => negb (is_digit c) ||
                 negb (Ascii.eqb c "["%char || Ascii.eqb c "."%char || Ascii.eqb c ":"%char ||
                       Ascii.eqb c "]"%char || Ascii.eqb c "%"%char))
                ltac:(vm_compute; reflexivity) c) as H.
  cbv beta in H. rewrite Hc in H. cbn [negb orb] in H.
  destruct (Ascii.eqb c "["%char), (Ascii.eqb c "."%char), (Ascii.eqb c ":"%char),
           (Ascii.eqb c "]"%char), (Ascii.eqb c "%"%char); try discriminate; auto.
Qed.

Lemma digits_not_in : forall t x, forallb is_digit t = true ->
  In x (lit "[.:]%") -> ~ In x t.
Proof.
  intros t x Ht Hx Hin. rewrite forallb_forall in Ht. destruct (digit_other x (Ht x Hin)) as [A [B [C [D E]]]].
  vm_compute in Hx. destruct Hx as [<-|[<-|[<-|[<-|[<-|[]]]]]];
    [rewrite Ascii.eqb_refl in A|rewrite Ascii.eqb_refl in B|rewrite Ascii.eqb_refl in C|
     rewrite Ascii.eqb_refl in D|rewrite Ascii.eqb_refl in E]; discriminate.
Qed.

Lemma digits13_app : forall k t r, (1 <= List.length t <= 3)%nat -> forallb is_digit t = true ->
  k r = true -> digits13 k (t ++ r) = true.
Proof.
  intros k t r Hl Hd Hk.
  destruct t as [|d1 [|d2 [|d3 [|d4 t]]]]; cbn [List.length] in Hl; try lia;
    cbn [forallb] in Hd; repeat rewrite Bool.andb_true_iff in Hd; unfold digits13; cbn [app].
  - destruct Hd as [H1 _]. rewrite H1, Hk. reflexivity.
  - destruct Hd as [H1 [H2 _]]. rewrite H1, H2, Hk, !orb_true_r. reflexivity.
  - destruct Hd as [H1 [H2 [H3 _]]]. rewrite H1, H2, H3, Hk, !orb_true_r. reflexivity.
Qed.

Lemma dotted_join : forall t1 t2 t3 t4,
  join (lit ".") [t1; t2; t3; t4] = t1 ++ "."%char :: t2 ++ "."%char :: t3 ++ "."%char :: t4.
Proof. intros. rewrite !join_cons2. reflexivity. Qed.

Lemma test_here : forall p s, p s = true -> test_somewhere p s = true.
Proof. intros p [|c t] H; cbn [test_somewhere]; rewrite H; reflexivity. Qed.

Lemma dotted_isIPv4 : forall t1 t2 t3 t4,
  Forall (fun t => (1 <= List.length t <= 3)%nat /\ forallb is_digit t = true) [t1; t2; t3; t4] ->
  isIPv4 (join (lit ".") [t1; t2; t3; t4]) = true.
Proof.
  intros t1 t2 t3 t4 H. inversion H as [|? ? [L1 D1] G1]; subst. inversion G1 as [|? ? [L2 D2] G2]; subst.
  inversion G2 as [|? ? [L3 D3] G3]; subst. inversion G3 as [|? ? [L4 D4] _]; subst.
  rewrite dotted_join. unfold isIPv4. apply test_here. unfold v4_pattern_at.
  apply digits13_app; [assumption|assumption|]. cbn [dot]. rewrite Ascii.eqb_refl. cbn [andb].
  apply digits13_app; [assumption|assumption|]. cbn [dot]. rewrite Ascii.eqb_refl. cbn [andb].
  apply digits13_app; [assumption|assumption|]. cbn [dot]. rewrite Ascii.eqb_refl. cbn [andb].
  rewrite <- (app_nil_r t4). apply digits13_app; [assumption|assumption|reflexivity].
Qed.

(** [parse] of four decimal numbers below 1000 joined by dots: each number
    is stored modulo 256 after the mapped prefix *)
Lemma parse_dotted : forall a b c d, 0 <= a < 1000 -> 0 <= b < 1000 -> 0 <= c < 1000 -> 0 <= d < 1000 ->
  parse (join (lit ".") (map (int_to_string 10) [a; b; c; d])) =
  Ok {| m_bytes := mappedV4Prefix ++ [a mod 256; b mod 256; c mod 256; d mod 256];
        m_isV4 := true; m_zone := None |}.
Proof.
  intros a b c d Ha Hb Hc Hd.
  destruct (dec_text_facts a Ha) as [La [Da [Pa _]]]. destruct (dec_text_facts b Hb) as [Lb [Db [Pb _]]].
  destruct (dec_text_facts c Hc) as [Lc [Dc [Pc _]]]. destruct (dec_text_facts d Hd) as [Ld [Dd [Pd _]]].
  cbn [map].
  set (ta := int_to_string 10 a) in *. set (tb := int_to_string 10 b) in *.
  set (tc := int_to_string 10 c) in *. set (td := int_to_string 10 d) in *.
  assert (H4 : isIPv4 (join (lit ".") [ta; tb; tc; td]) = true)
    by (apply dotted_isIPv4; repeat (apply Forall_cons; [split; assumption|]); apply Forall_nil).
  destruct ta as [|x ta'] eqn:Eta; [cbn in La; lia|].
  assert (Hx : is_digit x = true) by (cbn [forallb] in Da; apply andb_prop in Da; tauto).
  destruct (digit_other x Hx) as [Xb [_ [Xc _]]].
  assert (Hs : strip_brackets (join (lit ".") [x :: ta'; tb; tc; td]) = join (lit ".") [x :: ta'; tb; tc; td]).
  { rewrite dotted_join. cbn [app]. unfold strip_brackets. rewrite Xb. reflexivity. }
  assert (He : str_eqb (join (lit ".") [x :: ta'; tb; tc; td]) (lit "::") = false).
  { rewrite dotted_join. cbn [app lit list_ascii_of_string str_eqb]. rewrite Xc. reflexivity. }
  unfold parse. cbv zeta. rewrite Hs, He, H4. f_equal. f_equal.
  unfold v4StringToBuffer. rewrite split_join.
  - cbn [map]. rewrite Pa, Pb, Pc, Pd. reflexivity.
  - discriminate.
  - repeat (apply Forall_cons; [apply digits_not_in; [assumption|vm_compute; tauto]|]).
    apply Forall_nil.
Qed.

(** the bytes of an IPv4 address print back as their decimal texts *)
Lemma v4ToString_bytes : forall bs, Forall byte_ok (skipn 12 bs) ->
  v4ToString bs false = Ok (join (lit ".") (map (int_to_string 10) (skipn 12 bs))).
Proof.
  intros bs H. unfold v4ToString. cbn [negb]. f_equal. f_equal. f_equal.
  rewrite <- (map_id (skipn 12 bs)) at 2. apply map_ext_in. intros x Hx.
  rewrite Forall_forall in H. specialize (H x Hx). unfold byte_ok in H.
  destruct (dec_text_facts x ltac:(lia)) as [_ [_ [_ E]]]. rewrite E. cbn [Buf.to_uint8].
  apply Z.mod_small. exact H.
Qed.

(** the value of the hex text of bytes is their big-endian value *)
Lemma hex_value : forall bs acc, Forall byte_ok bs ->
  fold_left (fun acc c => acc * 16 + match digit_val 16 c with Some d => d | None => 0 end)
    (Buf.to_hex bs) acc =
  fold_left (fun acc b => acc * 256 + b) bs acc.
Proof.
  induction bs as [|b bs IH]; intros acc H; [reflexivity|].
  inversion H as [|? ? Hb Hbs]; subst. unfold byte_ok in Hb.
  rewrite to_hex_cons. cbn [fold_left].
  assert (Hq : 0 <= b / 16 < 16) by (split; [apply Z.div_pos|apply Z.div_lt_upper_bound]; lia).
  assert (Hr : 0 <= b mod 16 < 16) by (apply Z.mod_pos_bound; lia).
  rewrite !digit_char_val by assumption. rewrite IH by exact Hbs. f_equal.
  pose proof (Z.div_mod b 16 ltac:(lia)). lia.
Qed.

Lemma hex_single : forall x d, digit_val 16 x = Some d -> BigInteger_of_hex [x] = d.
Proof. intros x d E. unfold BigInteger_of_hex. cbn [fold_left]. rewrite E. lia. Qed.

(** a lowercase hex text is determined by its length and value *)
Lemma hex_unique : forall s t, List.length s = List.length t ->
  forallb is_lower_hex s = true -> forallb is_lower_hex t = true ->
  BigInteger_of_hex s = BigInteger_of_hex t -> s = t.
Proof.
  induction s as [|x s IH] using rev_ind; intros t Hl Hs Ht Hv.
  - destruct t; [reflexivity|discriminate].
  - destruct t as [|y t' _] using rev_ind; [rewrite length_app in Hl; cbn in Hl; lia|].
    rewrite !length_app in Hl. cbn [List.length] in Hl.
    rewrite forallb_app in Hs, Ht. cbn [forallb] in Hs, Ht.
    apply andb_prop in Hs as [Hs Hx]. apply andb_prop in Ht as [Ht Hy].
    rewrite andb_true_r in Hx, Hy.
    destruct (lower_hex_val x Hx) as [dx [Ex [Bx Cx]]]. destruct (lower_hex_val y Hy) as [dy [Ey [By Cy]]].
    rewrite !BigInteger_of_hex_app, (hex_single x dx Ex), (hex_single y dy Ey) in Hv.
    cbn [List.length Z.of_nat] in Hv. rewrite Z.pow_1_r in Hv.
    assert (dx = dy /\ BigInteger_of_hex s = BigInteger_of_hex t') as [-> Hst] by lia.
    rewrite (IH t') by (lia || assumption). congruence.
Qed.

Lemma hex_bound : forall s, forallb is_lower_hex s = true ->
  0 <= BigInteger_of_hex s < 16 ^ Z.of_nat (List.length s).
Proof.
  induction s as [|x s IH] using rev_ind; intros Hs; [cbn; lia|].
  rewrite forallb_app in Hs. cbn [forallb] in Hs. apply andb_prop in Hs as [Hs Hx].
  rewrite andb_true_r in Hx. destruct (lower_hex_val x Hx) as [dx [Ex [Bx _]]].
  rewrite BigInteger_of_hex_app, (hex_single x dx Ex), length_app. cbn [List.length].
  rewrite Nat2Z.inj_add, Z.pow_add_r by lia. specialize (IH Hs). cbn [Z.of_nat]. rewrite Z.pow_1_r in *.
  nia.
Qed.

(** [Buffer.from(value.toString(16).padStart(32, '0'), 'hex')] gives back
    sixteen bytes whose value it is *)
Lemma pad_hex_bytes : forall bs, List.length bs = 16%nat -> Forall byte_ok bs ->
  Buf.from_hex (padStart 32 "0"%char (int_to_string 16 (BigInteger_of_hex (Buf.to_hex bs)))) = bs.
Proof.
  intros bs Hlen Hok.
  assert (Hlo : forallb is_lower_hex (Buf.to_hex bs) = true) by (apply to_hex_lower; exact Hok).
  assert (Hl32 : List.length (Buf.to_hex bs) = 32%nat) by (rewrite to_hex_length, Hlen; reflexivity).
  set (n := BigInteger_of_hex (Buf.to_hex bs)).
  assert (Hn : 0 <= n < 2 ^ 128).
  { pose proof (hex_bound _ Hlo) as B. rewrite Hl32 in B. exact B. }
  destruct (int_to_string_hex n ltac:(lia)) as [_ [HDl [HDv _]]].
  assert (HD : (List.length (int_to_string 16 n) <= 32)%nat)
    by (apply int_to_string_length_le; [lia|exact (proj2 Hn)|lia]).
  rewrite padStart_le by exact HD.
  replace (repeat "0"%char (32 - List.length (int_to_string 16 n)) ++ int_to_string 16 n)
    with (Buf.to_hex bs).
  - apply from_hex_to_hex. exact Hok.
  - apply hex_unique.
    + rewrite length_app, repeat_length. lia.
    + exact Hlo.
    + rewrite forallb_app, zeros_lower, HDl. reflexivity.
    + rewrite BigInteger_of_hex_app, BigInteger_of_hex_zeros, HDv. fold n. lia.
Qed.

(** [v6ToString] throws exactly on buffers shorter than two bytes *)
Lemma v6ToString_short : forall bs e, Forall byte_ok bs ->
  ((List.length bs < 2)%nat -> v6ToString bs e = Throw (lit "Could not encode IP address to string")) /\
  ((2 <= List.length bs)%nat -> exists s, v6ToString bs e = Ok s).
Proof.
  intros bs e H. destruct bs as [|b0 [|b1 rest]].
  - split; [reflexivity|cbn; lia].
  - split; [reflexivity|cbn; lia].
  - split; [cbn; lia|intros _].
    inversion H as [|? ? H0 H']; subst. inversion H' as [|? ? H1 _]; subst.
    unfold byte_ok in H0, H1.
    assert (Q : forall b, 0 <= b < 256 -> 0 <= b / 16 < 16 /\ 0 <= b mod 16 < 16).
    { intros b Hb. split; [split; [apply Z.div_pos|apply Z.div_lt_upper_bound]; lia|].
      apply Z.mod_pos_bound. lia. }
    destruct (Q b0 H0) as [Q0 R0]. destruct (Q b1 H1) as [Q1 R1].
    unfold v6ToString, match_hex4_global. rewrite !to_hex_cons. cbn [List.length match_hex4 forallb].
    rewrite !digit_char_hex by assumption. cbn [andb]. destruct (negb e); eexists; reflexivity.
Qed.

Lemma join_snoc_nil : forall (X : list str), X <> [] -> join (lit ":") (X ++ [[]]) = join (lit ":") X ++ lit ":".
Proof.
  intros X H. rewrite join_app by (exact H || discriminate). cbn [join]. rewrite app_nil_r. reflexivity.
Qed.

(** a zero run ending the address leaves a trailing colon *)
Lemma compressV6_trailing : forall hs i l, List.length hs = 8%nat -> Forall hextet_ok hs ->
  longest_zero_run hs = Some (i, l) -> (i + l = 8)%nat -> (0 < i)%nat ->
  compressV6 (join (lit ":") (map hex4 hs)) = join (lit ":") (map hextet_text (firstn i hs)) ++ lit ":".
Proof.
  intros hs i l Hlen Hok E Hil Hi.
  assert (Hne : hs <> []) by (intros F; rewrite F in Hlen; discriminate).
  unfold compressV6. rewrite compress_loop_hextets by assumption. rewrite E.
  unfold join_nullable. rewrite Hil, skipn_all2 by lia. cbn [map app].
  assert (HokA : Forall hextet_ok (firstn i hs))
    by (rewrite <- (firstn_skipn i hs) in Hok; apply Forall_app in Hok; tauto).
  destruct (firstn i hs) as [|a0 A'] eqn:Ea.
  { apply (f_equal (@List.length Z)) in Ea. rewrite length_firstn, Hlen in Ea.
    cbn [List.length] in Ea. lia. }
  inversion HokA as [|? ? Ha0 HA']; subst.
  destruct (hex4_cons a0 Ha0) as [c [r [Ec Hc]]].
  change (map hex4 (a0 :: A') ++ [[]]) with (hex4 a0 :: (map hex4 A' ++ [[]])).
  destruct (join_head (lit ":") (hex4 a0) (map hex4 A' ++ [[]]) c r Ec) as [r' Ej].
  rewrite Ej. cbv beta iota. char_neq c ":"%char. rewrite H. rewrite <- Ej.
  change (hex4 a0 :: (map hex4 A' ++ [[]])) with (map hex4 (a0 :: A') ++ [[]]).
  rewrite split_join by (destruct A'; discriminate ||
    (apply Forall_app; split; [apply hex4s_no_colon; assumption|exact nil_no_colon])).
  rewrite reformat_app, reformat_hex4s by assumption. cbn [map].
  apply join_snoc_nil. discriminate.
Qed.

(** the text after the address for a zone *)
Lemma v6_zone_text : forall bs z e s, v6ToString bs (is_enc Expanded e) = Ok s ->
  toString {| m_bytes := bs; m_isV4 := false; m_zone := z |} e =
  Ok (s ++ match z with None | Some [] => [] | Some zn => "%"%char :: zn end).
Proof.
  intros bs z e s H. unfold toString. cbn [m_isV4 m_zone m_bytes].
  destruct z as [[|zc zn]|]; rewrite H; rewrite ?app_nil_r; reflexivity.
Qed.

Lemma v6_bytes_expanded : forall bs, List.length bs = 16%nat -> Forall byte_ok bs ->
  v6ToString bs true = Ok (expanded_text (hextets bs)).
Proof.
  intros bs Hlen Hok.
  destruct (bytes_of_hextets_of_bytes 8 bs Hlen Hok) as [Eb [Hh Hl]].
  remember (hextets bs) as hs eqn:Ehs. rewrite <- Eb.
  assert (Hne : hs <> []) by (intros F; rewrite F in Hl; discriminate).
  rewrite v6ToString_hextets by assumption. cbn [negb].
  rewrite reformat_map, replace_all_texts by assumption. reflexivity.
Qed.

Lemma v6_bytes_default : forall bs, List.length bs = 16%nat -> Forall byte_ok bs ->
  v6ToString bs false = Ok (compressV6 (join (lit ":") (map hex4 (hextets bs)))).
Proof.
  intros bs Hlen Hok.
  destruct (bytes_of_hextets_of_bytes 8 bs Hlen Hok) as [Eb [Hh Hl]].
  remember (hextets bs) as hs eqn:Ehs. rewrite <- Eb.
  assert (Hne : hs <> []) by (intros F; rewrite F in Hl; discriminate).
  rewrite v6ToString_hextets by assumption. reflexivity.
Qed.

Lemma hexcolon_no : forall s x, Forall (fun c => is_lower_hex c = true \/ c = ":"%char) s ->
  In x (lit ".%[") -> ~ In x s.
Proof.
  intros s x H Hx Hin. rewrite Forall_forall in H.
  pose proof (hexcolon_neq x x (H x Hin) Hx) as E. rewrite Ascii.eqb_refl in E. discriminate.
Qed.

Lemma strip_head : forall s r, Forall (fun c => is_lower_hex c = true \/ c = ":"%char) s ->
  s <> [] -> strip_brackets (s ++ r) = s ++ r.
Proof.
  intros [|c t] r H Hne; [congruence|]. inversion H as [|? ? Hc _]; subst.
  cbn [app]. unfold strip_brackets. rewrite (hexcolon_neq c "["%char Hc) by (vm_compute; tauto).
  reflexivity.
Qed.

(** a compressed address followed by a zone *)
Lemma parse_zone : forall hs z, List.length hs = 8%nat -> Forall hextet_ok hs ->
  run_not_trailing hs -> longest_zero_run hs <> Some (0%nat, 8%nat) ->
  ~ In "%"%char z -> ~ In "."%char z ->
  parse (compressed_text hs ++ "%"%char :: z) =
  Ok {| m_bytes := bytes_of_hextets hs; m_isV4 := is_mapped (bytes_of_hextets hs); m_zone := Some z |}.
Proof.
  intros hs z Hlen Hok Hnt Hall Hpz Hdz.
  pose proof (compressed_chars hs Hok) as Hch.
  destruct (text_in_compressed hs Hlen Hok Hall) as [c [Hin Hc]].
  assert (Hin' : In c (compressed_text hs ++ "%"%char :: z)) by (apply in_or_app; left; exact Hin).
  unfold parse. rewrite strip_head by (exact Hch || (intros F; rewrite F in Hin; exact Hin)).
  rewrite (str_eqb_hex _ c Hin' Hc), (isIPv6_hex _ c Hin' Hc).
  replace (isIPv4 (compressed_text hs ++ "%"%char :: z)) with false.
  2:{ symmetry. apply Bool.not_true_iff_false. intros E. apply isIPv4_dot in E.
      apply in_app_or in E as [E|[E|E]].
      - exact (hexcolon_no _ "."%char Hch ltac:(vm_compute; tauto) E).
      - discriminate.
      - exact (Hdz E). }
  unfold v6StringToBuffer.
  replace (includes "%"%char (compressed_text hs ++ "%"%char :: z)) with true.
  2:{ symmetry. apply existsb_exists. exists "%"%char. split; [|reflexivity].
      apply in_or_app. right. left. reflexivity. }
  rewrite split_app_sep by exact (hexcolon_no _ "%"%char Hch ltac:(vm_compute; tauto)).
  rewrite (split_no_sep _ z Hpz). cbv beta iota zeta. cbn [List.length Nat.ltb Nat.leb nth].
  rewrite expandV6_compressed by assumption.
  assert (Hne : map hex4 hs <> []) by (destruct hs; discriminate).
  rewrite split_join by (exact Hne || apply hex4s_no_colon; exact Hok).
  rewrite join_nil_concat, <- to_hex_hextets, from_hex_to_hex
    by (apply bytes_of_hextets_ok; exact Hok).
  reflexivity.
Qed.

Lemma index_of_char_app : forall c x r, ~ In c x -> index_of_char c (x ++ c :: r) = List.length x.
Proof.
  intros c. induction x as [|y x IH]; intros r H; cbn [app index_of_char List.length].
  - rewrite Ascii.eqb_refl. reflexivity.
  - destruct (Ascii.eqb y c) eqn:E.
    + apply Ascii.eqb_eq in E. subst. exfalso. apply H. left. reflexivity.
    + rewrite IH by (intros F; apply H; right; exact F). reflexivity.
Qed.

Lemma includes_in : forall c s, In c s -> includes c s = true.
Proof.
  intros c s H. apply existsb_exists. exists c. split; [exact H|apply Ascii.eqb_refl].
Qed.

Lemma includes_not_in : forall c s, ~ In c s -> includes c s = false.
Proof.
  intros c s H. apply Bool.not_true_iff_false. intros E.
  apply existsb_exists in E as [x [Hx Ex]]. apply Ascii.eqb_eq in Ex. subst. exact (H Hx).
Qed.

Lemma Forall_skipn_ok : forall (P : Z -> Prop) n bs, Forall P bs -> Forall P (skipn n bs).
Proof.
  intros P n bs H. rewrite <- (firstn_skipn n bs) in H. apply Forall_app in H. tauto.
Qed.

Lemma fromDecimal_v6_bytes : forall bs z, List.length bs = 16%nat -> Forall byte_ok bs ->
  fromDecimal (decimal {| m_bytes := bs; m_isV4 := false; m_zone := z |}) true =
  Ok {| m_bytes := bs; m_isV4 := false; m_zone := None |}.
Proof.
  intros bs z Hlen Hok. unfold fromDecimal, decimal. cbn [m_isV4 m_bytes]. cbv zeta.
  rewrite pad_hex_bytes by assumption. reflexivity.
Qed.

Lemma fromDecimal_v4_bytes : forall bs z, List.length bs = 16%nat -> Forall byte_ok bs ->
  fromDecimal (decimal {| m_bytes := bs; m_isV4 := true; m_zone := z |}) false =
  Ok {| m_bytes := mappedV4Prefix ++ skipn 12 bs; m_isV4 := true; m_zone := None |}.
Proof.
  intros bs z Hlen Hok. unfold decimal. cbn [m_isV4 m_bytes].
  set (bs' := repeat 0 12 ++ skipn 12 bs).
  assert (Hf : firstn 12 bs' = repeat 0 12) by reflexivity.
  assert (Hs : skipn 12 bs' = skipn 12 bs) by reflexivity.
  assert (Hl : List.length bs' = 16%nat)
    by (unfold bs'; rewrite length_app, repeat_length, length_skipn; lia).
  assert (Hb : Forall byte_ok bs').
  { unfold bs'. apply Forall_app. split; [|apply Forall_skipn_ok; exact Hok].
    apply Forall_forall. intros x Hx. apply repeat_spec in Hx. subst. unfold byte_ok. lia. }
  rewrite <- Hs, zeros_prefix_value by exact Hf.
  unfold fromDecimal. cbv zeta. rewrite pad_hex_bytes by assumption.
  rewrite Hf. cbn [negb andb Buf.alloc Buf.equals repeat Z.eqb].
  rewrite copy_prefix by (rewrite Hl, mappedV4Prefix_length; lia). rewrite mappedV4Prefix_length, Hs. reflexivity.
Qed.

Lemma strip_wrapped : forall s, strip_brackets ("["%char :: s ++ ["]"%char]) = s.
Proof.
  intros s. unfold strip_brackets. rewrite Ascii.eqb_refl.
  replace (last ("["%char :: s ++ ["]"%char]) "["%char) with "]"%char.
  2:{ rewrite app_comm_cons, last_last. reflexivity. }
  rewrite Ascii.eqb_refl. cbn [andb]. unfold substring.
  cbn [List.length skipn]. rewrite length_app. cbn [List.length].
  replace (S (List.length s + 1) - 1 - 1)%nat with (List.length s) by lia.
  rewrite firstn_app, Nat.sub_diag, firstn_all, app_nil_r. reflexivity.
Qed.

Lemma strip_plain : forall s, hd "0"%char s <> "["%char -> strip_brackets s = s.
Proof.
  intros [|c t] H; [reflexivity|]. cbn [hd] in H. unfold strip_brackets.
  destruct (Ascii.eqb_spec c "["%char); [contradiction|reflexivity].
Qed.

Lemma firstn_upto : forall (x : str) c r, firstn (List.length x + 1) (x ++ c :: r) = x ++ [c].
Proof.
  intros x c r. rewrite firstn_app, firstn_all2 by lia.
  replace (List.length x + 1 - List.length x)%nat with 1%nat by lia. reflexivity.
Qed.

Lemma skipn_upto : forall (x : str) c r, skipn (List.length x + 1) (x ++ c :: r) = r.
Proof.
  intros x c r. rewrite skipn_app, skipn_all2 by lia.
  replace (List.length x + 1 - List.length x)%nat with 1%nat by lia. reflexivity.
Qed.

(** a bracketed host: the text up to the first [']'] and the rest *)
Lemma bracket_host : forall x r, ~ In "]"%char x -> ~ In "."%char x -> ~ In "."%char r ->
  splitHostPort ("["%char :: x ++ "]"%char :: r) =
  match r with
  | [] => Ok ("["%char :: x ++ ["]"%char], Num 0)
  | _ => if (List.length (split ":"%char r) =? 2)%nat
         then Ok ("["%char :: x ++ ["]"%char],
                  parseInt (match nth 1 (split ":"%char r) [] with
                            | [] => lit "0" | _ => nth 1 (split ":"%char r) [] end) 10)
         else Throw split_error
  end.
Proof.
  intros x r Hx Hdx Hdr. unfold splitHostPort.
  rewrite includes_not_in.
  2:{ intros [E|E]; [discriminate|]. apply in_app_or in E as [E|[E|E]];
      [exact (Hdx E)|discriminate|exact (Hdr E)]. }
  rewrite (includes_in "["%char) by (left; reflexivity).
  rewrite (includes_in "]"%char) by (right; apply in_or_app; right; left; reflexivity).
  cbn [andb]. cbv zeta.
  assert (Hi : index_of_char "]"%char ("["%char :: x ++ "]"%char :: r) = S (List.length x)).
  { cbn [index_of_char]. rewrite index_of_char_app by exact Hx. reflexivity. }
  rewrite Hi. unfold substring. rewrite Nat.sub_0_r. cbn [skipn].
  change (S (List.length x) + 1)%nat with (S (List.length x + 1)).
  cbn [firstn skipn]. rewrite firstn_upto, skipn_upto. destruct r as [|c r]; [reflexivity|]. cbv zeta. destruct (_ =? 2)%nat; reflexivity.
Qed.

(** what follows a fourth dotted group after a further ['.'] is ignored *)
Lemma parse_dotted_more : forall a b c d r,
  0 <= a < 1000 -> 0 <= b < 1000 -> 0 <= c < 1000 -> 0 <= d < 1000 ->
  parse (join (lit ".") (map (int_to_string 10) [a; b; c; d]) ++ "."%char :: r) =
  Ok {| m_bytes := mappedV4Prefix ++ [a mod 256; b mod 256; c mod 256; d mod 256];
        m_isV4 := true; m_zone := None |}.
Proof.
  intros a b c d r Ha Hb Hc Hd.
  destruct (dec_text_facts a Ha) as [La [Da [Pa _]]]. destruct (dec_text_facts b Hb) as [Lb [Db [Pb _]]].
  destruct (dec_text_facts c Hc) as [Lc [Dc [Pc _]]]. destruct (dec_text_facts d Hd) as [Ld [Dd [Pd _]]].
  cbn [map]. rewrite dotted_join.
  set (ta := int_to_string 10 a) in *. set (tb := int_to_string 10 b) in *.
  set (tc := int_to_string 10 c) in *. set (td := int_to_string 10 d) in *.
  repeat (rewrite <- app_assoc; cbn [app]).
  assert (H4 : isIPv4 (ta ++ "."%char :: tb ++ "."%char :: tc ++ "."%char :: td ++ "."%char :: r) = true).
  { unfold isIPv4. apply test_here. unfold v4_pattern_at.
    apply digits13_app; [assumption|assumption|]. cbn [dot]. rewrite Ascii.eqb_refl. cbn [andb].
    apply digits13_app; [assumption|assumption|]. cbn [dot]. rewrite Ascii.eqb_refl. cbn [andb].
    apply digits13_app; [assumption|assumption|]. cbn [dot]. rewrite Ascii.eqb_refl. cbn [andb].
    apply digits13_app; [assumption|assumption|reflexivity]. }
  assert (Hn : forall t, forallb is_digit t = true -> ~ In "."%char t)
    by (intros t Ht; apply digits_not_in; [exact Ht|vm_compute; tauto]).
  destruct ta as [|x ta'] eqn:Eta; [cbn in La; lia|].
  assert (Hx : is_digit x = true) by (cbn [forallb] in Da; apply andb_prop in Da; tauto).
  destruct (digit_other x Hx) as [Xb [_ [Xc _]]].
  unfold parse. cbv zeta. cbn [app].
  replace (strip_brackets _) with (x :: ta' ++ "."%char :: tb ++ "."%char :: tc ++ "."%char :: td ++ "."%char :: r)
    by (unfold strip_brackets; rewrite Xb; reflexivity).
  replace (str_eqb _ (lit "::")) with false
    by (cbn [lit list_ascii_of_string str_eqb]; rewrite Xc; reflexivity).
  cbn [app] in H4. rewrite H4. f_equal. f_equal.
  unfold v4StringToBuffer. rewrite app_comm_cons.
  rewrite !split_app_sep by (apply Hn; assumption).
  cbn [map]. rewrite Pa, Pb, Pc, Pd. reflexivity.
Qed.

End V4Facts.

(** ** Further properties of the code *)
Module Extra.
Import Js IP Spec Facts HexFacts RadixFacts DecFacts LoopFacts TextFacts ParseFacts V4Facts.

(** X1: a dotted text of four decimal numbers below 1000 parses as an IPv4
    address whose bytes are the mapped prefix followed by the four numbers
    taken modulo 256, with no zone. *)
Theorem X1_dotted_parse : forall a b c d,
  0 <= a < 1000 -> 0 <= b < 1000 -> 0 <= c < 1000 -> 0 <= d < 1000 ->
  parse (join (lit ".") (map (int_to_string 10) [a; b; c; d])) =
  Ok {| m_bytes := mappedV4Prefix ++ [a mod 256; b mod 256; c mod 256; d mod 256];
        m_isV4 := true; m_zone := None |}.
Proof. exact parse_dotted. Qed.

Lemma X1_witness :
  parse (lit "300.168.2.1") =
  Ok {| m_bytes := mappedV4Prefix ++ [44; 168; 2; 1]; m_isV4 := true; m_zone := None |}.
Proof.
  apply (X1_dotted_parse 300 168 2 1); lia.
Defined.

(** X2: an IPv4 address of sixteen bytes prints its last four bytes in
    dotted decimal by default and with the expanded encoding, and the full
    expanded IPv6 text with the mapped encoding; its zone is never printed. *)
Theorem X2_v4_toString : forall bs z, List.length bs = 16%nat -> Forall byte_ok bs ->
  toString {| m_bytes := bs; m_isV4 := true; m_zone := z |} None =
    Ok (join (lit ".") (map (int_to_string 10) (skipn 12 bs))) /\
  toString {| m_bytes := bs; m_isV4 := true; m_zone := z |} (Some Expanded) =
    Ok (join (lit ".") (map (int_to_string 10) (skipn 12 bs))) /\
  toString {| m_bytes := bs; m_isV4 := true; m_zone := z |} (Some Mapped) =
    Ok (expanded_text (hextets bs)).
Proof.
  intros bs z Hlen Hok. unfold toString. cbn [m_isV4 m_bytes is_enc].
  rewrite v4ToString_bytes by (apply Forall_skipn_ok; exact Hok).
  split; [reflexivity|split; [reflexivity|]].
  unfold v4ToString. cbn [negb]. apply v6_bytes_expanded; assumption.
Qed.

Lemma X2_witness :
  toString {| m_bytes := mappedV4Prefix ++ [192; 168; 2; 1]; m_isV4 := true; m_zone := Some (lit "eth0") |} None =
    Ok (lit "192.168.2.1") /\
  toString {| m_bytes := mappedV4Prefix ++ [192; 168; 2; 1]; m_isV4 := true; m_zone := Some (lit "eth0") |} (Some Expanded) =
    Ok (lit "192.168.2.1") /\
  toString {| m_bytes := mappedV4Prefix ++ [192; 168; 2; 1]; m_isV4 := true; m_zone := Some (lit "eth0") |} (Some Mapped) =
    Ok (expanded_text [0; 0; 0; 0; 0; 65535; 49320; 513]).
Proof.
  apply (X2_v4_toString (mappedV4Prefix ++ [192; 168; 2; 1]) (Some (lit "eth0")));
    [reflexivity|rewrite mappedV4Prefix_eq; cbn [repeat app]; unfold byte_ok; repeat (apply Forall_cons; [lia|]); apply Forall_nil].
Defined.

(** X3: a dotted text of four bytes parses to an IPv4 address that prints
    back to the same text. *)
Theorem X3_dotted_roundtrip : forall a b c d,
  0 <= a < 256 -> 0 <= b < 256 -> 0 <= c < 256 -> 0 <= d < 256 ->
  exists ip, parse (join (lit ".") (map (int_to_string 10) [a; b; c; d])) = Ok ip /\
    m_isV4 ip = true /\
    toString ip None = Ok (join (lit ".") (map (int_to_string 10) [a; b; c; d])).
Proof.
  intros a b c d Ha Hb Hc Hd. rewrite parse_dotted by lia.
  eexists. split; [reflexivity|split; [reflexivity|]].
  unfold toString. cbn [m_isV4 m_bytes is_enc].
  rewrite v4ToString_bytes.
  - rewrite !Z.mod_small by lia. reflexivity.
  - rewrite !Z.mod_small by lia. unfold byte_ok.
    repeat (apply Forall_cons; [lia|]). apply Forall_nil.
Qed.

Lemma X3_witness :
  exists ip, parse (lit "192.168.2.1") = Ok ip /\ m_isV4 ip = true /\
    toString ip None = Ok (lit "192.168.2.1").
Proof.
  apply (X3_dotted_roundtrip 192 168 2 1); lia.
Defined.

(** X4: [v6ToString] throws its encoding error on a buffer of fewer than
    two bytes and returns a text on every longer buffer. *)
Theorem X4_v6ToString_short : forall bs e, Forall byte_ok bs ->
  ((List.length bs < 2)%nat -> v6ToString bs e = Throw (lit "Could not encode IP address to string")) /\
  ((2 <= List.length bs)%nat -> exists s, v6ToString bs e = Ok s).
Proof. exact v6ToString_short. Qed.

Lemma X4_witness :
  (v6ToString [7] false = Throw (lit "Could not encode IP address to string")) /\
  exists s, v6ToString [7; 8] false = Ok s.
Proof.
  split.
  - apply (proj1 (X4_v6ToString_short [7] false ltac:(unfold byte_ok; repeat constructor; lia))).
    cbn. lia.
  - apply (proj2 (X4_v6ToString_short [7; 8] false
      ltac:(unfold byte_ok; repeat (apply Forall_cons; [lia|]); apply Forall_nil))).
    cbn. lia.
Defined.

(** X5: [decimal] is the big-endian value of the bytes, of the last four
    bytes (those after the twelfth) for an IPv4 address. *)
Theorem X5_decimal_value : forall bs z, Forall byte_ok bs ->
  decimal {| m_bytes := bs; m_isV4 := false; m_zone := z |} = fold_left (fun acc b => acc * 256 + b) bs 0 /\
  decimal {| m_bytes := bs; m_isV4 := true; m_zone := z |} =
    fold_left (fun acc b => acc * 256 + b) (skipn 12 bs) 0.
Proof.
  intros bs z Hok. unfold decimal, BigInteger_of_hex. cbn [m_isV4 m_bytes].
  split; apply hex_value; [exact Hok|apply Forall_skipn_ok; exact Hok].
Qed.

Lemma X5_witness :
  decimal {| m_bytes := [1; 2]; m_isV4 := false; m_zone := None |} = fold_left (fun acc b => acc * 256 + b) [1; 2] 0 /\
  decimal {| m_bytes := [1; 2]; m_isV4 := true; m_zone := None |} =
    fold_left (fun acc b => acc * 256 + b) (skipn 12 [1; 2]) 0.
Proof.
  apply X5_decimal_value. unfold byte_ok. repeat (apply Forall_cons; [lia|]). apply Forall_nil.
Defined.

(** X6: for an IPv6 address of sixteen bytes, [fromDecimal] of its
    [decimal] forced to IPv6 gives back its bytes, without the zone. *)
Theorem X6_decimal_roundtrip_v6 : forall bs z, List.length bs = 16%nat -> Forall byte_ok bs ->
  fromDecimal (decimal {| m_bytes := bs; m_isV4 := false; m_zone := z |}) true =
  Ok {| m_bytes := bs; m_isV4 := false; m_zone := None |}.
Proof. exact fromDecimal_v6_bytes. Qed.

Lemma X6_witness :
  fromDecimal (decimal {| m_bytes := [32; 1; 13; 184; 0; 0; 0; 0; 0; 0; 0; 0; 0; 0; 0; 1];
                          m_isV4 := false; m_zone := Some (lit "eth0") |}) true =
  Ok {| m_bytes := [32; 1; 13; 184; 0; 0; 0; 0; 0; 0; 0; 0; 0; 0; 0; 1]; m_isV4 := false; m_zone := None |}.
Proof.
  apply X6_decimal_roundtrip_v6; [reflexivity|].
  unfold byte_ok. repeat (apply Forall_cons; [lia|]). apply Forall_nil.
Defined.

(** X7: for an IPv4 address of sixteen bytes, [fromDecimal] of its
    [decimal] gives an IPv4 address whose first twelve bytes are replaced by
    the mapped prefix, without the zone. *)
Theorem X7_decimal_roundtrip_v4 : forall bs z, List.length bs = 16%nat -> Forall byte_ok bs ->
  fromDecimal (decimal {| m_bytes := bs; m_isV4 := true; m_zone := z |}) false =
  Ok {| m_bytes := mappedV4Prefix ++ skipn 12 bs; m_isV4 := true; m_zone := None |}.
Proof. exact fromDecimal_v4_bytes. Qed.

Lemma X7_witness :
  fromDecimal (decimal {| m_bytes := repeat 7 12 ++ [192; 168; 2; 1]; m_isV4 := true; m_zone := None |}) false =
  Ok {| m_bytes := mappedV4Prefix ++ [192; 168; 2; 1]; m_isV4 := true; m_zone := None |}.
Proof.
  apply (X7_decimal_roundtrip_v4 (repeat 7 12 ++ [192; 168; 2; 1])); [reflexivity|].
  unfold byte_ok. cbn [repeat app]. repeat (apply Forall_cons; [lia|]). apply Forall_nil.
Defined.

(** X8: an IPv6 address of sixteen bytes prints with the expanded encoding
    as its eight hextets in lowercase hexadecimal without leading zeros,
    joined by [':'], followed by ['%'] and the zone when the zone is set and
    nonempty. *)
Theorem X8_v6_expanded_toString : forall bs z, List.length bs = 16%nat -> Forall byte_ok bs ->
  toString {| m_bytes := bs; m_isV4 := false; m_zone := z |} (Some Expanded) =
  Ok (expanded_text (hextets bs) ++ match z with None | Some [] => [] | Some zn => "%"%char :: zn end).
Proof.
  intros bs z Hlen Hok. apply v6_zone_text. cbn [is_enc]. apply v6_bytes_expanded; assumption.
Qed.

Lemma X8_witness :
  toString {| m_bytes := [32; 1; 13; 184; 0; 0; 0; 0; 0; 0; 0; 0; 0; 0; 0; 1]; m_isV4 := false;
              m_zone := Some (lit "eth0") |} (Some Expanded) =
  Ok (expanded_text [8193; 3512; 0; 0; 0; 0; 0; 1] ++ "%"%char :: lit "eth0").
Proof.
  apply (X8_v6_expanded_toString [32; 1; 13; 184; 0; 0; 0; 0; 0; 0; 0; 0; 0; 0; 0; 1] (Some (lit "eth0"))); [reflexivity|].
  unfold byte_ok. repeat (apply Forall_cons; [lia|]). apply Forall_nil.
Defined.

(** X9: an IPv6 address of sixteen bytes whose longest zero run does not end
    the address (or starts it) prints by default, and with the mapped
    encoding, as the compressed text of its hextets, followed by ['%'] and
    the zone when the zone is set and nonempty. *)
Theorem X9_v6_default_toString : forall bs z, List.length bs = 16%nat -> Forall byte_ok bs ->
  run_not_trailing (hextets bs) ->
  toString {| m_bytes := bs; m_isV4 := false; m_zone := z |} None =
    Ok (compressed_text (hextets bs) ++ match z with None | Some [] => [] | Some zn => "%"%char :: zn end) /\
  toString {| m_bytes := bs; m_isV4 := false; m_zone := z |} (Some Mapped) =
    Ok (compressed_text (hextets bs) ++ match z with None | Some [] => [] | Some zn => "%"%char :: zn end).
Proof.
  intros bs z Hlen Hok Hnt.
  destruct (bytes_of_hextets_of_bytes 8 bs Hlen Hok) as [_ [Hh Hl]].
  split; apply v6_zone_text; cbn [is_enc];
    rewrite v6_bytes_default, compressV6_hextets by assumption; reflexivity.
Qed.

Lemma X9_witness :
  toString {| m_bytes := [32; 1; 13; 184; 0; 0; 0; 0; 0; 0; 0; 0; 0; 0; 0; 1]; m_isV4 := false;
              m_zone := None |} None =
    Ok (compressed_text [8193; 3512; 0; 0; 0; 0; 0; 1]) /\
  toString {| m_bytes := [32; 1; 13; 184; 0; 0; 0; 0; 0; 0; 0; 0; 0; 0; 0; 1]; m_isV4 := false;
              m_zone := None |} (Some Mapped) =
    Ok (compressed_text [8193; 3512; 0; 0; 0; 0; 0; 1]).
Proof.
  rewrite <- (app_nil_r (compressed_text _)).
  apply (X9_v6_default_toString [32; 1; 13; 184; 0; 0; 0; 0; 0; 0; 0; 0; 0; 0; 0; 1] None); [reflexivity| |].
  - unfold byte_ok. repeat (apply Forall_cons; [lia|]). apply Forall_nil.
  - intros i l H. vm_compute in H. injection H as <- <-. lia.
Defined.

(** X10: when the longest zero run of an IPv6 address of sixteen bytes ends
    the address and does not start it, the default text is the hextets
    before the run followed by a single [':'] (and the zone). *)
Theorem X10_trailing_run : forall bs z i l, List.length bs = 16%nat -> Forall byte_ok bs ->
  longest_zero_run (hextets bs) = Some (i, l) -> (i + l = 8)%nat -> (0 < i)%nat ->
  toString {| m_bytes := bs; m_isV4 := false; m_zone := z |} None =
    Ok ((join (lit ":") (map hextet_text (firstn i (hextets bs))) ++ lit ":") ++
        match z with None | Some [] => [] | Some zn => "%"%char :: zn end).
Proof.
  intros bs z i l Hlen Hok E Hil Hi.
  destruct (bytes_of_hextets_of_bytes 8 bs Hlen Hok) as [_ [Hh Hl]].
  apply v6_zone_text. cbn [is_enc].
  rewrite v6_bytes_default, (compressV6_trailing _ i l) by assumption. reflexivity.
Qed.

Lemma X10_witness :
  toString {| m_bytes := [0; 1; 0; 0; 0; 0; 0; 0; 0; 0; 0; 0; 0; 0; 0; 0]; m_isV4 := false;
              m_zone := None |} None = Ok (lit "1:").
Proof.
  apply (X10_trailing_run [0; 1; 0; 0; 0; 0; 0; 0; 0; 0; 0; 0; 0; 0; 0; 0] None 1 7); [reflexivity| |vm_compute; reflexivity|lia|lia].
  unfold byte_ok. repeat (apply Forall_cons; [lia|]). apply Forall_nil.
Defined.

(** X11: a compressed IPv6 text that is neither [::] nor IPv4-mapped and whose elided zero run does not end the text unless
    it also starts it (so the text does not end in [::] after a group),
    followed by ['%'] and a nonempty zone without ['%'] or ['.'], parses to
    an IPv6 address with that zone, which prints back to the same text. *)
Theorem X11_zone_roundtrip : forall hs z, List.length hs = 8%nat -> Forall hextet_ok hs ->
  run_not_trailing hs -> longest_zero_run hs <> Some (0%nat, 8%nat) ->
  firstn 6 hs <> [0; 0; 0; 0; 0; 65535] ->
  z <> [] -> ~ In "%"%char z -> ~ In "."%char z ->
  exists ip, parse (compressed_text hs ++ "%"%char :: z) = Ok ip /\
    m_isV4 ip = false /\ m_zone ip = Some z /\
    toString ip None = Ok (compressed_text hs ++ "%"%char :: z).
Proof.
  intros hs z Hlen Hok Hnt Hall Hm Hz Hpz Hdz.
  rewrite parse_zone by assumption.
  assert (Hf : is_mapped (bytes_of_hextets hs) = false).
  { apply Bool.not_true_iff_false. intros E. apply Hm. apply is_mapped_hextets; assumption. }
  rewrite Hf. eexists. split; [reflexivity|split; [reflexivity|split; [reflexivity|]]].
  assert (Hne : hs <> []) by (intros F; rewrite F in Hlen; discriminate).
  rewrite (v6_zone_text _ (Some z) None (compressed_text hs)).
  - destruct z as [|zc zn]; [congruence|reflexivity].
  - cbn [is_enc]. rewrite v6ToString_hextets by assumption. cbn [negb].
    rewrite compressV6_hextets by assumption. reflexivity.
Qed.

Lemma X11_witness :
  exists ip, parse (compressed_text [65152; 0; 0; 0; 0; 0; 0; 1] ++ "%"%char :: lit "eth0") = Ok ip /\
    m_isV4 ip = false /\ m_zone ip = Some (lit "eth0") /\
    toString ip None = Ok (compressed_text [65152; 0; 0; 0; 0; 0; 0; 1] ++ "%"%char :: lit "eth0").
Proof.
  apply X11_zone_roundtrip.
  - reflexivity.
  - unfold hextet_ok. repeat (apply Forall_cons; [lia|]). apply Forall_nil.
  - intros i l H. vm_compute in H. injection H as <- <-. lia.
  - vm_compute. discriminate.
  - vm_compute. discriminate.
  - discriminate.
  - vm_compute. intuition discriminate.
  - vm_compute. intuition discriminate.
Defined.

(** X12: a host holding ['.'] and no [':'], followed by [':'] and a text
    without [':'], splits into that host and the port [parseInt] reads from
    the text. *)
Theorem X12_split_dotted : forall h p, In "."%char h -> ~ In ":"%char h -> ~ In ":"%char p ->
  splitHostPort (h ++ ":"%char :: p) = Ok (h, parseInt p 10).
Proof.
  intros h p Hd Hh Hp. unfold splitHostPort.
  rewrite includes_in by (apply in_or_app; left; exact Hd). cbv zeta.
  rewrite split_app_sep, split_no_sep by assumption. reflexivity.
Qed.

Lemma X12_witness : splitHostPort (lit "192.168.2.1:8080") = Ok (lit "192.168.2.1", Num 8080).
Proof.
  apply (X12_split_dotted (lit "192.168.2.1") (lit "8080")); vm_compute; intuition discriminate.
Defined.

(** X13: a bracketed host [[x]] with no [']'] and no ['.'] inside splits,
    when followed by [':'] and a text without [':'] or ['.'], into [[x]] and
    the port read from the text (from ['0'] when the text is empty), and
    alone into [[x]] and port 0. *)
Theorem X13_split_bracketed : forall x p,
  ~ In "]"%char x -> ~ In "."%char x -> ~ In "."%char p -> ~ In ":"%char p ->
  splitHostPort ("["%char :: x ++ "]"%char :: ":"%char :: p) =
    Ok ("["%char :: x ++ ["]"%char], parseInt (match p with [] => lit "0" | _ => p end) 10) /\
  splitHostPort ("["%char :: x ++ ["]"%char]) = Ok ("["%char :: x ++ ["]"%char], Num 0).
Proof.
  intros x p Hx Hdx Hdp Hp. split.
  - rewrite bracket_host by (assumption || (intros [E|E]; [discriminate|exact (Hdp E)])).
    cbn [split]. rewrite Ascii.eqb_refl, (split_no_sep _ p Hp). cbn [List.length nth Nat.eqb].
    destruct p; reflexivity.
  - rewrite bracket_host by (assumption || intros []). reflexivity.
Qed.

Lemma X13_witness :
  splitHostPort (lit "[2607:f8b0:4009:805::200e]:9999") =
    Ok (lit "[2607:f8b0:4009:805::200e]", Num 9999) /\
  splitHostPort (lit "[2607:f8b0:4009:805::200e]") = Ok (lit "[2607:f8b0:4009:805::200e]", Num 0).
Proof.
  apply (X13_split_bracketed (lit "2607:f8b0:4009:805::200e") (lit "9999"));
    vm_compute; intuition discriminate.
Defined.

(** X14: [parse] removes one pair of enclosing brackets: a text that does
    not start with ['['] parses the same with and without them. *)
Theorem X14_parse_brackets : forall s, hd "0"%char s <> "["%char ->
  parse ("["%char :: s ++ ["]"%char]) = parse s.
Proof.
  intros s H. unfold parse. rewrite strip_wrapped, (strip_plain s H). reflexivity.
Qed.

Lemma X14_witness : parse (lit "[::1]") = parse (lit "::1").
Proof.
  apply (X14_parse_brackets (lit "::1")). discriminate.
Defined.

(** X15: the host that [splitHostPort] takes from [[t]:p], for a compressed
    IPv6 text [t] whose elided zero run does not end the text unless
    it also starts it (so the text does not end in [::] after a group), and a port text [p] without [':'] or ['.'], parses to the
    address of [t]. *)
Theorem X15_split_then_parse : forall hs p, List.length hs = 8%nat -> Forall hextet_ok hs ->
  run_not_trailing hs -> ~ In "."%char p -> ~ In ":"%char p ->
  exists h port, splitHostPort ("["%char :: compressed_text hs ++ "]"%char :: ":"%char :: p) = Ok (h, port) /\
    parse h = Ok {| m_bytes := bytes_of_hextets hs; m_isV4 := is_mapped (bytes_of_hextets hs); m_zone := None |}.
Proof.
  intros hs p Hlen Hok Hnt Hdp Hp.
  pose proof (compressed_chars hs Hok) as Hch.
  assert (Hx : forall x, In x (lit ".]") -> ~ In x (compressed_text hs)).
  { intros x Hx Hin. rewrite Forall_forall in Hch.
    vm_compute in Hx. destruct Hx as [<-|[<-|[]]];
      destruct (Hch _ Hin) as [E|E]; vm_compute in E; discriminate. }
  rewrite bracket_host.
  2:{ apply Hx. vm_compute. tauto. }
  2:{ apply Hx. vm_compute. tauto. }
  2:{ intros [E|E]; [discriminate|exact (Hdp E)]. }
  cbn [split]. rewrite Ascii.eqb_refl, (split_no_sep _ p Hp). cbn [List.length nth Nat.eqb].
  eexists _, _. split; [reflexivity|].
  replace (parse ("["%char :: compressed_text hs ++ ["]"%char])) with (parse (compressed_text hs)).
  - apply parse_compressed; assumption.
  - unfold parse. rewrite strip_wrapped, strip_id by exact Hch. reflexivity.
Qed.

Lemma X15_witness :
  exists h port, splitHostPort ("["%char :: compressed_text [65152; 0; 0; 0; 0; 0; 0; 1] ++ "]"%char :: ":"%char :: lit "443") = Ok (h, port) /\
    parse h = Ok {| m_bytes := bytes_of_hextets [65152; 0; 0; 0; 0; 0; 0; 1];
                    m_isV4 := is_mapped (bytes_of_hextets [65152; 0; 0; 0; 0; 0; 0; 1]); m_zone := None |}.
Proof.
  apply X15_split_then_parse.
  - reflexivity.
  - unfold hextet_ok. repeat (apply Forall_cons; [lia|]). apply Forall_nil.
  - intros i l H. vm_compute in H. injection H as <- <-. lia.
  - vm_compute. intuition discriminate.
  - vm_compute. intuition discriminate.
Defined.

(** X16: once four dotted decimal groups below 1000 are read, whatever
    follows a further ['.'] is ignored: only four bytes are copied. *)
Theorem X16_dotted_extra_groups : forall a b c d r,
  0 <= a < 1000 -> 0 <= b < 1000 -> 0 <= c < 1000 -> 0 <= d < 1000 ->
  parse (join (lit ".") (map (int_to_string 10) [a; b; c; d]) ++ "."%char :: r) =
  Ok {| m_bytes := mappedV4Prefix ++ [a mod 256; b mod 256; c mod 256; d mod 256];
        m_isV4 := true; m_zone := None |}.
Proof. exact parse_dotted_more. Qed.

Lemma X16_witness :
  parse (lit "10.0.0.1.99.x") =
  Ok {| m_bytes := mappedV4Prefix ++ [10; 0; 0; 1]; m_isV4 := true; m_zone := None |}.
Proof.
  apply (X16_dotted_extra_groups 10 0 0 1 (lit "99.x")); lia.
Defined.

(** X17: for an IPv6 address of sixteen bytes, [fromDecimal] of its
    [decimal] without forcing IPv6 gives an IPv4 address with the mapped
    prefix when the first twelve bytes are zero, and the same bytes as IPv6
    otherwise; the zone is dropped. *)
Theorem X17_decimal_unforced_v6 : forall bs z, List.length bs = 16%nat -> Forall byte_ok bs ->
  (firstn 12 bs = repeat 0 12 ->
   fromDecimal (decimal {| m_bytes := bs; m_isV4 := false; m_zone := z |}) false =
   Ok {| m_bytes := mappedV4Prefix ++ skipn 12 bs; m_isV4 := true; m_zone := None |}) /\
  (firstn 12 bs <> repeat 0 12 ->
   fromDecimal (decimal {| m_bytes := bs; m_isV4 := false; m_zone := z |}) false =
   Ok {| m_bytes := bs; m_isV4 := false; m_zone := None |}).
Proof.
  intros bs z Hlen Hok. unfold fromDecimal, decimal. cbn [m_isV4 m_bytes]. cbv zeta.
  rewrite pad_hex_bytes by assumption. cbn [negb andb]. split; intros H.
  - replace (Buf.equals (firstn 12 bs) (Buf.alloc 12)) with true
      by (symmetry; apply equals_spec; exact H).
    rewrite copy_prefix by (rewrite Hlen, mappedV4Prefix_length; lia).
    rewrite mappedV4Prefix_length. reflexivity.
  - replace (Buf.equals (firstn 12 bs) (Buf.alloc 12)) with false; [reflexivity|].
    symmetry. apply Bool.not_true_iff_false. intros E. apply equals_spec in E. exact (H E).
Qed.

Lemma X17_witness :
  fromDecimal (decimal {| m_bytes := repeat 0 12 ++ [192; 168; 2; 1]; m_isV4 := false; m_zone := None |}) false =
  Ok {| m_bytes := mappedV4Prefix ++ [192; 168; 2; 1]; m_isV4 := true; m_zone := None |} /\
  fromDecimal (decimal {| m_bytes := 1 :: repeat 0 11 ++ [192; 168; 2; 1]; m_isV4 := false; m_zone := None |}) false =
  Ok {| m_bytes := 1 :: repeat 0 11 ++ [192; 168; 2; 1]; m_isV4 := false; m_zone := None |}.
Proof.
  split.
  - apply (proj1 (X17_decimal_unforced_v6 (repeat 0 12 ++ [192; 168; 2; 1]) None
      eq_refl ltac:(cbn [repeat app]; unfold byte_ok; repeat (apply Forall_cons; [lia|]); apply Forall_nil))).
    reflexivity.
  - apply (proj2 (X17_decimal_unforced_v6 (1 :: repeat 0 11 ++ [192; 168; 2; 1]) None
      eq_refl ltac:(cbn [repeat app]; unfold byte_ok; repeat (apply Forall_cons; [lia|]); apply Forall_nil))).
    discriminate.
Defined.

(** X18: a compressed text of eight hextets starting with the IPv4-mapped
    prefix [0:0:0:0:0:ffff] parses to an IPv4 address, which prints by
    default as the dotted decimal of its last four bytes. *)
Theorem X18_mapped_text_v4 : forall hs, List.length hs = 8%nat -> Forall hextet_ok hs ->
  run_not_trailing hs -> firstn 6 hs = [0; 0; 0; 0; 0; 65535] ->
  exists ip, parse (compressed_text hs) = Ok ip /\ m_isV4 ip = true /\
    m_bytes ip = bytes_of_hextets hs /\
    toString ip None = Ok (join (lit ".") (map (int_to_string 10) (skipn 12 (bytes_of_hextets hs)))).
Proof.
  intros hs Hlen Hok Hnt H6. rewrite parse_compressed by assumption.
  assert (Hm : is_mapped (bytes_of_hextets hs) = true).
  { rewrite <- (firstn_skipn 6 hs), H6. unfold bytes_of_hextets. rewrite flat_map_app. reflexivity. }
  rewrite Hm. eexists. split; [reflexivity|split; [reflexivity|split; [reflexivity|]]].
  unfold toString. cbn [m_isV4 m_bytes is_enc].
  apply v4ToString_bytes. apply Forall_skipn_ok. apply bytes_of_hextets_ok. exact Hok.
Qed.

Lemma X18_witness :
  exists ip, parse (compressed_text [0; 0; 0; 0; 0; 65535; 49320; 513]) = Ok ip /\ m_isV4 ip = true /\
    m_bytes ip = bytes_of_hextets [0; 0; 0; 0; 0; 65535; 49320; 513] /\
    toString ip None = Ok (lit "192.168.2.1").
Proof.
  apply X18_mapped_text_v4.
  - reflexivity.
  - unfold hextet_ok. repeat (apply Forall_cons; [lia|]). apply Forall_nil.
  - intros i l H. vm_compute in H. injection H as <- <-. lia.
  - reflexivity.
Defined.

(** X19: a dotted text of four bytes parses to an IPv4 address that
    [fromDecimal] rebuilds from its [decimal]. *)
Theorem X19_dotted_decimal_roundtrip : forall a b c d,
  0 <= a < 256 -> 0 <= b < 256 -> 0 <= c < 256 -> 0 <= d < 256 ->
  exists ip, parse (join (lit ".") (map (int_to_string 10) [a; b; c; d])) = Ok ip /\
    decimal ip = ((a * 256 + b) * 256 + c) * 256 + d /\
    fromDecimal (decimal ip) false = Ok ip.
Proof.
  intros a b c d Ha Hb Hc Hd. rewrite parse_dotted by lia. rewrite !Z.mod_small by lia.
  assert (Hok : Forall byte_ok (mappedV4Prefix ++ [a; b; c; d])).
  { rewrite mappedV4Prefix_eq. cbn [repeat app]. unfold byte_ok.
    repeat (apply Forall_cons; [lia|]). apply Forall_nil. }
  eexists. split; [reflexivity|split].
  - unfold decimal, BigInteger_of_hex. cbn [m_isV4 m_bytes].
    rewrite hex_value by (apply Forall_skipn_ok; exact Hok). reflexivity.
  - rewrite fromDecimal_v4_bytes by (reflexivity || exact Hok). reflexivity.
Qed.

Lemma X19_witness :
  exists ip, parse (lit "192.168.2.1") = Ok ip /\
    decimal ip = ((192 * 256 + 168) * 256 + 2) * 256 + 1 /\
    fromDecimal (decimal ip) false = Ok ip.
Proof.
  apply (X19_dotted_decimal_roundtrip 192 168 2 1); lia.
Defined.

(** X20: a compressed text of eight hextets whose elided zero run does not end the text unless
    it also starts it (so the text does not end in [::] after a group), parses to an address that
    [fromDecimal] rebuilds from its [decimal], forcing IPv6 exactly when the
    address is not IPv4 (mapped). *)
Theorem X20_compressed_decimal_roundtrip : forall hs, List.length hs = 8%nat -> Forall hextet_ok hs ->
  run_not_trailing hs ->
  exists ip, parse (compressed_text hs) = Ok ip /\ fromDecimal (decimal ip) (negb (m_isV4 ip)) = Ok ip.
Proof.
  intros hs Hlen Hok Hnt. rewrite parse_compressed by assumption.
  eexists. split; [reflexivity|]. cbn [m_isV4].
  assert (Hl : List.length (bytes_of_hextets hs) = 16%nat) by (rewrite bytes_of_hextets_length; lia).
  pose proof (bytes_of_hextets_ok hs Hok) as Hb.
  destruct (is_mapped (bytes_of_hextets hs)) eqn:Hm; cbn [negb].
  - rewrite fromDecimal_v4_bytes by assumption. f_equal. f_equal.
    unfold is_mapped in Hm. destruct (bytes_of_hextets hs) as [|b0 bt] eqn:E; [discriminate|].
    apply andb_prop in Hm as [_ Hm]. apply equals_spec in Hm. rewrite <- Hm. apply firstn_skipn.
  - apply fromDecimal_v6_bytes; assumption.
Qed.

Lemma X20_witness :
  exists ip, parse (compressed_text [8193; 3512; 0; 0; 0; 0; 0; 1]) = Ok ip /\
    fromDecimal (decimal ip) (negb (m_isV4 ip)) = Ok ip.
Proof.
  apply X20_compressed_decimal_roundtrip.
  - reflexivity.
  - unfold hextet_ok. repeat (apply Forall_cons; [lia|]). apply Forall_nil.
  - intros i l H. vm_compute in H. injection H as <- <-. lia.
Defined.

(** X21: a compressed text of eight hextets that is not IPv4-mapped and whose elided zero run does not end the text unless
    it also starts it (so the text does not end in [::] after a group), parses
    to an address whose expanded text lists the same eight hextets. *)
Theorem X21_compressed_to_expanded : forall hs, List.length hs = 8%nat -> Forall hextet_ok hs ->
  run_not_trailing hs -> firstn 6 hs <> [0; 0; 0; 0; 0; 65535] ->
  exists ip, parse (compressed_text hs) = Ok ip /\ toString ip (Some Expanded) = Ok (expanded_text hs).
Proof.
  intros hs Hlen Hok Hnt Hm. rewrite parse_compressed by assumption.
  assert (Hf : is_mapped (bytes_of_hextets hs) = false).
  { apply Bool.not_true_iff_false. intros E. apply Hm. apply is_mapped_hextets; assumption. }
  rewrite Hf. eexists. split; [reflexivity|].
  unfold toString. cbn [m_isV4 m_zone m_bytes is_enc].
  rewrite v6_bytes_expanded, hextets_of_bytes by
    (exact Hok || (rewrite bytes_of_hextets_length; lia) || (apply bytes_of_hextets_ok; exact Hok)).
  reflexivity.
Qed.

Lemma X21_witness :
  exists ip, parse (compressed_text [8193; 3512; 0; 0; 0; 0; 0; 1]) = Ok ip /\
    toString ip (Some Expanded) = Ok (expanded_text [8193; 3512; 0; 0; 0; 0; 0; 1]).
Proof.
  apply X21_compressed_to_expanded.
  - reflexivity.
  - unfold hextet_ok. repeat (apply Forall_cons; [lia|]). apply Forall_nil.
  - intros i l H. vm_compute in H. injection H as <- <-. lia.
  - discriminate.
Defined.

End Extra.
